(** * rss_archiver: ingestion and archival pipeline

    A shallow embedding of [rss_archiver.py]: the SQLite store
    ([initialize_db], [save_source], [save_article], the tag tables), the
    feed fetcher ([fetch_feeds]), the content resolver inside
    [process_feeds], the archival engine ([archive_old_articles]) and the
    tag search ([search_articles]).

    The program talks to the outside through third-party libraries
    (feedparser, requests, BeautifulSoup, html2text, dateutil, SQLite's
    [datetime()], the file system).  Their answers are taken as Section
    variables; the statements hold for every behaviour of those
    libraries.

    Conventions of the model:
    - a function of the program is a function from the world before the
      call to what the call returned or raised and the world after it;
    - the clock stands still during one call;
    - a feed entry has a title and a link (the program reads both
      without a test), a datetime read by dateutil has no time zone;
    - an exception is kept as its message. *)

From Stdlib Require Import ZArith List String Ascii Bool Lia DecimalString.
Import ListNotations.

Open Scope string_scope.
Open Scope Z_scope.

(* ------------------------------------------------------------------ *)
(** ** Python values and formatting *)

Module Py.

(** [str(n)] for an integer. *)
Definition str (z : Z) : string := NilZero.string_of_int (Z.to_int z).

(** [f"{n:02d}"] and [f"{n:04d}"], for [n >= 0]. *)
Definition pad2 (z : Z) : string :=
  if z <? 10 then "0" ++ str z else str z.

Definition pad4 (z : Z) : string :=
  if z <? 10 then "000" ++ str z
  else if z <? 100 then "00" ++ str z
  else if z <? 1000 then "0" ++ str z
  else str z.

Definition pad6 (z : Z) : string :=
  if z <? 10 then "00000" ++ str z
  else if z <? 100 then "0000" ++ str z
  else if z <? 1000 then "000" ++ str z
  else if z <? 10000 then "00" ++ str z
  else if z <? 100000 then "0" ++ str z
  else str z.

(** [s.split('/')]. *)
Fixpoint split_slash (s : string) : list string :=
  match s with
  | EmptyString => [EmptyString]
  | String c s' =>
      if Ascii.eqb c "/"%char then EmptyString :: split_slash s'
      else match split_slash s' with
           | [] => [String c EmptyString]
           | p :: ps => String c p :: ps
           end
  end.

(** Truth value of an optional string: [None] and [''] are false. *)
Definition truthy (s : option string) : bool :=
  match s with
  | None => false
  | Some s => negb (String.eqb s "")
  end.

(** What a call does: it returns a value or raises an exception, of
    which the model keeps the message. *)
Inductive outcome (A : Type) : Type :=
| Return (a : A)
| Raise (e : string).
Arguments Return {A} a.
Arguments Raise {A} e.

End Py.
Export Py.

(* ------------------------------------------------------------------ *)
(** ** Naive datetimes

    A [datetime] without time zone, as [datetime.utcnow()] gives it, is
    the number of microseconds since 1970-01-01T00:00:00; a [timedelta]
    is a number of microseconds. *)

Module Datetime.

Definition datetime := Z.
Definition timedelta := Z.

Definition timedelta_hours (h : Z) : timedelta := h * 3600 * 1000000.
Definition timedelta_days (d : Z) : timedelta := d * 86400 * 1000000.

Definition days_of (t : datetime) : Z := t / 86400000000.
Definition micros_of_day (t : datetime) : Z := t mod 86400000000.

(** Proleptic Gregorian date of a day number (days since 1970-01-01). *)
Definition civil (days : Z) : Z * Z * Z :=
  let z := days + 719468 in
  let era := z / 146097 in
  let doe := z - era * 146097 in
  let yoe := (doe - doe / 1460 + doe / 36524 - doe / 146096) / 365 in
  let y := yoe + era * 400 in
  let doy := doe - (365 * yoe + yoe / 4 - yoe / 100) in
  let mp := (5 * doy + 2) / 153 in
  let d := doy - (153 * mp + 2) / 5 + 1 in
  let m := if mp <? 10 then mp + 3 else mp - 9 in
  (if m <=? 2 then y + 1 else y, m, d).

Definition year (t : datetime) : Z := fst (fst (civil (days_of t))).
Definition month (t : datetime) : Z := snd (fst (civil (days_of t))).
Definition day (t : datetime) : Z := snd (civil (days_of t)).
Definition hour (t : datetime) : Z := micros_of_day t / 3600000000.
Definition minute (t : datetime) : Z := (micros_of_day t / 60000000) mod 60.
Definition second (t : datetime) : Z := (micros_of_day t / 1000000) mod 60.
Definition microsecond (t : datetime) : Z := t mod 1000000.

(** [t.isoformat()]: the fraction is printed only when it is not zero. *)
Definition isoformat (t : datetime) : string :=
  pad4 (year t) ++ "-" ++ pad2 (month t) ++ "-" ++ pad2 (day t) ++ "T"
  ++ pad2 (hour t) ++ ":" ++ pad2 (minute t) ++ ":" ++ pad2 (second t)
  ++ (if microsecond t =? 0 then "" else "." ++ pad6 (microsecond t)).

(** [t.strftime("%Y_%m_%d")] and [t.strftime("%H%M%S")]. *)
Definition strftime_Y_m_d (t : datetime) : string :=
  pad4 (year t) ++ "_" ++ pad2 (month t) ++ "_" ++ pad2 (day t).

Definition strftime_HMS (t : datetime) : string :=
  pad2 (hour t) ++ pad2 (minute t) ++ pad2 (second t).

End Datetime.
Export Datetime.

(* ------------------------------------------------------------------ *)
(** ** The SQLite store

    The four tables of [initialize_db].  A table is the list of its rows
    in insertion order; every column except the integer primary key may
    hold NULL ([None]).  The [seq_*] fields are SQLite's bookkeeping for
    AUTOINCREMENT (table sqlite_sequence): the largest id ever given. *)

Module Store.

Record source := mkSource {
  src_id : Z;
  src_name : option string;
  src_url : option string
}.

Record article := mkArticle {
  art_id : Z;
  art_title : option string;
  art_link : option string;
  art_published : option string;
  art_content : option string;
  art_scraped_at : option string;
  art_source_id : option Z
}.

Record tag := mkTag {
  tag_id : Z;
  tag_tag : option string
}.

Record article_tag := mkArticleTag {
  at_article_id : Z;
  at_tag_id : Z
}.

Record database := mkDatabase {
  sources : list source;
  articles : list article;
  tags : list tag;
  article_tags : list article_tag;
  seq_sources : Z;
  seq_articles : Z;
  seq_tags : Z
}.

Definition empty_db : database := mkDatabase [] [] [] [] 0 0 0.

Definition set_sources (db : database) (l : list source) (seq : Z) :=
  mkDatabase l (articles db) (tags db) (article_tags db)
             seq (seq_articles db) (seq_tags db).

Definition set_articles (db : database) (l : list article) (seq : Z) :=
  mkDatabase (sources db) l (tags db) (article_tags db)
             (seq_sources db) seq (seq_tags db).

Definition set_tags (db : database) (l : list tag) (seq : Z) :=
  mkDatabase (sources db) (articles db) l (article_tags db)
             (seq_sources db) (seq_articles db) seq.

Definition set_article_tags (db : database) (l : list article_tag) :=
  mkDatabase (sources db) (articles db) (tags db) l
             (seq_sources db) (seq_articles db) (seq_tags db).

(** [col = ?] with a text parameter: never true on NULL. *)
Definition text_is (col : option string) (s : string) : bool :=
  match col with
  | Some c => String.eqb c s
  | None => false
  end.

(** The rowid an AUTOINCREMENT table gives to the next inserted row. *)
Definition max_id {R : Type} (id : R -> Z) (rows : list R) : Z :=
  fold_right (fun r m => Z.max (id r) m) 0 rows.

Definition next_rowid {R : Type} (id : R -> Z) (seq : Z) (rows : list R) : Z :=
  Z.max seq (max_id id rows) + 1.

(** [INSERT INTO sources (name, url) VALUES (?, ?)]; [None] is the
    IntegrityError of the UNIQUE constraint on [url], otherwise the new
    store and [lastrowid]. *)
Definition insert_source (name url : string) (db : database)
  : option (database * Z) :=
  if existsb (fun s => text_is (src_url s) url) (sources db) then None
  else
    let id := next_rowid src_id (seq_sources db) (sources db) in
    Some (set_sources db (sources db ++ [mkSource id (Some name) (Some url)]) id,
          id).

(** [SELECT id FROM sources WHERE url = ?], [fetchone()]. *)
Definition select_source_id (url : string) (db : database) : option Z :=
  option_map src_id (find (fun s => text_is (src_url s) url) (sources db)).

(** [UPDATE sources SET name = ? WHERE id = ?]. *)
Definition update_source (new_name : string) (source_id : Z) (db : database)
  : database :=
  set_sources db
    (map (fun s => if src_id s =? source_id
                   then mkSource (src_id s) (Some new_name) (src_url s)
                   else s) (sources db))
    (seq_sources db).

(** [DELETE FROM sources WHERE id = ?]. *)
Definition delete_source_row (source_id : Z) (db : database) : database :=
  set_sources db
    (filter (fun s => negb (src_id s =? source_id)) (sources db))
    (seq_sources db).

(** [INSERT INTO articles (title, link, published, content, scraped_at,
    source_id) VALUES (?, ?, ?, ?, ?, ?)]; [None] is the IntegrityError
    of the UNIQUE constraint on [link]. *)
Definition insert_article (title link published content scraped_at : string)
    (source_id : option Z) (db : database) : option (database * Z) :=
  if existsb (fun a => text_is (art_link a) link) (articles db) then None
  else
    let id := next_rowid art_id (seq_articles db) (articles db) in
    Some (set_articles db
            (articles db ++
             [mkArticle id (Some title) (Some link) (Some published)
                        (Some content) (Some scraped_at) source_id])
            id,
          id).

(** [UPDATE articles SET content = ?, scraped_at = ?, source_id = ?
    WHERE link = ?]. *)
Definition update_article (content scraped_at : string)
    (source_id : option Z) (link : string) (db : database) : database :=
  set_articles db
    (map (fun a => if text_is (art_link a) link
                   then mkArticle (art_id a) (art_title a) (art_link a)
                                  (art_published a) (Some content)
                                  (Some scraped_at) source_id
                   else a) (articles db))
    (seq_articles db).

(** The row [fetchone()] gives for [... FROM articles WHERE link = ?]. *)
Definition article_by_link (link : string) (db : database) : option article :=
  find (fun a => text_is (art_link a) link) (articles db).

(** [SELECT id FROM articles WHERE link = ?], [fetchone()]. *)
Definition select_article_id (link : string) (db : database) : option Z :=
  option_map art_id (article_by_link link db).

(** [SELECT content, scraped_at FROM articles WHERE link = ?],
    [fetchone()]. *)
Definition select_content_scraped_at (link : string) (db : database)
  : option (option string * option string) :=
  option_map (fun a => (art_content a, art_scraped_at a))
             (article_by_link link db).

(** [DELETE FROM articles WHERE id = ?], once for every id of the list
    ([executemany]). *)
Definition delete_articles (ids : list Z) (db : database) : database :=
  set_articles db
    (filter (fun a => negb (existsb (Z.eqb (art_id a)) ids)) (articles db))
    (seq_articles db).

(** [INSERT OR IGNORE INTO tags (tag) VALUES (?)].  SQLite draws the id
    before it tests the UNIQUE constraint, so the AUTOINCREMENT counter
    advances also when the row is ignored. *)
Definition insert_or_ignore_tag (t : string) (db : database) : database :=
  let id := next_rowid tag_id (seq_tags db) (tags db) in
  if existsb (fun x => text_is (tag_tag x) t) (tags db)
  then set_tags db (tags db) id
  else set_tags db (tags db ++ [mkTag id (Some t)]) id.

(** [SELECT id FROM tags WHERE tag = ?], [fetchone()]. *)
Definition select_tag_id (t : string) (db : database) : option Z :=
  option_map tag_id (find (fun x => text_is (tag_tag x) t) (tags db)).

(** [INSERT INTO article_tags (article_id, tag_id) VALUES (?, ?)];
    [None] is the IntegrityError of the primary key. *)
Definition insert_article_tag (article_id tid : Z) (db : database)
  : option database :=
  if existsb (fun x => (at_article_id x =? article_id) && (at_tag_id x =? tid))
             (article_tags db)
  then None
  else Some (set_article_tags db
               (article_tags db ++ [mkArticleTag article_id tid])).

(** [DELETE FROM article_tags WHERE article_id = ? AND tag_id = ?]. *)
Definition delete_article_tag (article_id tid : Z) (db : database) : database :=
  set_article_tags db
    (filter (fun x => negb ((at_article_id x =? article_id) && (at_tag_id x =? tid)))
            (article_tags db)).

End Store.
Export Store.

(* ------------------------------------------------------------------ *)
(** ** The world a function runs in

    The store, the log file, the pages requested over the network, what
    was done to the archive tree, and the clock.  The clock is read by
    [utcnow] and stands still during one call of a function of the
    program. *)

Module World.

Inductive level := INFO | ERROR.

(** One record of an archive file: the six columns read by the archival
    query, which are also the keys of the JSON object written. *)
Record archive_record := mkRecord {
  rec_id : Z;
  rec_title : option string;
  rec_link : option string;
  rec_published : option string;
  rec_content : option string;
  rec_source_id : option Z
}.

Inductive fs_event :=
| Makedirs (path : string)
| Written (path : string) (records : list archive_record)
| WriteFailed (path : string).

Record world := mkWorld {
  w_db : database;
  w_log : list (level * string);
  w_net : list string;
  w_fs : list fs_event;
  w_now : datetime
}.

Definition M (A : Type) : Type := world -> outcome A * world.

Definition ret {A : Type} (a : A) : M A := fun w => (Return a, w).

Definition raise {A : Type} (e : string) : M A := fun w => (Raise e, w).

Definition bind {A B : Type} (m : M A) (k : A -> M B) : M B :=
  fun w =>
    match m w with
    | (Return a, w') => k a w'
    | (Raise e, w') => (Raise e, w')
    end.

(** [try: m  except Exception as e: ...]: the caller gets what [m] did
    as a value and goes on from the world [m] left. *)
Definition attempt {A : Type} (m : M A) : M (outcome A) :=
  fun w => let (r, w') := m w in (Return r, w').

Definition lift {A : Type} (r : outcome A) : M A := fun w => (r, w).

Definition utcnow : M datetime := fun w => (Return (w_now w), w).

Definition logging (l : level) (msg : string) : M unit :=
  fun w => (Return tt,
            mkWorld (w_db w) (w_log w ++ [(l, msg)]) (w_net w) (w_fs w) (w_now w)).

Definition logging_info := logging INFO.
Definition logging_error := logging ERROR.

Definition set_db (db : database) (w : world) : world :=
  mkWorld db (w_log w) (w_net w) (w_fs w) (w_now w).

(** The same world at another reading of the clock. *)
Definition at_time (t : datetime) (w : world) : world :=
  mkWorld (w_db w) (w_log w) (w_net w) (w_fs w) t.

(** A statement that reads the store. *)
Definition query {A : Type} (q : database -> A) : M A :=
  fun w => (Return (q (w_db w)), w).

(** A statement that writes the store, committed when the function
    closes its connection. *)
Definition execute (stmt : database -> database) : M unit :=
  fun w => (Return tt, set_db (stmt (w_db w)) w).

(** A statement under [try: ... except sqlite3.IntegrityError]: [None]
    when the constraint refused it, and then the store is as before. *)
Definition execute_checked {A : Type} (stmt : database -> option (database * A))
  : M (option A) :=
  fun w =>
    match stmt (w_db w) with
    | Some (db', a) => (Return (Some a), set_db db' w)
    | None => (Return None, w)
    end.

Definition request (link : string) : M unit :=
  fun w => (Return tt,
            mkWorld (w_db w) (w_log w) (w_net w ++ [link]) (w_fs w) (w_now w)).

Definition fs_do (ev : fs_event) : M unit :=
  fun w => (Return tt,
            mkWorld (w_db w) (w_log w) (w_net w) (w_fs w ++ [ev]) (w_now w)).

(** [for x in l: body(x)]; an exception ends the loop. *)
Fixpoint for_each {A : Type} (l : list A) (body : A -> M unit) : M unit :=
  match l with
  | [] => ret tt
  | x :: l' => bind (body x) (fun _ => for_each l' body)
  end.

End World.
Export World.

Notation "x <- m ;; k" := (bind m (fun x => k))
  (at level 61, m at next level, right associativity).
Notation "m ;;; k" := (bind m (fun _ => k))
  (at level 61, right associativity).

(* ------------------------------------------------------------------ *)
(** ** What the feed and page libraries hand over *)

Module Feed.

(** An entry of a parsed feed: each field holds the attribute when the
    entry has it.  [e_content] is the list [entry.content] (the [value]
    of each element). *)
Record entry := mkEntry {
  e_title : option string;
  e_link : option string;
  e_published : option string;
  e_updated : option string;
  e_content : option (list string);
  e_summary : option string
}.

(** A [FeedParserDict]: [feed.feed.title], [feed.feed.link], the
    [bozo_exception] when [feed.bozo] is set, and [feed.entries]. *)
Record feed_doc := mkFeed {
  feed_title : option string;
  feed_link : option string;
  feed_bozo : option string;
  feed_entries : list entry
}.

(** A fetched page as BeautifulSoup shows it: the text of the [<p>]
    elements inside the first [<article>] element when there is one,
    and the text of all [<p>] elements of the document; or the
    exception the parsing ran into. *)
Inductive page :=
| Soup (article_paragraphs : option (list string)) (paragraphs : list string)
| Broken (e : string).

(** A curses window, as far as [update_progress_bar] is concerned:
    [None] when the bar is drawn on it, the curses error otherwise. *)
Definition window := Z -> Z -> string -> option string.

End Feed.
Export Feed.

(* ------------------------------------------------------------------ *)
(** ** An environment for the examples

    The answers of the libraries on the texts that the examples use.
    Every other text is taken as unusable: no date, no page, no feed. *)

Module Sample.

(** 2024-03-01T12:00:00. *)
Definition noon : datetime := 1709294400 * 1000000.

(** A body of 240 characters. *)
Definition long_text : string :=
  String.concat "" (repeat "lorem ipsum " 20).

Definition dateutil_parse (s : string) : outcome datetime :=
  if String.eqb s "2020-01-15 08:00:00" then Return (1579075200 * 1000000)
  else if String.eqb s "2024-03-01T11:00:00" then Return (1709290800 * 1000000)
  else if String.eqb s "2024-02-29T11:00:00" then Return (1709204400 * 1000000)
  else if String.eqb s "2024-02-10 09:30:00" then Return (1707557400 * 1000000)
  else Raise ("Unknown string format: " ++ s).

Definition sqlite_datetime (s : string) : option string :=
  if String.eqb s "2020-01-15 08:00:00" then Some s
  else if String.eqb s "2024-02-10 09:30:00" then Some s
  else None.

Definition good_feed : feed_doc :=
  mkFeed (Some "Good news") (Some "http://good.example")
         None
         [mkEntry (Some "First") (Some "http://good.example/1")
                  (Some "2024-02-10 09:30:00")
                  None None (Some "<p>teaser</p>")].

Definition feedparser_parse (url : string) : outcome feed_doc :=
  if String.eqb url "http://good.example/rss" then Return good_feed
  else Raise "<urlopen error timed out>".

Definition requests_get (link : string) : outcome page :=
  if String.eqb link "http://good.example/1"
  then Return (Soup None ["one"; "two"])
  else Raise "404 Client Error".

(** A stand-in for html2text: it marks what it was given. *)
Definition handle (markup : string) : string := "text of " ++ markup.

Definition makedirs_ok (path : string) : option string := None.
Definition gzip_ok (path : string) : option string := None.
Definition gzip_full (path : string) : option string :=
  Some "[Errno 28] No space left on device".

Definition old_article : article :=
  mkArticle 1 (Some "Old") (Some "http://good.example/old")
            (Some "2020-01-15 08:00:00") (Some "body") (Some "2020-01-15T09:00:00")
            (Some 1).

Definition undated_article : article :=
  mkArticle 2 (Some "Undated") (Some "http://good.example/undated")
            (Some "not-a-date") (Some "body") (Some "2020-01-15T09:00:00")
            (Some 1).

(** A [published] that names no day of the calendar: SQLite's
    [datetime()] does not look at the calendar and reads it, dateutil
    refuses it. *)
Definition misdated_article : article :=
  mkArticle 1 (Some "Misdated") (Some "http://good.example/misdated")
            (Some "2023-02-30") (Some "body") (Some "2023-03-01T09:00:00")
            (Some 1).

Definition sqlite_datetime_text (s : string) : option string :=
  if String.eqb s "2023-02-30" then Some "2023-02-30 00:00:00"
  else sqlite_datetime s.

Definition dateutil_parse_calendar (s : string) : outcome datetime :=
  if String.eqb s "2023-02-30"
  then Raise "day is out of range for month: 2023-02-30"
  else dateutil_parse s.

(** Resolved one hour before [noon], and 25 hours before. *)
Definition cached_article : article :=
  mkArticle 3 (Some "Cached") (Some "http://good.example/1")
            (Some "2024-02-10 09:30:00") (Some long_text)
            (Some "2024-03-01T11:00:00") (Some 1).

Definition stale_article : article :=
  mkArticle 3 (Some "Cached") (Some "http://good.example/1")
            (Some "2024-02-10 09:30:00") (Some long_text)
            (Some "2024-02-29T11:00:00") (Some 1).

Definition db_of (rows : list article) : database :=
  mkDatabase [mkSource 1 (Some "Good news") (Some "http://good.example")]
             rows
             [mkTag 1 (Some "rocq"); mkTag 2 (Some "proofs")]
             [mkArticleTag 1 1; mkArticleTag 1 2; mkArticleTag 2 1]
             1 3 2.

Definition world_of (rows : list article) : world :=
  mkWorld (db_of rows) [] [] [] noon.

Definition old_link : string := "http://good.example/old".
Definition new_link : string := "http://good.example/new".
Definition one_old : world := world_of [old_article].
Definition old_and_undated : world := world_of [old_article; undated_article].

(** An entry whose page cannot be fetched, with a feed content and a
    summary. *)
Definition unreachable_entry : entry :=
  mkEntry (Some "Gone") (Some "http://gone.example/1") None
          (Some "2024-02-10 09:30:00")
          (Some ["<b>full</b>"; "<i>other</i>"]) (Some "<p>short</p>").

Definition cached_entry : entry :=
  mkEntry (Some "First") (Some "http://good.example/1")
          (Some "2024-02-10 09:30:00")
          None None (Some "<p>teaser</p>").

End Sample.

(* ------------------------------------------------------------------ *)
(** ** The program *)

Definition CACHE_DURATION_HOURS : Z := 24.
Definition ARCHIVE_THRESHOLD_DAYS : Z := 30.

(** Unfolding of the combinators of [M]. *)
Ltac unfold_M :=
  unfold bind, ret, raise, lift, attempt, utcnow, query, execute,
    execute_checked, logging_info, logging_error, logging, fs_do, request,
    set_db.

Set Default Proof Using "Type".

Section Program.

(** [feedparser.parse(url)]. *)
Variable feedparser_parse : string -> outcome feed_doc.
(** [requests.get(link, timeout=10)] followed by [raise_for_status()]
    and the BeautifulSoup parse of the body. *)
Variable requests_get : string -> outcome page.
(** [html2text.HTML2Text().handle] with links and images ignored. *)
Variable handle : string -> string.
(** [dateutil.parser.parse], giving a naive datetime. *)
Variable dateutil_parse : string -> outcome datetime.
(** SQLite's [datetime(text)]: NULL when the text is no time value. *)
Variable sqlite_datetime : string -> option string.
(** [os.makedirs(path, exist_ok=True)] and the gzip write of a file:
    the error raised, if any. *)
Variable makedirs_error : string -> option string.
Variable gzip_error : string -> option string.
(** [ARCHIVE_DIR]. *)
Variable ARCHIVE_DIR : string.

(** *** [initialize_db]: CREATE TABLE IF NOT EXISTS for the four tables;
    tables that exist keep their rows. *)
Definition initialize_db : M unit :=
  execute (fun db => db) ;;;
  logging_info "Database initialized.".

(** *** [save_source] (lines 89-111) *)
Definition save_source (name url : string) : M (option Z) :=
  r <- execute_checked (insert_source name url) ;;
  match r with
  | Some source_id =>
      logging_info ("Source saved: " ++ name ++ " (" ++ url ++ ")") ;;;
      ret (Some source_id)
  | None =>
      row <- query (select_source_id url) ;;
      match row with
      | Some source_id =>
          logging_info ("Source already exists: " ++ name ++ " (" ++ url ++ ")") ;;;
          ret (Some source_id)
      | None => ret None
      end
  end.

(** *** [update_source_name], [delete_source] (lines 113-133) *)
Definition update_source_name (source_id : Z) (new_name : string) : M unit :=
  execute (update_source new_name source_id) ;;;
  logging_info ("Source ID " ++ str source_id ++ " renamed to " ++ new_name).

Definition delete_source (source_id : Z) : M unit :=
  execute (delete_source_row source_id) ;;;
  logging_info ("Source ID " ++ str source_id ++ " deleted").

(** *** [save_article] (lines 135-180)

    [save_article_body] is the function up to its last statement and
    yields the local variable [article_id]. *)
Definition save_article_body (title link published content : string)
    (source_id : option Z) (scraped_now : bool) : M (option Z) :=
  now <- utcnow ;;
  r <- execute_checked
         (insert_article title link published content (isoformat now) source_id) ;;
  match r with
  | Some article_id =>
      logging_info ((if scraped_now then "Article saved and scraped: "
                     else "Article saved: ") ++ title) ;;;
      ret (Some article_id)
  | None =>
      if scraped_now then
        now' <- utcnow ;;
        execute (update_article content (isoformat now') source_id link) ;;;
        row <- query (select_article_id link) ;;
        match row with
        | Some article_id =>
            logging_info ("Article updated and re-scraped: " ++ title) ;;;
            ret (Some article_id)
        | None => raise "TypeError: 'NoneType' object is not subscriptable"
        end
      else
        row <- query (select_article_id link) ;;
        match row with
        | Some article_id =>
            logging_info ("Article already exists: " ++ title) ;;;
            ret (Some article_id)
        | None => ret None
        end
  end.

(** The function ends after [conn.close()] without a [return]
    statement: the caller receives [None]. *)
Definition save_article (title link published content : string)
    (source_id : option Z) (scraped_now : bool) : M (option Z) :=
  _ <- save_article_body title link published content source_id scraped_now ;;
  ret None.

(** *** [fetch_feeds] (lines 186-207) *)
Definition get_default (o : option string) (default : string) : string :=
  match o with
  | Some v => v
  | None => default
  end.

Definition update_progress_bar (win : window) (current total : Z)
    (message : string) : M unit :=
  match win current total message with
  | None => ret tt
  | Some e => raise e
  end.

(** [if progress_win: update_progress_bar(progress_win, ...)]. *)
Definition show_progress (progress_win : option window) (current total : Z)
    (message : string) : M unit :=
  match progress_win with
  | Some win => update_progress_bar win current total message
  | None => ret tt
  end.

(** The [except Exception as e] clause of the loop body. *)
Definition fetch_failed (progress_win : option window) (idx total : Z)
    (url : string) (feeds : list feed_doc) (e : string) : M (list feed_doc) :=
  logging_error ("Error fetching feed " ++ url ++ ": " ++ e) ;;;
  show_progress progress_win idx total ("Errore nel fetch del feed: " ++ url) ;;;
  ret feeds.

(** One turn of the loop; [feeds] is the list built so far.  The feed is
    appended before the progress bar is drawn, so it stays in the list
    when the drawing raises. *)
Definition fetch_one (progress_win : option window) (idx total : Z)
    (url : string) (feeds : list feed_doc) : M (list feed_doc) :=
  match feedparser_parse url with
  | Raise e => fetch_failed progress_win idx total url feeds e
  | Return feed =>
      match feed_bozo feed with
      | Some e => fetch_failed progress_win idx total url feeds e
      | None =>
          let feeds' := (feeds ++ [feed])%list in
          logging_info ("Fetched feed: " ++ url) ;;;
          r <- attempt
                 (show_progress progress_win idx total
                    ("Elaborazione feed: "
                     ++ get_default (feed_title feed) "Unknown Source")) ;;
          match r with
          | Return _ => ret feeds'
          | Raise e => fetch_failed progress_win idx total url feeds' e
          end
      end
  end.

Fixpoint fetch_loop (progress_win : option window) (total idx : Z)
    (urls : list string) (feeds : list feed_doc) : M (list feed_doc) :=
  match urls with
  | [] => ret feeds
  | url :: urls' =>
      feeds' <- fetch_one progress_win idx total url feeds ;;
      fetch_loop progress_win total (idx + 1) urls' feeds'
  end.

Definition fetch_feeds (feed_urls : list string) (progress_win : option window)
  : M (list feed_doc) :=
  fetch_loop progress_win (Z.of_nat (List.length feed_urls)) 1 feed_urls [].

(** *** [fetch_full_article] (lines 209-240) *)
Definition newline : string := String "010"%char EmptyString.

Definition fetch_full_article (link : string) : M string :=
  request link ;;;
  match requests_get link with
  | Raise e =>
      logging_error ("Error fetching article content from " ++ link ++ ": " ++ e) ;;;
      ret ""
  | Return (Broken e) =>
      logging_error ("Error parsing article content from " ++ link ++ ": " ++ e) ;;;
      ret ""
  | Return (Soup None paragraphs) => ret (String.concat newline paragraphs)
  | Return (Soup (Some paragraphs) _) => ret (String.concat newline paragraphs)
  end.

(** *** [process_feeds] (lines 242-309) *)

(** Lines 265-270. *)
Definition entry_published (e : entry) : string :=
  match e_published e with
  | Some p => p
  | None => get_default (e_updated e) ""
  end.

(** Lines 279-287: the value of [needs_scraping] for the row that
    [fetchone()] gave. *)
Definition needs_scraping (row : option (option string * option string))
  : M bool :=
  match row with
  | Some (content_existing, scraped_at_str) =>
      if truthy content_existing
         && (200 <=? Z.of_nat (String.length (get_default content_existing "")))
      then
        match scraped_at_str with
        | Some s =>
            if truthy scraped_at_str then
              scraped_at <- lift (dateutil_parse s) ;;
              now <- utcnow ;;
              if now - scraped_at <? timedelta_hours CACHE_DURATION_HOURS
              then ret false
              else ret true
            else ret true
        | None => ret true
        end
      else ret true
  | None => ret true
  end.

(** Lines 296-301: the text taken from the feed itself. *)
Definition feed_text (e : entry) : string :=
  match e_content e with
  | Some (value :: _) => handle value
  | _ => handle (get_default (e_summary e) "")
  end.

(** Lines 272-306: the pair [(content, scraped_now)]; [link] is the
    local variable that holds [entry.link]. *)
Definition resolve_content (link : string) (e : entry) : M (string * bool) :=
  row <- query (select_content_scraped_at link) ;;
  needs <- needs_scraping row ;;
  if needs then
    full_content <- fetch_full_article link ;;
    if negb (String.eqb full_content "") then ret (full_content, true)
    else ret (feed_text e, false)
  else
    match row with
    | Some (Some content, _) => ret (content, false)
    | _ => raise "needs_scraping is False only for a row that has content"
    end.

(** [entry.title], [entry.link] (lines 261-262): feedparser raises an
    AttributeError for an attribute that the entry does not have. *)
Definition attribute (name : string) (value : option string) : M string :=
  match value with
  | Some v => ret v
  | None => raise ("object has no attribute '" ++ name ++ "'")
  end.

Definition process_entry (source_id : option Z) (e : entry) : M unit :=
  title <- attribute "title" (e_title e) ;;
  link <- attribute "link" (e_link e) ;;
  let published := entry_published e in
  r <- resolve_content link e ;;
  let (content, scraped_now) := r in
  save_article title link published content source_id scraped_now ;;;
  ret tt.

Definition process_feed (feed : feed_doc) : M unit :=
  let source_name := get_default (feed_title feed) "Unknown Source" in
  let source_url := get_default (feed_link feed) "Unknown URL" in
  source_id <- save_source source_name source_url ;;
  for_each (feed_entries feed) (process_entry source_id).

(** [read_feeds] stands for the list that [read_feeds()] reads from the
    feeds file. *)
Definition process_feeds (read_feeds : list string)
    (progress_win : option window) : M unit :=
  feeds <- fetch_feeds read_feeds progress_win ;;
  for_each feeds process_feed.

(** *** [archive_old_articles] (lines 315-384) *)

Definition record_of (a : article) : archive_record :=
  mkRecord (art_id a) (art_title a) (art_link a) (art_published a)
           (art_content a) (art_source_id a).

(** [published IS NOT NULL AND datetime(published) < ?]; the two sides
    of [<] are texts and are compared byte by byte. *)
Definition is_old (cutoff_iso : string) (a : article) : bool :=
  match art_published a with
  | Some p =>
      match sqlite_datetime p with
      | Some d => String.ltb d cutoff_iso
      | None => false
      end
  | None => false
  end.

(** Lines 326-330. *)
Definition select_old_articles (cutoff_iso : string) (db : database)
  : list archive_record :=
  map record_of (filter (is_old cutoff_iso) (articles db)).

(** [archive_dict]: a dict keeps its keys in insertion order. *)
Definition dict := list (string * list archive_record).

Fixpoint dict_append (d : dict) (key : string) (r : archive_record) : dict :=
  match d with
  | [] => [(key, [r])]
  | (k, rs) :: d' =>
      if String.eqb k key then (k, (rs ++ [r])%list) :: d'
      else (k, rs) :: dict_append d' key r
  end.

Definition archive_key (pub_datetime : datetime) : string :=
  str (year pub_datetime) ++ "/" ++ pad2 (month pub_datetime).

(** Lines 340-357: one turn of the grouping loop. *)
Definition group_article (d : dict) (a : archive_record) : M dict :=
  let parsed :=
    match rec_published a with
    | Some published => dateutil_parse published
    | None => Raise "Parser must be a string or character stream, not NoneType"
    end in
  match parsed with
  | Return pub_datetime => ret (dict_append d (archive_key pub_datetime) a)
  | Raise e =>
      logging_error ("Errore nel parsing della data per l'articolo ID "
                     ++ str (rec_id a) ++ ": " ++ e) ;;;
      ret d
  end.

Fixpoint group_articles (old_articles : list archive_record) (d : dict)
  : M dict :=
  match old_articles with
  | [] => ret d
  | a :: rest => d' <- group_article d a ;; group_articles rest d'
  end.

(** Lines 361-375: one turn of the writing loop.  [os.makedirs] is
    outside the [try], the gzip write inside it. *)
Definition write_group (item : string * list archive_record) : M unit :=
  let (key, group) := item in
  match split_slash key with
  | [y; m] =>
      let archive_path := ARCHIVE_DIR ++ "/" ++ y ++ "/" ++ m in
      match makedirs_error archive_path with
      | Some e => raise e
      | None =>
          fs_do (Makedirs archive_path) ;;;
          now <- utcnow ;;
          let file_name := "articles_" ++ strftime_Y_m_d now ++ "_"
                           ++ strftime_HMS now ++ ".json.gz" in
          let file_path := archive_path ++ "/" ++ file_name in
          match gzip_error file_path with
          | None =>
              fs_do (Written file_path group) ;;;
              logging_info ("Archiviati " ++ str (Z.of_nat (List.length group))
                            ++ " articoli in " ++ file_path)
          | Some e =>
              fs_do (WriteFailed file_path) ;;;
              logging_error ("Errore nell'archiviazione degli articoli in "
                             ++ file_path ++ ": " ++ e)
          end
      end
  | _ => raise "ValueError: wrong number of values to unpack"
  end.

Definition archive_old_articles (threshold_days : Z) : M unit :=
  now <- utcnow ;;
  let cutoff_iso := isoformat (now - timedelta_days threshold_days) in
  old_articles <- query (select_old_articles cutoff_iso) ;;
  match old_articles with
  | [] => logging_info "Nessun articolo da archiviare."
  | _ =>
      archive_dict <- group_articles old_articles [] ;;
      for_each archive_dict write_group ;;;
      let article_ids := map rec_id old_articles in
      execute (delete_articles article_ids) ;;;
      logging_info ("Rimossi " ++ str (Z.of_nat (List.length article_ids))
                    ++ " articoli dal database principale.")
  end.

(** *** [add_tags], [remove_tags] (lines 850-885) *)
Definition add_tag (article_id : Z) (t : string) : M unit :=
  execute (insert_or_ignore_tag t) ;;;
  tag_row <- query (select_tag_id t) ;;
  match tag_row with
  | Some tid =>
      execute_checked
        (fun db => option_map (fun db' => (db', tt))
                              (insert_article_tag article_id tid db)) ;;;
      ret tt
  | None => ret tt
  end.

Definition add_tags (article_id : Z) (tags_to_add : list string) : M unit :=
  for_each tags_to_add (add_tag article_id).

Definition remove_tag (article_id : Z) (t : string) : M unit :=
  tag_row <- query (select_tag_id t) ;;
  match tag_row with
  | Some tid => execute (delete_article_tag article_id tid)
  | None => ret tt
  end.

Definition remove_tags (article_id : Z) (tags_to_remove : list string) : M unit :=
  for_each tags_to_remove (remove_tag article_id).

(** *** [search_articles] (lines 1317-1350) *)

(** [SELECT id FROM tags WHERE tag IN (?, ..., ?)]. *)
Definition select_tag_ids (search_tags : list string) (db : database) : list Z :=
  map tag_id
      (filter (fun t => existsb (text_is (tag_tag t)) search_tags) (tags db)).

(** The [tag_id]s of the rows that the JOIN and the WHERE clause keep
    for one article. *)
Definition joined_tag_ids (tag_ids : list Z) (a : article) (db : database)
  : list Z :=
  map at_tag_id
      (filter (fun x => (at_article_id x =? art_id a)
                        && existsb (Z.eqb (at_tag_id x)) tag_ids)
              (article_tags db)).

Definition result_row : Type :=
  Z * option string * option string * option string.

(** The query of lines 1338-1347: one group per article that has a
    joined row, kept when COUNT(DISTINCT tag_id) is the bound number. *)
Definition row_of (a : article) : result_row :=
  (art_id a, art_title a, art_link a, art_published a).

Definition select_by_tag_ids (tag_ids : list Z) (n : Z) (db : database)
  : list result_row :=
  map row_of
      (filter (fun a =>
                 let g := joined_tag_ids tag_ids a db in
                 negb (Nat.eqb (List.length g) 0)
                 && (Z.of_nat (List.length (nodup Z.eq_dec g)) =? n))
              (articles db)).

Definition search_articles (search_tags : list string) : M (list result_row) :=
  match search_tags with
  | [] => ret []
  | _ =>
      tag_ids <- query (select_tag_ids search_tags) ;;
      match tag_ids with
      | [] => ret []
      | _ => query (select_by_tag_ids tag_ids (Z.of_nat (List.length tag_ids)))
      end
  end.

(** *** The operations that write the store *)
Inductive store_op :=
| OpInitialize
| OpSaveSource (name url : string)
| OpUpdateSourceName (source_id : Z) (new_name : string)
| OpDeleteSource (source_id : Z)
| OpSaveArticle (title link published content : string)
                (source_id : option Z) (scraped_now : bool)
| OpArchive (threshold_days : Z)
| OpAddTags (article_id : Z) (tags_to_add : list string)
| OpRemoveTags (article_id : Z) (tags_to_remove : list string).

Definition run_op (op : store_op) (w : world) : world :=
  match op with
  | OpInitialize => snd (initialize_db w)
  | OpSaveSource name url => snd (save_source name url w)
  | OpUpdateSourceName source_id new_name =>
      snd (update_source_name source_id new_name w)
  | OpDeleteSource source_id => snd (delete_source source_id w)
  | OpSaveArticle title link published content source_id scraped_now =>
      snd (save_article title link published content source_id scraped_now w)
  | OpArchive threshold_days => snd (archive_old_articles threshold_days w)
  | OpAddTags article_id l => snd (add_tags article_id l w)
  | OpRemoveTags article_id l => snd (remove_tags article_id l w)
  end.

(* ---------------------------------------------------------------- *)
(** ** Words of the specification *)

(** Two rows that differ at most in [scraped_at]. *)
Definition same_but_scraped_at (a a' : article) : Prop :=
  art_id a' = art_id a /\ art_title a' = art_title a
  /\ art_link a' = art_link a /\ art_published a' = art_published a
  /\ art_content a' = art_content a /\ art_source_id a' = art_source_id a.

(** The row that the UPDATE of [save_article] makes of a row. *)
Definition rescraped (content : string) (now : datetime)
    (source_id : option Z) (a : article) : article :=
  mkArticle (art_id a) (art_title a) (art_link a) (art_published a)
            (Some content) (Some (isoformat now)) source_id.

(** Every row of [articles] satisfies [P]. *)
Definition every_article (P : article -> Prop) (db : database) : Prop :=
  forall a, In a (articles db) -> P a.

(** [P] holds of the rows that [save_article] inserts or rewrites. *)
Definition holds_of_written (P : article -> Prop) : Prop :=
  forall id title link published content now source_id,
    P (mkArticle id title link published (Some content)
                 (Some (isoformat now)) source_id).

(** A row with content has a resolution timestamp. *)
Definition stamped (a : article) : Prop :=
  truthy (art_content a) = true -> art_scraped_at a <> None.

Definition content_is_stamped (db : database) : Prop :=
  every_article stamped db.

(** A [scraped_at] that is not NULL was printed by [isoformat]. *)
Definition stamp_is_iso (a : article) : Prop :=
  forall s, art_scraped_at a = Some s -> exists t, s = isoformat t.

(** PRIMARY KEY of [articles]. *)
Definition article_ids_unique (db : database) : Prop :=
  NoDup (map art_id (articles db)).

(** The upsert as the specification words it: the row of an existing
    link takes every arriving value and the current time. *)
Definition refreshes_row (title link published content : string)
    (source_id : option Z) (scraped_now : bool) (w : world) : Prop :=
  forall a, article_by_link link (w_db w) = Some a ->
  exists a',
    article_by_link link
      (w_db (snd (save_article title link published content source_id
                               scraped_now w))) = Some a'
    /\ art_title a' = Some title /\ art_published a' = Some published
    /\ art_content a' = Some content /\ art_source_id a' = source_id
    /\ art_scraped_at a' = Some (isoformat (w_now w)).

(** The cached content [c] of a link is fresh: the row exists, its
    content is not empty and has at least 200 characters, and less than
    the cache duration has passed since the time its [scraped_at]
    holds. *)
Definition cache_is_fresh (w : world) (link c : string) : Prop :=
  exists a s t,
    article_by_link link (w_db w) = Some a
    /\ art_content a = Some c /\ c <> "" /\ 200 <= Z.of_nat (String.length c)
    /\ art_scraped_at a = Some s /\ s <> "" /\ dateutil_parse s = Return t
    /\ w_now w - t < timedelta_hours CACHE_DURATION_HOURS.

(** The [scraped_at] of the row of a link, when it holds a text, holds
    one that dateutil reads. *)
Definition stamp_readable (w : world) (link : string) : Prop :=
  forall a s, article_by_link link (w_db w) = Some a ->
              art_scraped_at a = Some s -> s <> "" ->
              exists t, dateutil_parse s = Return t.

(** Resolution hands back the stored content and leaves the world as it
    is: nothing is requested from the network. *)
Definition reuses_cache (link : string) (e : entry) (w : world) : Prop :=
  exists a c,
    article_by_link link (w_db w) = Some a /\ art_content a = Some c
    /\ resolve_content link e w = (Return (c, false), w).

(** Resolution requests the page of the entry. *)
Definition attempts_extraction (link : string) (e : entry) (w : world) : Prop :=
  w_net (snd (resolve_content link e w)) = (w_net w ++ [link])%list.

(** The world with more records in its log. *)
Definition logged (w : world) (records : list (level * string)) : world :=
  mkWorld (w_db w) (w_log w ++ records) (w_net w) (w_fs w) (w_now w).

(** What one URL contributes to the result and to the log. *)
Definition parsed_ok (url : string) : list feed_doc :=
  match feedparser_parse url with
  | Return feed =>
      match feed_bozo feed with
      | None => [feed]
      | Some _ => []
      end
  | Raise _ => []
  end.

Definition fetch_record (url : string) : level * string :=
  match feedparser_parse url with
  | Return feed =>
      match feed_bozo feed with
      | None => (INFO, "Fetched feed: " ++ url)
      | Some e => (ERROR, "Error fetching feed " ++ url ++ ": " ++ e)
      end
  | Raise e => (ERROR, "Error fetching feed " ++ url ++ ": " ++ e)
  end.

(** No progress window, or one on which the bar is always drawn. *)
Definition draws (progress_win : option window) : Prop :=
  match progress_win with
  | None => True
  | Some win => forall current total message, win current total message = None
  end.

(** The fetcher as the specification words it: one result per URL. *)
Definition one_result_per_url : Prop :=
  forall (feed_urls : list string) (w : world),
  exists feeds w',
    fetch_feeds feed_urls None w = (Return feeds, w')
    /\ List.length feeds = List.length feed_urls.

(** An association between the article and a tag of that name. *)
Definition has_tag (db : database) (article_id : Z) (t : string) : Prop :=
  exists x, In x (tags db) /\ tag_tag x = Some t
            /\ In (mkArticleTag article_id (tag_id x)) (article_tags db).

(** PRIMARY KEY (id) and UNIQUE (tag) of [tags]. *)
Definition tags_keyed (db : database) : Prop :=
  NoDup (map tag_id (tags db))
  /\ forall x y t, In x (tags db) -> In y (tags db) ->
                   tag_tag x = Some t -> tag_tag y = Some t -> x = y.

(** Every searched tag names a row of [tags]. *)
Definition tags_known (db : database) (search_tags : list string) : Prop :=
  forall t, In t search_tags -> exists x, In x (tags db) /\ tag_tag x = Some t.

(** The search as the specification words it. *)
Definition finds_all_tags (search_tags : list string) (w : world) : Prop :=
  exists result w',
    search_articles search_tags w = (Return result, w')
    /\ forall a, In a (articles (w_db w)) ->
         (In (row_of a) result <->
          forall t, In t search_tags -> has_tag (w_db w) (art_id a) t).


(* ---------------------------------------------------------------- *)
(** ** Further words about the store *)

(** The values of a column that are not NULL. *)
Definition non_null {A : Type} (col : list (option A)) : list A :=
  flat_map (fun v => match v with Some x => [x] | None => [] end) col.

(** UNIQUE (link) of [articles], UNIQUE (url) and PRIMARY KEY of
    [sources], PRIMARY KEY of [article_tags]. *)
Definition links_unique (db : database) : Prop :=
  NoDup (non_null (map art_link (articles db))).

Definition urls_unique (db : database) : Prop :=
  NoDup (non_null (map src_url (sources db))).

Definition source_ids_unique (db : database) : Prop :=
  NoDup (map src_id (sources db)).

Definition pairs_unique (db : database) : Prop :=
  NoDup (article_tags db).

(** All the constraints of the schema of [initialize_db]. *)
Definition constraints (db : database) : Prop :=
  source_ids_unique db /\ urls_unique db
  /\ article_ids_unique db /\ links_unique db
  /\ tags_keyed db /\ pairs_unique db.

(** No article has an id above the AUTOINCREMENT counter. *)
Definition ids_bounded (db : database) : Prop :=
  forall a, In a (articles db) -> art_id a <= seq_articles db.

(** A history: operations, each at its reading of the clock. *)
Fixpoint run_ops (ops : list (datetime * store_op)) (w : world) : world :=
  match ops with
  | [] => w
  | (t, op) :: rest => run_ops rest (run_op op (at_time t w))
  end.

(* ---------------------------------------------------------------- *)
(** ** Words about ingestion *)

(** The text that [fetch_full_article] takes from the page of a link:
    the paragraphs of the [<article>] element when there is one, else
    those of the document; [''] when the page cannot be fetched or
    parsed. *)
Definition page_text (link : string) : string :=
  match requests_get link with
  | Return (Soup (Some paragraphs) _) => String.concat newline paragraphs
  | Return (Soup None paragraphs) => String.concat newline paragraphs
  | Return (Broken _) => ""
  | Raise _ => ""
  end.

(** The article is still in the store, with its id, link, title and
    published. *)
Definition kept (a : article) (db' : database) : Prop :=
  exists a', In a' (articles db')
             /\ art_id a' = art_id a /\ art_link a' = art_link a
             /\ art_title a' = art_title a /\ art_published a' = art_published a.

Definition grows (db db' : database) : Prop :=
  forall a, In a (articles db) -> kept a db'.

(** The [scraped_at] of the row, when it holds a text, holds one that
    dateutil reads. *)
Definition readable (a : article) : Prop :=
  forall s, art_scraped_at a = Some s -> s <> "" ->
            exists t, dateutil_parse s = Return t.

(** Every entry of the feeds that the URLs give has a title and a
    link. *)
Definition entries_titled (urls : list string) : Prop :=
  forall feed e,
    In feed (flat_map parsed_ok urls) -> In e (feed_entries feed) ->
    e_title e <> None /\ e_link e <> None.

(* ---------------------------------------------------------------- *)
(** ** Words about archival *)

(** The key under which the grouping loop files a record: [None] when
    dateutil cannot read its [published]. *)
Definition key_of (r : archive_record) : option string :=
  match rec_published r with
  | Some published =>
      match dateutil_parse published with
      | Return pub_datetime => Some (archive_key pub_datetime)
      | Raise _ => None
      end
  | None => None
  end.

(** The file of a group in a run at time [now]. *)
Definition archive_file (key : string) (now : datetime) : string :=
  ARCHIVE_DIR ++ "/" ++ key ++ "/" ++ "articles_" ++ strftime_Y_m_d now ++ "_"
  ++ strftime_HMS now ++ ".json.gz".

(** What the writing loop does to the archive tree for one group. *)
Definition group_events (now : datetime) (item : string * list archive_record)
  : list fs_event :=
  [Makedirs (ARCHIVE_DIR ++ "/" ++ fst item);
   match gzip_error (archive_file (fst item) now) with
   | None => Written (archive_file (fst item) now) (snd item)
   | Some _ => WriteFailed (archive_file (fst item) now)
   end].

Fixpoint no_slash (s : string) : bool :=
  match s with
  | EmptyString => true
  | String c s' => negb (Ascii.eqb c "/"%char) && no_slash s'
  end.

(** *** [perform_archiving] (lines 1388-1398); what it prints on the
    standard output is not part of the world. *)
Definition perform_archiving : M unit :=
  r <- attempt (archive_old_articles ARCHIVE_THRESHOLD_DAYS) ;;
  match r with
  | Return _ => logging_info "Archiviazione completata."
  | Raise e => logging_error ("Errore durante l'archiviazione: " ++ e)
  end.

(** A window on which every drawing fails with the same error. *)
Definition never_draws (win : window) (e : string) : Prop :=
  forall current total message, win current total message = Some e.

(** The record is filed under [key]. *)
Definition has_key (key : string) (r : archive_record) : bool :=
  match key_of r with
  | Some k => String.eqb k key
  | None => false
  end.

(** The dict that the grouping loop builds from [d]. *)
Definition grouped (old_articles : list archive_record) (d : dict) : dict :=
  fold_left (fun d r => match key_of r with
                        | Some key => dict_append d key r
                        | None => d
                        end)
            old_articles d.

(** The records of a dict under a key. *)
Definition records_at (d : dict) (key : string) : list archive_record :=
  flat_map (fun item => if String.eqb (fst item) key then snd item else []) d.

(* ---------------------------------------------------------------- *)
(** ** Words about tags *)

(** The query of [show_article] (lines 654-659): the names of the tags
    of an article,
    [SELECT tags.tag FROM tags JOIN article_tags
     ON tags.id = article_tags.tag_id WHERE article_tags.article_id = ?]. *)
Definition select_article_tags (article_id : Z) (db : database)
  : list (option string) :=
  flat_map
    (fun t =>
       map (fun _ => tag_tag t)
           (filter (fun x => (at_tag_id x =? tag_id t)
                             && (at_article_id x =? article_id))
                   (article_tags db)))
    (tags db).

(** The tag has its row, found by [SELECT id FROM tags WHERE tag = ?],
    and the article is associated with it. *)
Definition tagged (db : database) (article_id : Z) (t : string) : Prop :=
  exists tid, select_tag_id t db = Some tid
              /\ In (mkArticleTag article_id tid) (article_tags db).

(** The two stores hold the same rows, and the counters of [sources] and
    of [articles] are the same. *)
Definition same_rows (db db' : database) : Prop :=
  sources db' = sources db /\ articles db' = articles db
  /\ tags db' = tags db /\ article_tags db' = article_tags db
  /\ seq_sources db' = seq_sources db /\ seq_articles db' = seq_articles db.

(** The tag has a row in [tags]. *)
Definition known_tag (db : database) (t : string) : Prop :=
  exists x, In x (tags db) /\ tag_tag x = Some t.

(** The association is one that [remove_tags] deletes: it is of the
    article, with the id that the lookup of one of the tags gives. *)
Definition removed_pair (db : database) (article_id : Z)
    (tags_to_remove : list string) (x : article_tag) : bool :=
  (at_article_id x =? article_id)
  && existsb (fun t => match select_tag_id t db with
                       | Some tid => at_tag_id x =? tid
                       | None => false
                       end)
             tags_to_remove.

(* ---------------------------------------------------------------- *)
(** ** Text and the feeds file

    A text is the sequence of its characters, of which the model has
    those below 256.  The feeds file is its text, or [None] when the
    file does not exist; the file system is taken to accept what the
    program does to it, and the line separator of the system to be the
    line feed, so that a text is written as it is. *)

Definition LF : ascii := "010"%char.
Definition CR : ascii := "013"%char.

(** [c.isspace()]. *)
Definition isspace (c : ascii) : bool :=
  let n := nat_of_ascii c in
  (Nat.leb 9 n && Nat.leb n 13) || (Nat.leb 28 n && Nat.leb n 32)
  || Nat.eqb n 133 || Nat.eqb n 160.

(** [s.lstrip()], [s.rstrip()], [s.strip()]. *)
Fixpoint lstrip (s : string) : string :=
  match s with
  | EmptyString => EmptyString
  | String c s' => if isspace c then lstrip s' else s
  end.

Fixpoint rstrip (s : string) : string :=
  match s with
  | EmptyString => EmptyString
  | String c s' =>
      match rstrip s' with
      | EmptyString => if isspace c then EmptyString else String c EmptyString
      | r => String c r
      end
  end.

Definition strip (s : string) : string := lstrip (rstrip s).

(** What a file opened for reading in text mode gives for its content:
    a carriage return, alone or followed by a line feed, is read as one
    line feed.  [pending] tells that the character before was a carriage
    return. *)
Fixpoint universal_newlines (pending : bool) (s : string) : string :=
  match s with
  | EmptyString => EmptyString
  | String c s' =>
      if Ascii.eqb c CR then String LF (universal_newlines true s')
      else if Ascii.eqb c LF then
        if pending then universal_newlines false s'
        else String LF (universal_newlines false s')
      else String c (universal_newlines false s')
  end.

(** [for line in f]: the lines, each with the line feed that ends it. *)
Fixpoint readlines (s : string) : list string :=
  match s with
  | EmptyString => []
  | String c s' =>
      if Ascii.eqb c LF then String LF EmptyString :: readlines s'
      else match readlines s' with
           | [] => [String c EmptyString]
           | line :: rest => String c line :: rest
           end
  end.

(** [[line.strip() for line in f if line.strip()]] *)
Definition stripped_lines (raw : string) : list string :=
  filter (fun f => negb (String.eqb f ""))
         (map strip (readlines (universal_newlines false raw))).

(** [FEEDS_FILE]. *)
Variable FEEDS_FILE : string.

(** *** [add_feed] (lines 390-396): the file after the call. *)
Definition add_feed (url : string) (file : option string) : M (option string) :=
  logging_info ("Added new feed: " ++ url) ;;;
  ret (Some (get_default file "" ++ url ++ String LF EmptyString)).

(** *** [delete_feed_from_file] (lines 398-409) *)
Definition delete_feed_from_file (url : string) (file : option string)
  : M (option string) :=
  match file with
  | None => ret None
  | Some raw =>
      let feeds := filter (fun f => negb (String.eqb f url)) (stripped_lines raw) in
      logging_info ("Deleted feed from file: " ++ url) ;;;
      ret (Some (String.concat ""
                   (map (fun feed => feed ++ String LF EmptyString) feeds)))
  end.

(** *** [read_feeds] (lines 411-427): the feeds, and the file after the
    call. *)
Definition read_feeds (file : option string) : M (list string * option string) :=
  file1 <- match file with
           | None =>
               logging_info ("Created empty feeds file at " ++ FEEDS_FILE) ;;;
               ret ""
           | Some raw => ret raw
           end ;;
  let feeds := stripped_lines file1 in
  logging_info ("Read " ++ str (Z.of_nat (List.length feeds)) ++ " feeds from "
                ++ FEEDS_FILE) ;;;
  ret (feeds, Some file1).

(** A feed URL as the file can hold it: not empty, no white space
    around it, no line break in it. *)
Definition no_break (s : string) : bool :=
  negb (existsb (fun c => Ascii.eqb c LF || Ascii.eqb c CR)
                (list_ascii_of_string s)).

Definition clean (s : string) : Prop :=
  s <> "" /\ lstrip s = s /\ rstrip s = s /\ no_break s = true.

(** The text is empty or ends with a line feed. *)
Fixpoint complete (s : string) : bool :=
  match s with
  | EmptyString => true
  | String c s' =>
      match s' with
      | EmptyString => Ascii.eqb c LF
      | _ => complete s'
      end
  end.

(** No carriage return in the text. *)
Definition no_cr (s : string) : bool :=
  negb (existsb (fun c => Ascii.eqb c CR) (list_ascii_of_string s)).

(** The file that holds the lines [feeds]. *)
Definition file_of (feeds : list string) : string :=
  String.concat "" (map (fun feed => feed ++ String LF EmptyString) feeds).


(* ---------------------------------------------------------------- *)
(** ** Tags typed in the interface *)

(** [s.split(',')]. *)
Fixpoint split_comma (s : string) : list string :=
  match s with
  | EmptyString => [EmptyString]
  | String c s' =>
      if Ascii.eqb c ","%char then EmptyString :: split_comma s'
      else match split_comma s' with
           | [] => [String c EmptyString]
           | part :: parts => String c part :: parts
           end
  end.

(** [[tag.strip() for tag in s.split(',') if tag.strip()]]
    (lines 822, 835 and 1257). *)
Definition typed_tags (input : string) : list string :=
  filter (fun t => negb (String.eqb t "")) (map strip (split_comma input)).

(** Python's text of a list of strings inside an f-string. *)
Variable repr : list string -> string.

(** *** [edit_tags_ui] (lines 806-848)

    [remove_input] and [add_input] are the two lines the user types, as
    decoded; the screen is taken to accept what is drawn on it. *)
Definition edit_tags_ui (remove_input add_input : string) (article_id : Z)
  : M unit :=
  let tags_to_remove := typed_tags remove_input in
  match tags_to_remove with
  | [] => ret tt
  | _ => remove_tags article_id tags_to_remove
  end ;;;
  let tags_to_add := typed_tags add_input in
  match tags_to_add with
  | [] => ret tt
  | _ => add_tags article_id tags_to_add
  end ;;;
  logging_info ("Tags updated for article ID " ++ str article_id ++ ": Added "
                ++ repr tags_to_add ++ ", Removed " ++ repr tags_to_remove).

(** No comma in the text. *)
Definition no_comma (s : string) : bool :=
  negb (existsb (fun c => Ascii.eqb c ","%char) (list_ascii_of_string s)).

(** A tag as the interface can take it. *)
Definition plain_tag (t : string) : Prop :=
  t <> "" /\ lstrip t = t /\ rstrip t = t /\ no_comma t = true.

(** Every association refers to a row of [tags]. *)
Definition tag_ids_known (db : database) : Prop :=
  forall x, In x (article_tags db) -> In (at_tag_id x) (map tag_id (tags db)).

(* ---------------------------------------------------------------- *)
(** ** Adding a feed in the interface *)

(** The letter o with a grave accent. *)
Definition o_grave : string := String (ascii_of_nat 242) EmptyString.

(** *** [add_feed_ui] (lines 1155-1192)

    [typed] is the line the user types, as decoded; the result is the
    feeds file after the call.  The screen is taken to accept what is
    drawn on it. *)
Definition add_feed_ui (typed : string) (file : option string)
  : M (option string) :=
  let feed_url := strip typed in
  r <- attempt
         (if String.eqb feed_url "" then
            raise ("L'URL del feed non pu" ++ o_grave ++ " essere vuoto.")
          else
            feed <- lift (feedparser_parse feed_url) ;;
            match feed_bozo feed with
            | Some e => raise ("Errore nel parsing del feed: " ++ e)
            | None =>
                let feed_title := get_default (feed_title feed) "Unnamed Feed" in
                source_id <- save_source feed_title feed_url ;;
                file' <- add_feed feed_url file ;;
                logging_info ("New feed added via UI: " ++ feed_title
                              ++ " (" ++ feed_url ++ ")") ;;;
                ret file'
            end) ;;
  match r with
  | Return file' => ret file'
  | Raise e => logging_error ("Error adding feed via UI: " ++ e) ;;; ret file
  end.

(** [feedparser] gives a feed for the URL, with [bozo] not set. *)
Definition parses (url : string) : Prop :=
  exists feed, feedparser_parse url = Return feed /\ feed_bozo feed = None.

(* ---------------------------------------------------------------- *)
(** ** The paged menus

    [select_source] (lines 511-569), [display_articles_by_source]
    (571-642), [delete_feed_ui] (984-1055), [rename_feed_ui] (1057-1117)
    and [search_ui] (1237-1315) show a list by pages and read a key; they
    differ in the number of items of a page and in what is done with the
    chosen item. *)

(** [l[start:stop]]. *)
Definition clamp (n i : Z) : Z :=
  if i <? 0 then Z.max (i + n) 0 else Z.min i n.

Definition slice {A : Type} (l : list A) (start stop : Z) : list A :=
  let n := Z.of_nat (List.length l) in
  firstn (Z.to_nat (clamp n stop - clamp n start))
         (skipn (Z.to_nat (clamp n start)) l).

(** [ord(s)]; [code c] is [ord] of the literal of one character. *)
Definition code (c : ascii) : Z := Z.of_nat (nat_of_ascii c).

Definition ord (s : string) : outcome Z :=
  match s with
  | String c EmptyString => Return (code c)
  | _ => Raise "ord() expected a character"
  end.

(** What a turn of the loop does with the key. *)
Inductive menu_action (A : Type) : Type :=
| Quit
| Turn (page : Z)
| Choose (item : A)
| Nothing
| Invalid.
#[global] Arguments Quit {A}.
#[global] Arguments Turn {A} page.
#[global] Arguments Choose {A} item.
#[global] Arguments Nothing {A}.
#[global] Arguments Invalid {A}.

Definition total_pages (per_page len : Z) : Z := (len + per_page - 1) / per_page.

Definition menu_key {A : Type} (per_page : Z) (items : list A) (page key : Z)
  : outcome (menu_action A) :=
  let start := page * per_page in
  let stop := start + per_page in
  let current := slice items start stop in
  if key =? code "q" then Return Quit
  else if (key =? code "n")
          && (page <? total_pages per_page (Z.of_nat (List.length items)) - 1)
  then Return (Turn (page + 1))
  else if (key =? code "p") && (page >? 0) then Return (Turn (page - 1))
  else if code "1" <=? key then
    match ord (str (Z.min 9 (Z.of_nat (List.length current)))) with
    | Raise e => Raise e
    | Return last =>
        if key <=? last then
          let selection := key - code "0" - 1 in
          if (0 <=? selection) && (selection <? Z.of_nat (List.length current))
          then match nth_error current (Z.to_nat selection) with
               | Some item => Return (Choose item)
               | None => Raise "list index out of range"
               end
          else Return Nothing
        else Return Invalid
    end
  else Return Invalid.

(** The page shows an item. *)
Definition on_page {A : Type} (per_page : Z) (items : list A) (page : Z) : Prop :=
  0 <= page /\ page * per_page < Z.of_nat (List.length items).

(* ---------------------------------------------------------------- *)
(** ** Lookups in a table *)

Lemma find_existsb {A : Type} (p : A -> bool) (l : list A) (a : A) :
  find p l = Some a -> existsb p l = true.
Proof.
  intros H. apply find_some in H. apply existsb_exists. exists a. exact H.
Qed.

Lemma find_none_existsb {A : Type} (p : A -> bool) (l : list A) :
  find p l = None -> existsb p l = false.
Proof.
  induction l as [|x l IH]; simpl; [reflexivity|].
  destruct (p x); [discriminate|]. exact IH.
Qed.

(** A map that keeps the searched property of every row commutes with
    [find]. *)
Lemma find_map_stable {A : Type} (p : A -> bool) (f : A -> A) (l : list A) :
  (forall x, p (f x) = p x) ->
  find p (map f l) = option_map f (find p l).
Proof.
  intros Hp. induction l as [|x l IH]; simpl; [reflexivity|].
  rewrite Hp. destruct (p x); [reflexivity|exact IH].
Qed.

Lemma find_app_new {A : Type} (p : A -> bool) (l : list A) (x : A) :
  find p l = None -> p x = true -> find p (l ++ [x]) = Some x.
Proof.
  induction l as [|y l IH]; simpl; intros Hl Hx.
  - rewrite Hx. reflexivity.
  - destruct (p y); [discriminate|]. apply IH; assumption.
Qed.

Lemma text_is_refl (s : string) : text_is (Some s) s = true.
Proof. simpl. apply String.eqb_refl. Qed.

(* ---------------------------------------------------------------- *)
(** ** [save_article] on the store *)

Lemma article_by_link_update (content stamp : string) (source_id : option Z)
    (link : string) (db : database) :
  article_by_link link (update_article content stamp source_id link db)
  = option_map
      (fun a => mkArticle (art_id a) (art_title a) (art_link a)
                          (art_published a) (Some content) (Some stamp) source_id)
      (article_by_link link db).
Proof.
  unfold article_by_link, update_article. simpl.
  induction (articles db) as [|x l IH]; simpl; [reflexivity|].
  destruct (text_is (art_link x) link) eqn:E; simpl; rewrite E.
  - reflexivity.
  - exact IH.
Qed.

(** The store after [save_article]: the UPDATE when the link is there
    and [scraped_now] holds, nothing when the link is there and
    [scraped_now] does not hold. *)
Lemma save_article_db_existing (title link published content : string)
    (source_id : option Z) (scraped_now : bool) (w : world) (a : article) :
  article_by_link link (w_db w) = Some a ->
  w_db (snd (save_article title link published content source_id scraped_now w))
  = if scraped_now
    then update_article content (isoformat (w_now w)) source_id link (w_db w)
    else w_db w.
Proof.
  intros Ha.
  pose proof (find_existsb _ _ _ Ha) as Hex.
  unfold save_article, save_article_body, select_article_id. unfold_M.
  unfold insert_article. simpl. rewrite Hex.
  destruct scraped_now; simpl.
  - rewrite article_by_link_update, Ha. reflexivity.
  - rewrite Ha. reflexivity.
Qed.

(** The store after [save_article] when the link is new: one more row,
    stamped with the current time. *)
Lemma save_article_db_new (title link published content : string)
    (source_id : option Z) (scraped_now : bool) (w : world) :
  article_by_link link (w_db w) = None ->
  w_db (snd (save_article title link published content source_id scraped_now w))
  = set_articles (w_db w)
      (articles (w_db w) ++
       [mkArticle (next_rowid art_id (seq_articles (w_db w)) (articles (w_db w)))
                  (Some title) (Some link) (Some published) (Some content)
                  (Some (isoformat (w_now w))) source_id])
      (next_rowid art_id (seq_articles (w_db w)) (articles (w_db w))).
Proof.
  intros Ha.
  pose proof (find_none_existsb _ _ Ha) as Hex.
  unfold save_article, save_article_body. unfold_M.
  unfold insert_article. simpl. rewrite Hex. reflexivity.
Qed.

Lemma save_article_keeps_clock (title link published content : string)
    (source_id : option Z) (scraped_now : bool) (w : world) :
  w_now (snd (save_article title link published content source_id scraped_now w))
  = w_now w.
Proof.
  unfold save_article, save_article_body, select_article_id. unfold_M.
  simpl. destruct (insert_article _ _ _ _ _ _ _) as [[db' id]|]; simpl;
    [reflexivity|].
  destruct scraped_now; simpl.
  - destruct (option_map _ _); reflexivity.
  - destruct (option_map _ _); reflexivity.
Qed.

(** The function hands no value back, whatever it did. *)
Lemma save_article_returns_None (title link published content : string)
    (source_id : option Z) (scraped_now : bool) (w : world) (v : option Z)
    (w' : world) :
  save_article title link published content source_id scraped_now w
  = (Return v, w') -> v = None.
Proof.
  unfold save_article. unfold_M.
  destruct (save_article_body _ _ _ _ _ _ _) as [[x|e] w1]; intros H;
    inversion H; reflexivity.
Qed.

(** The row of an existing link after the call. *)
Lemma save_article_row_existing (title link published content : string)
    (source_id : option Z) (scraped_now : bool) (w : world) (a : article) :
  article_by_link link (w_db w) = Some a ->
  article_by_link link
    (w_db (snd (save_article title link published content source_id scraped_now w)))
  = Some (if scraped_now then rescraped content (w_now w) source_id a else a).
Proof.
  intros Ha. rewrite (save_article_db_existing _ _ _ _ _ _ _ _ Ha).
  destruct scraped_now.
  - rewrite article_by_link_update, Ha. reflexivity.
  - exact Ha.
Qed.

Lemma rescraped_twice (content : string) (t1 t2 : datetime)
    (source_id : option Z) (scraped_now : bool) (a : article) :
  let a1 := if scraped_now then rescraped content t1 source_id a else a in
  same_but_scraped_at a1
    (if scraped_now then rescraped content t2 source_id a1 else a1).
Proof.
  destruct scraped_now; unfold same_but_scraped_at, rescraped; simpl;
    repeat split; reflexivity.
Qed.

(** C2 (as amended).  When a row with the link exists: with
    [scraped_now] the row gets the arriving content and source_id and
    the current time as [scraped_at], and keeps its title and published;
    without [scraped_now] the store is left as it is.  A second call
    with the same arguments then changes no column of the row except
    [scraped_at]. *)
Theorem save_article_existing_link (title link published content : string)
    (source_id : option Z) (scraped_now : bool) (w : world) (a : article) :
  article_by_link link (w_db w) = Some a ->
  let call := save_article title link published content source_id scraped_now in
  let a1 := if scraped_now then rescraped content (w_now w) source_id a else a in
  article_by_link link (w_db (snd (call w))) = Some a1
  /\ (scraped_now = false -> w_db (snd (call w)) = w_db w)
  /\ forall t2 : datetime,
       exists a2,
         article_by_link link (w_db (snd (call (at_time t2 (snd (call w)))))) = Some a2
         /\ same_but_scraped_at a1 a2.
Proof.
  intros Ha call a1.
  pose proof (save_article_row_existing title link published content
                source_id scraped_now w a Ha) as H1.
  fold call in H1. fold a1 in H1.
  split; [exact H1|]. split.
  - intros ->. unfold call. rewrite (save_article_db_existing _ _ _ _ _ _ _ _ Ha).
    reflexivity.
  - intros t2.
    assert (H2 : article_by_link link (w_db (at_time t2 (snd (call w)))) = Some a1)
      by exact H1.
    eexists. split.
    + unfold call at 1. apply (save_article_row_existing _ _ _ _ _ _ _ _ H2).
    + apply rescraped_twice.
Qed.

(** The same for any first call, also one that inserts the row. *)
Lemma save_article_twice (title link published content : string)
    (source_id : option Z) (scraped_now : bool) (w : world) (t2 : datetime) :
  let call := save_article title link published content source_id scraped_now in
  exists a1 a2,
    article_by_link link (w_db (snd (call w))) = Some a1
    /\ article_by_link link (w_db (snd (call (at_time t2 (snd (call w)))))) = Some a2
    /\ same_but_scraped_at a1 a2.
Proof.
  intros call.
  assert (H : exists a1,
             article_by_link link (w_db (snd (call w))) = Some a1
             /\ (scraped_now = true ->
                 art_content a1 = Some content /\ art_source_id a1 = source_id)).
  { destruct (article_by_link link (w_db w)) as [a|] eqn:Ha.
    - eexists. split.
      + apply (save_article_row_existing _ _ _ _ _ _ _ _ Ha).
      + intros ->. split; reflexivity.
    - eexists. split.
      + unfold call. rewrite (save_article_db_new _ _ _ _ _ _ _ Ha).
        unfold article_by_link. simpl. apply find_app_new; [exact Ha|].
        apply text_is_refl.
      + intros _. split; reflexivity. }
  destruct H as (a1 & H1 & Hc).
  assert (H2 : article_by_link link (w_db (at_time t2 (snd (call w)))) = Some a1)
    by exact H1.
  exists a1. eexists. split; [exact H1|]. split.
  - unfold call at 1. apply (save_article_row_existing _ _ _ _ _ _ _ _ H2).
  - destruct scraped_now; unfold same_but_scraped_at, rescraped; simpl.
    + destruct (Hc eq_refl) as [-> ->]. repeat split; reflexivity.
    + repeat split; reflexivity.
Qed.

(* ---------------------------------------------------------------- *)
(** ** Loops *)

Lemma for_each_invariant {A : Type} (P : world -> Prop) (body : A -> M unit)
    (l : list A) :
  (forall x w, In x l -> P w -> P (snd (body x w))) ->
  forall w, P w -> P (snd (for_each l body w)).
Proof.
  induction l as [|x l IH]; intros Hbody w Hw; simpl; [exact Hw|].
  unfold bind. pose proof (Hbody x w (or_introl eq_refl) Hw) as Hx.
  destruct (body x w) as [[u|e] w1]; simpl in *.
  - apply IH; [|exact Hx]. intros y w2 Hy. apply Hbody. right. exact Hy.
  - exact Hx.
Qed.

(* ---------------------------------------------------------------- *)
(** ** The archival run, step by step *)

(** What a step may do to the world: the store and the clock stay, the
    archive tree gains events, and every file written holds a list of
    records that satisfies [ok]. *)
Definition writes_only (ok : list archive_record -> Prop) (w w' : world) : Prop :=
  w_db w' = w_db w /\ w_now w' = w_now w /\ w_net w' = w_net w
  /\ exists evs, w_fs w' = (w_fs w ++ evs)%list
                 /\ forall path recs, In (Written path recs) evs -> ok recs.

Lemma writes_only_refl (ok : list archive_record -> Prop) (w : world) :
  writes_only ok w w.
Proof.
  repeat split. exists []. split; [symmetry; apply app_nil_r|].
  intros path recs [].
Qed.

Lemma writes_only_trans (ok : list archive_record -> Prop) (w1 w2 w3 : world) :
  writes_only ok w1 w2 -> writes_only ok w2 w3 -> writes_only ok w1 w3.
Proof.
  intros (Hd & Hn & Hnet & evs & Hf & Hok) (Hd' & Hn' & Hnet' & evs' & Hf' & Hok').
  repeat split; try congruence.
  exists (evs ++ evs')%list. split.
  - rewrite Hf', Hf. symmetry. apply app_assoc.
  - intros path recs Hin. apply in_app_or in Hin. destruct Hin; eauto.
Qed.

Lemma dict_append_records (d : dict) (key : string) (a r : archive_record) :
  In r (flat_map snd (dict_append d key a)) ->
  In r (flat_map snd d) \/ r = a.
Proof.
  induction d as [|[k rs] d IH]; simpl.
  - intros [H|[]]. right. symmetry. exact H.
  - destruct (String.eqb k key); simpl; intros H;
      apply in_app_or in H; destruct H as [H|H].
    + apply in_app_or in H. destruct H as [H|[H|[]]].
      * left. apply in_or_app. left. exact H.
      * right. symmetry. exact H.
    + left. apply in_or_app. right. exact H.
    + left. apply in_or_app. left. exact H.
    + destruct (IH H) as [H'|H'].
      * left. apply in_or_app. right. exact H'.
      * right. exact H'.
Qed.

(** The grouping loop returns, touches only the log, and puts into the
    dict only rows it was given. *)
Lemma group_articles_spec (old_articles : list archive_record) :
  forall (d : dict) (w : world),
  exists d' w',
    group_articles old_articles d w = (Return d', w')
    /\ w_db w' = w_db w /\ w_now w' = w_now w /\ w_net w' = w_net w
    /\ w_fs w' = w_fs w
    /\ forall r, In r (flat_map snd d') ->
                 In r (flat_map snd d) \/ In r old_articles.
Proof.
  induction old_articles as [|a rest IH]; intros d w; simpl.
  - exists d, w. unfold ret. repeat split; auto.
  - unfold bind, group_article.
    destruct (match rec_published a with
              | Some published => dateutil_parse published
              | None => _
              end) as [dt|e]; unfold_M; simpl.
    + destruct (IH (dict_append d (archive_key dt) a) w)
        as (d' & w' & Hrun & Hd & Hn & Hnet & Hf & Hin).
      exists d', w'. rewrite Hrun. repeat split; auto.
      intros r Hr. destruct (Hin r Hr) as [H|H]; [|right; right; exact H].
      apply dict_append_records in H. destruct H as [H|H]; [left; exact H|].
      right. left. symmetry. exact H.
    + match goal with
      | |- context [group_articles rest d ?w1] =>
          destruct (IH d w1) as (d' & w' & Hrun & Hd & Hn & Hnet & Hf & Hin)
      end.
      exists d', w'. rewrite Hrun. simpl in *. repeat split; auto.
      intros r Hr. destruct (Hin r Hr) as [H|H]; [left|right; right]; exact H.
Qed.

Lemma write_group_spec (key : string) (group : list archive_record) (w : world) :
  writes_only (fun recs => recs = group) w (snd (write_group (key, group) w)).
Proof.
  unfold write_group.
  destruct (split_slash key) as [|y [|m [|x l]]];
    try (unfold raise; simpl; apply writes_only_refl).
  destruct (makedirs_error _) as [e|];
    [unfold raise; simpl; apply writes_only_refl|].
  unfold_M. simpl.
  destruct (gzip_error _) as [e|]; simpl; repeat split;
    eexists; (split; [rewrite <- app_assoc; reflexivity|]);
    simpl; intros path recs [H|[H|[]]]; try discriminate.
  inversion H. reflexivity.
Qed.

Lemma writes_only_weaken (ok ok' : list archive_record -> Prop) (w w' : world) :
  (forall recs, ok recs -> ok' recs) ->
  writes_only ok w w' -> writes_only ok' w w'.
Proof.
  intros Himp (Hd & Hn & Hnet & evs & Hf & Hok).
  repeat split; auto. exists evs. split; [exact Hf|].
  intros path recs Hin. apply Himp. eapply Hok. exact Hin.
Qed.

Lemma write_groups_spec (d : dict) (w : world) :
  writes_only (fun recs => exists key, In (key, recs) d) w
              (snd (for_each d write_group w)).
Proof.
  apply (for_each_invariant
           (fun w' => writes_only (fun recs => exists key, In (key, recs) d) w w')).
  - intros [key group] w1 Hin H1. eapply writes_only_trans; [exact H1|].
    eapply writes_only_weaken; [|apply write_group_spec].
    intros recs ->. exists key. exact Hin.
  - apply writes_only_refl.
Qed.

(** The whole run: either the store is left as it is, or exactly the
    selected rows are deleted; the files written hold selected rows
    only. *)
Lemma archive_old_articles_spec (threshold_days : Z) (w : world) :
  let old_articles :=
    select_old_articles (isoformat (w_now w - timedelta_days threshold_days))
                        (w_db w) in
  let w' := snd (archive_old_articles threshold_days w) in
  (w_db w' = w_db w
   \/ w_db w' = delete_articles (map rec_id old_articles) (w_db w))
  /\ w_net w' = w_net w
  /\ exists evs,
       w_fs w' = (w_fs w ++ evs)%list
       /\ forall path recs r,
            In (Written path recs) evs -> In r recs -> In r old_articles.
Proof.
  intros old_articles w'. unfold w', archive_old_articles.
  unfold_M. cbv beta iota. fold old_articles.
  clearbody old_articles. destruct old_articles as [|a rest].
  - simpl. split; [left; reflexivity|]. split; [reflexivity|].
    exists []. split; [symmetry; apply app_nil_r|]. intros ? ? ? [].
  - set (old := a :: rest).
    destruct (group_articles_spec old [] w)
      as (d & w1 & Hrun & Hd & Hn & Hnet & Hf & Hin).
    rewrite Hrun.
    pose proof (write_groups_spec d w1) as (Hd2 & Hn2 & Hnet2 & evs & Hf2 & Hok).
    assert (Hrecs : forall path recs r,
               In (Written path recs) evs -> In r recs -> In r old).
    { intros path recs r Hw Hr. destruct (Hok path recs Hw) as [key Hkey].
      destruct (Hin r) as [[]|H]; [|exact H].
      apply in_flat_map. exists (key, recs). split; assumption. }
    destruct (for_each d write_group w1) as [[u|e] w2]; simpl in *.
    + split; [right; congruence|]. split; [congruence|].
      exists evs. split; [congruence|exact Hrecs].
    + split; [left; congruence|]. split; [congruence|].
      exists evs. split; [congruence|exact Hrecs].
Qed.

(** When the run returns with a selection that is not empty, every
    selected row has been deleted, whatever became of the files: the
    DELETE does not look at the outcome of the writes. *)
Lemma archive_deletes_all_selected (threshold_days : Z) (w : world) :
  let old_articles :=
    select_old_articles (isoformat (w_now w - timedelta_days threshold_days))
                        (w_db w) in
  old_articles <> [] ->
  fst (archive_old_articles threshold_days w) = Return tt ->
  w_db (snd (archive_old_articles threshold_days w))
  = delete_articles (map rec_id old_articles) (w_db w).
Proof.
  intros old_articles. unfold archive_old_articles.
  unfold_M. cbv beta iota. fold old_articles.
  clearbody old_articles. destruct old_articles as [|a rest];
    [intros H; contradiction|intros _].
  set (old := a :: rest).
  destruct (group_articles_spec old [] w)
    as (d & w1 & Hrun & Hd & _).
  rewrite Hrun.
  pose proof (write_groups_spec d w1) as (Hd2 & _).
  destruct (for_each d write_group w1) as [[u|e] w2]; simpl in *.
  - intros _. congruence.
  - discriminate.
Qed.

(** C10.  When the candidate query selects no row, the run only logs
    one line: the store, the archive tree and the network trace are
    what they were, and the call returns. *)
Theorem archive_without_candidates (threshold_days : Z) (w : world) :
  select_old_articles (isoformat (w_now w - timedelta_days threshold_days))
                      (w_db w) = [] ->
  archive_old_articles threshold_days w
  = (Return tt,
     mkWorld (w_db w)
             (w_log w ++ [(INFO, "Nessun articolo da archiviare.")])
             (w_net w) (w_fs w) (w_now w)).
Proof.
  intros Hnone. unfold archive_old_articles. unfold_M. cbv beta iota.
  rewrite Hnone. reflexivity.
Qed.

(* ---------------------------------------------------------------- *)
(** ** Rows that the candidate query cannot date *)

Lemma NoDup_map_eq {A B : Type} (f : A -> B) (l : list A) (x y : A) :
  NoDup (map f l) -> In x l -> In y l -> f x = f y -> x = y.
Proof.
  induction l as [|z l IH]; simpl; intros Hnd Hx Hy Hf; [contradiction|].
  inversion Hnd as [|? ? Hnotin Hnd']; subst.
  destruct Hx as [->|Hx], Hy as [->|Hy].
  - reflexivity.
  - exfalso. apply Hnotin. rewrite Hf. apply in_map. exact Hy.
  - exfalso. apply Hnotin. rewrite <- Hf. apply in_map. exact Hx.
  - apply IH; assumption.
Qed.

Lemma is_old_published (cutoff_iso : string) (a b : article) :
  art_published a = art_published b ->
  is_old cutoff_iso a = is_old cutoff_iso b.
Proof. unfold is_old. intros ->. reflexivity. Qed.

(** A selected record comes from a row that passes the WHERE clause. *)
Lemma select_old_articles_in (cutoff_iso : string) (db : database)
    (r : archive_record) :
  In r (select_old_articles cutoff_iso db) ->
  exists b, In b (articles db) /\ is_old cutoff_iso b = true /\ record_of b = r.
Proof.
  unfold select_old_articles. intros H. apply in_map_iff in H.
  destruct H as (b & Hb & Hin). apply filter_In in Hin.
  destruct Hin as [Hin Hold]. exists b. repeat split; assumption.
Qed.

Lemma delete_articles_keeps (ids : list Z) (db : database) (a : article) :
  In a (articles db) -> ~ In (art_id a) ids ->
  In a (articles (delete_articles ids db)).
Proof.
  intros Hin Hnot. unfold delete_articles. simpl. apply filter_In.
  split; [exact Hin|]. apply negb_true_iff.
  destruct (existsb (Z.eqb (art_id a)) ids) eqn:E; [|reflexivity].
  exfalso. apply Hnot. apply existsb_exists in E. destruct E as (i & Hi & Heq).
  apply Z.eqb_eq in Heq. rewrite Heq. exact Hi.
Qed.

(** The part of C4 that holds.  A row whose [published] SQLite's
    [datetime()] cannot read is selected for no cutoff; whatever the
    threshold and the clock, the run writes it to no file and leaves it
    in the store. *)
Theorem undated_article_never_archived (threshold_days : Z) (w : world)
    (a : article) (p : string) :
  article_ids_unique (w_db w) ->
  In a (articles (w_db w)) ->
  art_published a = Some p ->
  sqlite_datetime p = None ->
  let w' := snd (archive_old_articles threshold_days w) in
  (forall cutoff_iso, ~ In (record_of a) (select_old_articles cutoff_iso (w_db w)))
  /\ In a (articles (w_db w'))
  /\ exists evs,
       w_fs w' = (w_fs w ++ evs)%list
       /\ forall path recs, In (Written path recs) evs -> ~ In (record_of a) recs.
Proof.
  intros Hkey Hin Hp Hnull w'.
  assert (Hnot_old : forall cutoff_iso, is_old cutoff_iso a = false).
  { intros c. unfold is_old. rewrite Hp, Hnull. reflexivity. }
  assert (Hsel : forall cutoff_iso r,
             In r (select_old_articles cutoff_iso (w_db w)) ->
             rec_published r <> Some p).
  { intros c r Hr Hpub. apply select_old_articles_in in Hr.
    destruct Hr as (b & _ & Hold & <-). simpl in Hpub.
    rewrite (is_old_published c b a) in Hold by congruence.
    rewrite Hnot_old in Hold. discriminate. }
  assert (Hrec : rec_published (record_of a) = Some p) by exact Hp.
  destruct (archive_old_articles_spec threshold_days w)
    as (Hdb & _ & evs & Hfs & Hwritten).
  fold w' in Hdb, Hfs. split; [|split].
  - intros c H. exact (Hsel c _ H Hrec).
  - destruct Hdb as [-> | ->]; [exact Hin|].
    apply delete_articles_keeps; [exact Hin|].
    intros Hid. apply in_map_iff in Hid. destruct Hid as (r & Hr & Hrin).
    apply select_old_articles_in in Hrin. destruct Hrin as (b & Hb & Hold & <-).
    simpl in Hr.
    assert (b = a) by (eapply NoDup_map_eq; eauto). subst b.
    rewrite Hnot_old in Hold. discriminate.
  - exists evs. split; [exact Hfs|].
    intros path recs Hw Hr. exact (Hsel _ _ (Hwritten path recs _ Hw Hr) Hrec).
Qed.

(* ---------------------------------------------------------------- *)
(** ** Properties of rows that every operation keeps *)

Lemma every_article_same (P : article -> Prop) (db db' : database) :
  articles db' = articles db -> every_article P db -> every_article P db'.
Proof. unfold every_article. intros ->. auto. Qed.

Lemma every_article_update (P : article -> Prop) (db : database)
    (content link : string) (now : datetime) (source_id : option Z) :
  holds_of_written P ->
  every_article P db ->
  every_article P (update_article content (isoformat now) source_id link db).
Proof.
  intros HP Hinv a Ha. unfold update_article in Ha. simpl in Ha.
  apply in_map_iff in Ha. destruct Ha as (b & Hb & Hin).
  destruct (text_is (art_link b) link); subst a.
  - apply HP.
  - apply Hinv. exact Hin.
Qed.

Lemma every_article_delete (P : article -> Prop) (db : database) (ids : list Z) :
  every_article P db -> every_article P (delete_articles ids db).
Proof.
  intros Hinv a Ha. unfold delete_articles in Ha. simpl in Ha.
  apply filter_In in Ha. destruct Ha as [Ha _]. apply Hinv. exact Ha.
Qed.

Lemma every_article_save_article (P : article -> Prop)
    (title link published content : string)
    (source_id : option Z) (scraped_now : bool) (w : world) :
  holds_of_written P ->
  every_article P (w_db w) ->
  every_article P
    (w_db (snd (save_article title link published content source_id scraped_now w))).
Proof.
  intros HP Hinv. destruct (article_by_link link (w_db w)) as [a|] eqn:Ha.
  - rewrite (save_article_db_existing _ _ _ _ _ _ _ _ Ha).
    destruct scraped_now; [apply every_article_update; assumption|exact Hinv].
  - rewrite (save_article_db_new _ _ _ _ _ _ _ Ha).
    intros b Hb. simpl in Hb. apply in_app_or in Hb.
    destruct Hb as [Hb|[<-|[]]]; [apply Hinv; exact Hb|apply HP].
Qed.

Lemma save_source_articles (name url : string) (w : world) :
  articles (w_db (snd (save_source name url w))) = articles (w_db w).
Proof.
  unfold save_source, insert_source, select_source_id. unfold_M. simpl.
  destruct (existsb _ _); simpl; [|reflexivity].
  destruct (option_map _ _); reflexivity.
Qed.

Lemma add_tag_articles (article_id : Z) (t : string) (w : world) :
  articles (w_db (snd (add_tag article_id t w))) = articles (w_db w).
Proof.
  unfold add_tag, insert_or_ignore_tag, select_tag_id, insert_article_tag.
  unfold_M. simpl.
  destruct (existsb (fun x => text_is (tag_tag x) t) (tags (w_db w))); simpl;
    destruct (option_map tag_id _); simpl; try reflexivity;
    destruct (existsb _ _); reflexivity.
Qed.

Lemma remove_tag_articles (article_id : Z) (t : string) (w : world) :
  articles (w_db (snd (remove_tag article_id t w))) = articles (w_db w).
Proof.
  unfold remove_tag, select_tag_id. unfold_M. simpl.
  destruct (option_map tag_id _); reflexivity.
Qed.

(** A property of rows that holds of the rows [save_article] writes is
    kept by every operation. *)
Lemma every_article_preserved (P : article -> Prop) (op : store_op) (w : world) :
  holds_of_written P ->
  every_article P (w_db w) ->
  every_article P (w_db (run_op op w)).
Proof.
  intros HP Hinv. destruct op; simpl.
  - exact Hinv.
  - eapply every_article_same; [apply save_source_articles|exact Hinv].
  - exact Hinv.
  - exact Hinv.
  - apply every_article_save_article; assumption.
  - destruct (archive_old_articles_spec threshold_days w) as ([H|H] & _).
    + rewrite H. exact Hinv.
    + rewrite H. apply every_article_delete. exact Hinv.
  - apply (for_each_invariant (fun w' => every_article P (w_db w'))); [|exact Hinv].
    intros t w1 _ H1. eapply every_article_same; [apply add_tag_articles|exact H1].
  - apply (for_each_invariant (fun w' => every_article P (w_db w'))); [|exact Hinv].
    intros t w1 _ H1. eapply every_article_same; [apply remove_tag_articles|exact H1].
Qed.

Lemma stamped_of_written : holds_of_written stamped.
Proof. intros id title link published content now source_id _. discriminate. Qed.

(** C9.  Every operation that writes the store keeps this true: a row
    whose content is not empty has a [scraped_at] that is not NULL. *)
Theorem content_is_stamped_preserved (op : store_op) (w : world) :
  content_is_stamped (w_db w) ->
  content_is_stamped (w_db (run_op op w)).
Proof.
  unfold content_is_stamped. apply every_article_preserved.
  exact stamped_of_written.
Qed.

(** The store of a fresh installation satisfies it. *)
Lemma content_is_stamped_empty : content_is_stamped empty_db.
Proof. intros a []. Qed.

(** The timestamps of a store that only the program wrote are
    [isoformat] texts; when dateutil reads those, it reads the timestamp
    of every row. *)
Lemma stamps_are_iso_preserved (op : store_op) (w : world) :
  every_article stamp_is_iso (w_db w) ->
  every_article stamp_is_iso (w_db (run_op op w)).
Proof.
  apply every_article_preserved.
  intros id title link published content now source_id s Hs.
  simpl in Hs. inversion Hs. exists now. reflexivity.
Qed.

Lemma stamps_are_iso_readable (w : world) (link : string) :
  (forall t, exists t', dateutil_parse (isoformat t) = Return t') ->
  every_article stamp_is_iso (w_db w) ->
  stamp_readable w link.
Proof.
  intros Hiso Hinv a s Ha Hs _.
  apply find_some in Ha. destruct Ha as [Ha _].
  destruct (Hinv a Ha s Hs) as [t ->]. apply Hiso.
Qed.

(* ---------------------------------------------------------------- *)
(** ** The content resolver *)

Lemma needs_scraping_world (row : option (option string * option string))
    (w : world) :
  snd (needs_scraping row w) = w.
Proof.
  unfold needs_scraping. destruct row as [[c s]|]; [|reflexivity].
  destruct (truthy c && _); [|reflexivity].
  destruct s as [s|]; [|reflexivity].
  destruct (truthy (Some s)); [|reflexivity].
  unfold_M. destruct (dateutil_parse s) as [t|err]; simpl; [|reflexivity].
  destruct (_ <? _); reflexivity.
Qed.

Lemma fetch_full_article_requests (link : string) (w : world) :
  w_net (snd (fetch_full_article link w)) = (w_net w ++ [link])%list.
Proof.
  unfold fetch_full_article. unfold_M. simpl.
  destruct (requests_get link) as [[[ps|] qs|err]|err]; reflexivity.
Qed.

(** The flag is lowered only for a row that has content: the stored
    content that resolution then takes is there. *)
Lemma needs_scraping_false_has_content
    (row : option (option string * option string)) (w w' : world) :
  needs_scraping row w = (Return false, w') ->
  exists content stamp, row = Some (Some content, stamp).
Proof.
  unfold needs_scraping. destruct row as [[[c|] s]|]; simpl;
    try (unfold ret; discriminate).
  intros _. exists c, s. reflexivity.
Qed.

(** C6.  When the page of the entry's link is asked for and the
    extraction gives the empty string, the content is the text made of
    the first element of the entry's [content] when the entry has a
    [content] that is not empty, and otherwise of its summary ([''] when
    there is none); and [scraped_now] is false. *)
Theorem fallback_to_feed_text (link : string) (e : entry) (w : world) :
  fst (needs_scraping (select_content_scraped_at link (w_db w)) w)
  = Return true ->
  fst (fetch_full_article link w) = Return "" ->
  fst (resolve_content link e w)
  = Return (match e_content e with
            | Some (value :: _) => handle value
            | _ => handle (match e_summary e with
                           | Some summary => summary
                           | None => ""
                           end)
            end, false).
Proof.
  intros Hneeds Hfetch. unfold resolve_content.
  unfold bind at 1. unfold query at 1.
  unfold bind at 1.
  pose proof (needs_scraping_world
                (select_content_scraped_at link (w_db w)) w) as Hw.
  destruct (needs_scraping _ w) as [r w1]. simpl in Hneeds, Hw. subst r w1.
  unfold bind at 1.
  destruct (fetch_full_article link w) as [r w2]. simpl in Hfetch. subst r.
  simpl. unfold ret, feed_text, get_default.
  destruct (e_content e) as [[|v l]|]; reflexivity.
Qed.

(** The decision of lines 279-287, for a row whose timestamp dateutil
    reads: the flag is lowered exactly when the cache is fresh. *)
Lemma needs_scraping_decides (w : world) (link : string) :
  stamp_readable w link ->
  let row := select_content_scraped_at link (w_db w) in
  (exists c stamp, cache_is_fresh w link c
                   /\ row = Some (Some c, stamp)
                   /\ needs_scraping row w = (Return false, w))
  \/ ((forall c, ~ cache_is_fresh w link c)
      /\ needs_scraping row w = (Return true, w)).
Proof.
  intros Hread row. unfold row, select_content_scraped_at.
  destruct (article_by_link link (w_db w)) as [a|] eqn:Ha; simpl.
  2:{ right. split; [|reflexivity].
      intros c (a & s & t & H & _). congruence. }
  destruct (art_content a) as [c|] eqn:Hc; simpl.
  2:{ right. split; [|reflexivity].
      intros c (a' & s & t & H & Hc' & _). congruence. }
  destruct (String.eqb_spec c "") as [Hempty|Hempty]; simpl.
  { right. split; [|reflexivity].
    intros c' (a' & s & t & H & Hc' & Hne & _). congruence. }
  destruct (Z.leb_spec 200 (Z.of_nat (String.length c))) as [Hlen|Hlen]; simpl.
  2:{ right. split; [|reflexivity].
      intros c' (a' & s & t & H & Hc' & _ & Hl & _).
      assert (c' = c) by congruence. subst c'. lia. }
  destruct (art_scraped_at a) as [s|] eqn:Hs; simpl.
  2:{ right. split; [|reflexivity].
      intros c' (a' & s & t & H & _ & _ & _ & Hs' & _). congruence. }
  destruct (String.eqb_spec s "") as [Hs0|Hs0]; simpl.
  { right. split; [|reflexivity].
    intros c' (a' & s' & t & H & _ & _ & _ & Hs' & Hne & _). congruence. }
  destruct (Hread a s Ha Hs Hs0) as [t Ht].
  unfold_M. rewrite Ht. simpl.
  destruct (Z.ltb_spec (w_now w - t) (timedelta_hours CACHE_DURATION_HOURS))
    as [Hlt|Hge].
  - left. exists c, (Some s). split; [|split; reflexivity].
    exists a, s, t. repeat split; assumption.
  - right. split; [|reflexivity].
    intros c' (a' & s' & t' & H & _ & _ & _ & Hs' & _ & Ht' & Hlt).
    assert (a' = a) by congruence. subst a'.
    assert (s' = s) by congruence. subst s'.
    assert (t' = t) by congruence. subst t'. lia.
Qed.

Lemma app_one_neq {A : Type} (l : list A) (x : A) : (l ++ [x])%list <> l.
Proof.
  intros H. apply (f_equal (@List.length A)) in H.
  rewrite length_app in H. simpl in H. lia.
Qed.

(** C5.  For an entry with the link [link] and a row whose timestamp
    dateutil reads, the stored content is reused, with no request to the
    network, if and only if the cache is fresh: a row with the link
    exists, its content is not empty and
    has at least 200 characters, and the current time minus its
    [scraped_at] is less than 24 hours.  In every other case the page is
    requested. *)
Theorem cache_reused_iff_fresh (link : string) (e : entry) (w : world) :
  stamp_readable w link ->
  (reuses_cache link e w <-> exists c, cache_is_fresh w link c)
  /\ (~ (exists c, cache_is_fresh w link c) -> attempts_extraction link e w).
Proof.
  intros Hread.
  assert (Hcases :
    (exists c, cache_is_fresh w link c /\ reuses_cache link e w)
    \/ ((forall c, ~ cache_is_fresh w link c) /\ attempts_extraction link e w)).
  { destruct (needs_scraping_decides w link Hread)
      as [(c & stamp & Hfresh & Hrow & Hneeds)|(Hstale & Hneeds)].
    - left. exists c. split; [exact Hfresh|].
      destruct Hfresh as (a & s & t & Ha & Hc & _).
      exists a, c. split; [exact Ha|]. split; [exact Hc|].
      unfold resolve_content. unfold bind at 1. unfold query at 1.
      unfold bind at 1. rewrite Hneeds. rewrite Hrow. reflexivity.
    - right. split; [exact Hstale|].
      unfold attempts_extraction, resolve_content.
      unfold bind at 1. unfold query at 1. unfold bind at 1. rewrite Hneeds.
      unfold bind at 1.
      pose proof (fetch_full_article_requests link w) as Hnet.
      destruct (fetch_full_article link w) as [[full|err] w1]; simpl in *.
      + destruct (negb _); exact Hnet.
      + exact Hnet. }
  split; [split|].
  - intros (a & c & Ha & Hc & Hrun).
    destruct Hcases as [(c' & Hfresh & _)|(_ & Hnet)]; [exists c'; exact Hfresh|].
    unfold attempts_extraction in Hnet. rewrite Hrun in Hnet. simpl in Hnet.
    exfalso. exact (app_one_neq _ _ (eq_sym Hnet)).
  - intros (c & Hfresh).
    destruct Hcases as [(c' & _ & Hreuse)|(Hstale & _)]; [exact Hreuse|].
    exfalso. exact (Hstale c Hfresh).
  - intros Hnot.
    destruct Hcases as [(c & Hfresh & _)|(_ & Hnet)]; [|exact Hnet].
    exfalso. apply Hnot. exists c. exact Hfresh.
Qed.

(* ---------------------------------------------------------------- *)
(** ** The feed fetcher *)

Lemma logged_nil (w : world) : logged w [] = w.
Proof. unfold logged. rewrite app_nil_r. destruct w; reflexivity. Qed.

Lemma logged_logged (w : world) (l1 l2 : list (level * string)) :
  logged (logged w l1) l2 = logged w (l1 ++ l2).
Proof. unfold logged. simpl. rewrite app_assoc. reflexivity. Qed.

Lemma show_progress_draws (progress_win : option window) (current total : Z)
    (message : string) (w : world) :
  draws progress_win ->
  show_progress progress_win current total message w = (Return tt, w).
Proof.
  destruct progress_win as [win|]; simpl; intros H; [|reflexivity].
  unfold update_progress_bar. rewrite H. reflexivity.
Qed.

Lemma fetch_one_draws (progress_win : option window) (idx total : Z)
    (url : string) (feeds : list feed_doc) (w : world) :
  draws progress_win ->
  fetch_one progress_win idx total url feeds w
  = (Return (feeds ++ parsed_ok url)%list, logged w [fetch_record url]).
Proof.
  intros Hdraw. unfold fetch_one, fetch_failed, parsed_ok, fetch_record.
  destruct (feedparser_parse url) as [feed|err].
  - destruct (feed_bozo feed) as [err|].
    + unfold_M. simpl. rewrite show_progress_draws by exact Hdraw.
      rewrite app_nil_r. reflexivity.
    + unfold_M. simpl. rewrite show_progress_draws by exact Hdraw.
      reflexivity.
  - unfold_M. simpl. rewrite show_progress_draws by exact Hdraw.
    rewrite app_nil_r. reflexivity.
Qed.

Lemma fetch_loop_draws (progress_win : option window) (total : Z)
    (urls : list string) :
  draws progress_win ->
  forall (idx : Z) (feeds : list feed_doc) (w : world),
    fetch_loop progress_win total idx urls feeds w
    = (Return (feeds ++ flat_map parsed_ok urls)%list,
       logged w (map fetch_record urls)).
Proof.
  intros Hdraw. induction urls as [|url urls IH]; intros idx feeds w; simpl.
  - unfold ret. rewrite app_nil_r, logged_nil. reflexivity.
  - unfold bind. rewrite fetch_one_draws by exact Hdraw.
    rewrite IH, logged_logged, <- app_assoc. reflexivity.
Qed.

(** C7 (as amended).  Without a progress window, or with one that
    draws, the call returns for every list of URLs; its result holds
    the parsed documents of the URLs that could be fetched, in the order
    of the list, and nothing for the others; every URL is tried, and
    each leaves one record in the log: an error record with the URL and
    the exception when it failed.  Nothing else changes. *)
Theorem fetch_feeds_collects (feed_urls : list string)
    (progress_win : option window) (w : world) :
  draws progress_win ->
  fetch_feeds feed_urls progress_win w
  = (Return (flat_map parsed_ok feed_urls),
     mkWorld (w_db w) (w_log w ++ map fetch_record feed_urls)
             (w_net w) (w_fs w) (w_now w)).
Proof.
  intros Hdraw. unfold fetch_feeds.
  rewrite (fetch_loop_draws _ _ _ Hdraw). reflexivity.
Qed.

(* ---------------------------------------------------------------- *)
(** ** The tag search *)

Lemma text_is_true (col : option string) (s : string) :
  text_is col s = true <-> col = Some s.
Proof.
  destruct col as [c|]; simpl.
  - rewrite String.eqb_eq. split; congruence.
  - split; discriminate.
Qed.

Lemma in_select_tag_ids (search_tags : list string) (db : database) (i : Z) :
  In i (select_tag_ids search_tags db) <->
  exists x t, In x (tags db) /\ tag_id x = i
              /\ In t search_tags /\ tag_tag x = Some t.
Proof.
  unfold select_tag_ids. rewrite in_map_iff. split.
  - intros (x & Hid & Hin). apply filter_In in Hin. destruct Hin as [Hin Hp].
    apply existsb_exists in Hp. destruct Hp as (t & Ht & Heq).
    apply text_is_true in Heq. exists x, t. repeat split; assumption.
  - intros (x & t & Hin & Hid & Ht & Htag). exists x. split; [exact Hid|].
    apply filter_In. split; [exact Hin|]. apply existsb_exists.
    exists t. split; [exact Ht|]. apply text_is_true. exact Htag.
Qed.

Lemma NoDup_map_filter {R K : Type} (key : R -> K) (keep : R -> bool)
    (rows : list R) :
  NoDup (map key rows) -> NoDup (map key (filter keep rows)).
Proof.
  induction rows as [|r rows IH]; simpl; intros H; [constructor|].
  inversion H as [|? ? Hnotin Hnd]; subst.
  destruct (keep r); simpl; [|apply IH; exact Hnd].
  constructor; [|apply IH; exact Hnd].
  intros Hin. apply Hnotin. apply in_map_iff in Hin.
  destruct Hin as (y & Hy & Hyin). apply filter_In in Hyin.
  apply in_map_iff. exists y. destruct Hyin. split; assumption.
Qed.

Lemma in_joined_tag_ids (tag_ids : list Z) (a : article) (db : database) (i : Z) :
  In i (joined_tag_ids tag_ids a db) <->
  In (mkArticleTag (art_id a) i) (article_tags db) /\ In i tag_ids.
Proof.
  unfold joined_tag_ids. rewrite in_map_iff. split.
  - intros ([aid tid] & Hid & Hin). simpl in Hid. subst tid.
    apply filter_In in Hin. destruct Hin as [Hin Hp]. simpl in Hp.
    apply andb_true_iff in Hp. destruct Hp as [Ha Hi].
    apply Z.eqb_eq in Ha. subst aid. split; [exact Hin|].
    apply existsb_exists in Hi. destruct Hi as (j & Hj & Heq).
    apply Z.eqb_eq in Heq. subst j. exact Hj.
  - intros [Hin Hi]. exists (mkArticleTag (art_id a) i). split; [reflexivity|].
    apply filter_In. split; [exact Hin|]. simpl.
    rewrite Z.eqb_refl. simpl. apply existsb_exists. exists i.
    split; [exact Hi|]. apply Z.eqb_refl.
Qed.

(** COUNT(DISTINCT ...) reaches the number of searched ids exactly when
    every searched id is among the joined ones. *)
Lemma count_distinct_all (l g : list Z) :
  NoDup l -> incl g l ->
  (List.length (nodup Z.eq_dec g) = List.length l <-> incl l g).
Proof.
  intros Hl Hg.
  assert (Hng : NoDup (nodup Z.eq_dec g)) by apply NoDup_nodup.
  assert (Hsub : incl (nodup Z.eq_dec g) l).
  { intros i Hi. apply Hg. apply nodup_In in Hi. exact Hi. }
  split.
  - intros Hlen i Hi.
    assert (Hincl : incl l (nodup Z.eq_dec g)).
    { apply NoDup_length_incl; [exact Hng|lia|exact Hsub]. }
    apply Hincl in Hi. apply nodup_In in Hi. exact Hi.
  - intros Hall.
    assert (Hincl : incl l (nodup Z.eq_dec g)).
    { intros i Hi. apply nodup_In. apply Hall. exact Hi. }
    apply Nat.le_antisymm; apply NoDup_incl_length; assumption.
Qed.

Lemma kept_by_having (search_tags : list string) (db : database) (a : article) :
  search_tags <> [] ->
  tags_known db search_tags ->
  tags_keyed db ->
  let tag_ids := select_tag_ids search_tags db in
  let g := joined_tag_ids tag_ids a db in
  (negb (Nat.eqb (List.length g) 0)
   && (Z.of_nat (List.length (nodup Z.eq_dec g)) =? Z.of_nat (List.length tag_ids))
   = true)
  <-> forall t, In t search_tags -> has_tag db (art_id a) t.
Proof.
  intros Hne Hknown [Hpk Huniq] tag_ids g.
  assert (Hnd : NoDup tag_ids) by (apply NoDup_map_filter; exact Hpk).
  assert (Hg : incl g tag_ids).
  { intros i Hi. apply in_joined_tag_ids in Hi. apply Hi. }
  pose proof (count_distinct_all tag_ids g Hnd Hg) as Hcount.
  rewrite andb_true_iff, negb_true_iff, Nat.eqb_neq, Z.eqb_eq, Nat2Z.inj_iff.
  split.
  - intros [_ Hlen] t Ht. apply Hcount in Hlen.
    destruct (Hknown t Ht) as (x & Hx & Htag).
    assert (Hi : In (tag_id x) tag_ids).
    { apply in_select_tag_ids. exists x, t. repeat split; assumption. }
    apply Hlen in Hi. apply in_joined_tag_ids in Hi.
    destruct Hi as [Hi _]. exists x. repeat split; assumption.
  - intros Hall.
    assert (Hincl : incl tag_ids g).
    { intros i Hi. apply in_joined_tag_ids. split; [|exact Hi].
      apply in_select_tag_ids in Hi.
      destruct Hi as (x & t & Hx & Hid & Ht & Htag).
      destruct (Hall t Ht) as (y & Hy & Hytag & Hassoc).
      assert (x = y) by (eapply Huniq; eassumption). subst y.
      rewrite <- Hid. exact Hassoc. }
    split; [|apply Hcount; exact Hincl].
    destruct search_tags as [|t0 rest]; [contradiction|].
    destruct (Hknown t0 (or_introl eq_refl)) as (x & Hx & Htag).
    assert (Hi : In (tag_id x) g).
    { apply Hincl. apply in_select_tag_ids. exists x, t0. simpl. repeat split; auto. }
    destruct g; [destruct Hi|simpl; discriminate].
Qed.

(** C8 (as amended).  For a list of tags whose tags all exist in
    [tags], the search changes nothing and returns: nothing when the list
    is empty; otherwise exactly the rows of the articles that carry every
    tag of the list. *)
Theorem search_articles_all_tags (search_tags : list string) (w : world) :
  tags_known (w_db w) search_tags ->
  tags_keyed (w_db w) ->
  exists result,
    search_articles search_tags w = (Return result, w)
    /\ (search_tags = [] -> result = [])
    /\ (search_tags <> [] ->
        forall row,
          In row result <->
          exists a, In a (articles (w_db w)) /\ row = row_of a
                    /\ forall t, In t search_tags -> has_tag (w_db w) (art_id a) t).
Proof.
  intros Hknown Hkeyed.
  destruct search_tags as [|t0 rest] eqn:E.
  { exists []. split; [reflexivity|]. split; [reflexivity|].
    intros H. contradiction. }
  rewrite <- E in *.
  assert (Hne : search_tags <> []) by (rewrite E; discriminate).
  exists (select_by_tag_ids (select_tag_ids search_tags (w_db w))
            (Z.of_nat (List.length (select_tag_ids search_tags (w_db w))))
            (w_db w)).
  split; [|split].
  - unfold search_articles. rewrite E. rewrite <- E. unfold_M.
    destruct (select_tag_ids search_tags (w_db w)) as [|i l] eqn:Eids;
      [|reflexivity].
    exfalso. destruct (Hknown t0) as (x & Hx & Htag); [rewrite E; left; reflexivity|].
    assert (Hi : In (tag_id x) (select_tag_ids search_tags (w_db w))).
    { apply in_select_tag_ids. exists x, t0. rewrite E. simpl. repeat split; auto. }
    rewrite Eids in Hi. destruct Hi.
  - intros H. contradiction.
  - intros _ row. unfold select_by_tag_ids. rewrite in_map_iff. split.
    + intros (a & Hrow & Hin). apply filter_In in Hin. destruct Hin as [Hin Hp].
      exists a. split; [exact Hin|]. split; [symmetry; exact Hrow|].
      apply (kept_by_having search_tags (w_db w) a Hne Hknown Hkeyed). exact Hp.
    + intros (a & Hin & Hrow & Hall). exists a. split; [symmetry; exact Hrow|].
      apply filter_In. split; [exact Hin|].
      apply (kept_by_having search_tags (w_db w) a Hne Hknown Hkeyed). exact Hall.
Qed.

(* ---------------------------------------------------------------- *)
(** ** The keys of the tables

    The statements above that lean on a PRIMARY KEY or UNIQUE
    constraint lean on something the program keeps: it holds of the
    empty store and every operation preserves it. *)

Lemma max_id_ge {R : Type} (id : R -> Z) (l : list R) (x : R) :
  In x l -> id x <= max_id id l.
Proof.
  induction l as [|y l IH]; simpl; intros H; [contradiction|].
  destruct H as [->|H]; [lia|]. specialize (IH H). lia.
Qed.

Lemma next_rowid_fresh {R : Type} (id : R -> Z) (seq : Z) (l : list R) :
  ~ In (next_rowid id seq l) (map id l).
Proof.
  intros H. apply in_map_iff in H. destruct H as (x & Hx & Hin).
  apply (max_id_ge id) in Hin. unfold next_rowid in Hx. lia.
Qed.

Lemma NoDup_snoc {A : Type} (l : list A) (x : A) :
  NoDup l -> ~ In x l -> NoDup (l ++ [x]).
Proof.
  induction l as [|y l IH]; simpl; intros Hnd Hx.
  - constructor; [intros []|constructor].
  - inversion Hnd as [|? ? Hy Hnd']; subst. constructor.
    + intros Hin. apply in_app_or in Hin. destruct Hin as [Hin|[Hin|[]]].
      * exact (Hy Hin).
      * apply Hx. left. symmetry. exact Hin.
    + apply IH; [exact Hnd'|]. intros Hin. apply Hx. right. exact Hin.
Qed.

Lemma update_article_ids (content stamp link : string) (source_id : option Z)
    (db : database) :
  map art_id (articles (update_article content stamp source_id link db))
  = map art_id (articles db).
Proof.
  unfold update_article. simpl. rewrite map_map. apply map_ext.
  intros a. destruct (text_is (art_link a) link); reflexivity.
Qed.

Lemma article_ids_unique_empty : article_ids_unique empty_db.
Proof. constructor. Qed.

Lemma article_ids_unique_preserved (op : store_op) (w : world) :
  article_ids_unique (w_db w) ->
  article_ids_unique (w_db (run_op op w)).
Proof.
  unfold article_ids_unique. intros Hinv. destruct op; simpl.
  - exact Hinv.
  - rewrite save_source_articles. exact Hinv.
  - exact Hinv.
  - exact Hinv.
  - destruct (article_by_link link (w_db w)) as [a|] eqn:Ha.
    + rewrite (save_article_db_existing _ _ _ _ _ _ _ _ Ha).
      destruct scraped_now; [rewrite update_article_ids|]; exact Hinv.
    + rewrite (save_article_db_new _ _ _ _ _ _ _ Ha). simpl.
      rewrite map_app. simpl. apply NoDup_snoc; [exact Hinv|].
      apply next_rowid_fresh.
  - destruct (archive_old_articles_spec threshold_days w) as ([H|H] & _).
    + rewrite H. exact Hinv.
    + rewrite H. unfold delete_articles. simpl.
      apply NoDup_map_filter. exact Hinv.
  - apply (for_each_invariant
             (fun w' => NoDup (map art_id (articles (w_db w'))))); [|exact Hinv].
    intros t w1 _ H1. rewrite add_tag_articles. exact H1.
  - apply (for_each_invariant
             (fun w' => NoDup (map art_id (articles (w_db w'))))); [|exact Hinv].
    intros t w1 _ H1. rewrite remove_tag_articles. exact H1.
Qed.

Lemma tags_keyed_empty : tags_keyed empty_db.
Proof. split; [constructor|]. intros x y t []. Qed.

Lemma tags_keyed_same (db db' : database) :
  tags db' = tags db -> tags_keyed db -> tags_keyed db'.
Proof. unfold tags_keyed. intros ->. auto. Qed.

Lemma tags_keyed_insert (t : string) (db : database) :
  tags_keyed db -> tags_keyed (insert_or_ignore_tag t db).
Proof.
  intros [Hpk Huniq]. unfold insert_or_ignore_tag.
  destruct (existsb (fun x => text_is (tag_tag x) t) (tags db)) eqn:E;
    [split; assumption|].
  assert (Hnew : forall x, In x (tags db) -> tag_tag x <> Some t).
  { intros x Hx Htag.
    assert (existsb (fun x => text_is (tag_tag x) t) (tags db) = true).
    { apply existsb_exists. exists x. split; [exact Hx|].
      rewrite Htag. apply text_is_refl. }
    congruence. }
  split; simpl.
  - rewrite map_app. simpl. apply NoDup_snoc; [exact Hpk|].
    apply next_rowid_fresh.
  - intros x y t' Hx Hy Htx Hty.
    apply in_app_or in Hx. apply in_app_or in Hy.
    destruct Hx as [Hx|[<-|[]]], Hy as [Hy|[<-|[]]].
    + eapply Huniq; eassumption.
    + exfalso. simpl in Hty. inversion Hty; subst t'. exact (Hnew x Hx Htx).
    + exfalso. simpl in Htx. inversion Htx; subst t'. exact (Hnew y Hy Hty).
    + reflexivity.
Qed.

Lemma add_tag_tags (article_id : Z) (t : string) (w : world) :
  tags (w_db (snd (add_tag article_id t w)))
  = tags (insert_or_ignore_tag t (w_db w)).
Proof.
  unfold add_tag, select_tag_id, insert_article_tag. unfold_M. simpl.
  destruct (option_map tag_id _); simpl; [|reflexivity].
  destruct (existsb _ _); reflexivity.
Qed.

Lemma remove_tag_tags (article_id : Z) (t : string) (w : world) :
  tags (w_db (snd (remove_tag article_id t w))) = tags (w_db w).
Proof.
  unfold remove_tag, select_tag_id. unfold_M. simpl.
  destruct (option_map tag_id _); reflexivity.
Qed.

Lemma save_source_tags (name url : string) (w : world) :
  tags (w_db (snd (save_source name url w))) = tags (w_db w).
Proof.
  unfold save_source, insert_source, select_source_id. unfold_M. simpl.
  destruct (existsb _ _); simpl; [|reflexivity].
  destruct (option_map _ _); reflexivity.
Qed.

Lemma tags_keyed_preserved (op : store_op) (w : world) :
  tags_keyed (w_db w) -> tags_keyed (w_db (run_op op w)).
Proof.
  intros Hinv. destruct op; simpl.
  - exact Hinv.
  - eapply tags_keyed_same; [apply save_source_tags|exact Hinv].
  - exact Hinv.
  - exact Hinv.
  - destruct (article_by_link link (w_db w)) as [a|] eqn:Ha.
    + rewrite (save_article_db_existing _ _ _ _ _ _ _ _ Ha).
      destruct scraped_now; exact Hinv.
    + rewrite (save_article_db_new _ _ _ _ _ _ _ Ha). exact Hinv.
  - destruct (archive_old_articles_spec threshold_days w) as ([H|H] & _);
      rewrite H; exact Hinv.
  - apply (for_each_invariant (fun w' => tags_keyed (w_db w'))); [|exact Hinv].
    intros t w1 _ H1. eapply tags_keyed_same; [apply add_tag_tags|].
    apply tags_keyed_insert. exact H1.
  - apply (for_each_invariant (fun w' => tags_keyed (w_db w'))); [|exact Hinv].
    intros t w1 _ H1. eapply tags_keyed_same; [apply remove_tag_tags|exact H1].
Qed.

(* ---------------------------------------------------------------- *)
(** ** The source registry *)

Lemma find_existsb_none {A : Type} (p : A -> bool) (l : list A) :
  existsb p l = false -> find p l = None.
Proof.
  induction l as [|x l IH]; simpl; [reflexivity|].
  destruct (p x); [discriminate|]. exact IH.
Qed.

(** What [save_source] does, by the row that [url] has. *)
Lemma save_source_run (name url : string) (w : world) :
  save_source name url w
  = match select_source_id url (w_db w) with
    | Some source_id =>
        (Return (Some source_id),
         logged w [(INFO, "Source already exists: " ++ name ++ " (" ++ url ++ ")")])
    | None =>
        let source_id := next_rowid src_id (seq_sources (w_db w)) (sources (w_db w)) in
        (Return (Some source_id),
         logged (set_db (set_sources (w_db w)
                           (sources (w_db w) ++ [mkSource source_id (Some name) (Some url)])
                           source_id) w)
                [(INFO, "Source saved: " ++ name ++ " (" ++ url ++ ")")])
    end.
Proof.
  unfold save_source, insert_source, select_source_id. unfold_M. simpl.
  destruct (find (fun s => text_is (src_url s) url) (sources (w_db w))) as [s|] eqn:E.
  - rewrite (find_existsb _ _ _ E). simpl. rewrite E. reflexivity.
  - rewrite (find_none_existsb _ _ E). reflexivity.
Qed.

Lemma select_source_id_new (name url : string) (db : database) (id seq : Z) :
  select_source_id url db = None ->
  select_source_id url
    (set_sources db (sources db ++ [mkSource id (Some name) (Some url)]) seq)
  = Some id.
Proof.
  unfold select_source_id. simpl. intros H.
  destruct (find (fun s => text_is (src_url s) url) (sources db)) eqn:E;
    [discriminate|].
  rewrite (find_app_new _ _ (mkSource id (Some name) (Some url)) E (text_is_refl url)).
  reflexivity.
Qed.

(** X1.  [save_source] always hands back an id, and it is the id under
    which the URL is found afterwards.  When the URL was registered
    already, it is the id it had, and the store, the stored name
    included, is left as it was. *)
Theorem save_source_registers_or_gets (name url : string) (w : world) :
  exists source_id,
    fst (save_source name url w) = Return (Some source_id)
    /\ select_source_id url (w_db (snd (save_source name url w))) = Some source_id
    /\ forall known, select_source_id url (w_db w) = Some known ->
                     source_id = known
                     /\ w_db (snd (save_source name url w)) = w_db w.
Proof.
  rewrite save_source_run.
  destruct (select_source_id url (w_db w)) as [i|] eqn:E.
  - exists i. split; [reflexivity|]. split; [exact E|].
    intros known Hk. inversion Hk. split; reflexivity.
  - eexists. split; [reflexivity|]. split.
    + simpl. apply select_source_id_new. exact E.
    + intros known Hk. discriminate Hk.
Qed.

(** X2.  Registering the same URL again, under any name and at any
    time, gives the same id and changes nothing in the store. *)
Theorem save_source_twice (name name' url : string) (w : world) (t : datetime) :
  let first := save_source name url w in
  let second := save_source name' url (at_time t (snd first)) in
  fst second = fst first /\ w_db (snd second) = w_db (snd first).
Proof.
  intros first second.
  assert (H : exists i, fst first = Return (Some i)
                        /\ select_source_id url (w_db (snd first)) = Some i).
  { unfold first. rewrite save_source_run.
    destruct (select_source_id url (w_db w)) as [i|] eqn:E.
    - exists i. split; [reflexivity|exact E].
    - eexists. split; [reflexivity|]. simpl. apply select_source_id_new. exact E. }
  destruct H as (i & Hret & Hsel).
  unfold second. rewrite save_source_run. simpl w_db. rewrite Hsel.
  rewrite Hret. split; reflexivity.
Qed.

(* ---------------------------------------------------------------- *)
(** ** The constraints of the schema *)

Lemma in_non_null {A B : Type} (f : A -> option B) (l : list A) (x : B) :
  In x (non_null (map f l)) <-> exists a, In a l /\ f a = Some x.
Proof.
  unfold non_null. rewrite in_flat_map. split.
  - intros (v & Hv & Hx). apply in_map_iff in Hv. destruct Hv as (a & Ha & Hin).
    exists a. split; [exact Hin|]. rewrite Ha.
    destruct v as [y|]; simpl in Hx; [|contradiction].
    destruct Hx as [->|[]]. reflexivity.
  - intros (a & Hin & Ha). exists (Some x). split.
    + apply in_map_iff. exists a. split; assumption.
    + left. reflexivity.
Qed.

Lemma non_null_snoc {A : Type} (col : list (option A)) (x : A) :
  non_null (col ++ [Some x]) = (non_null col ++ [x])%list.
Proof. unfold non_null. rewrite flat_map_app. reflexivity. Qed.

Lemma NoDup_non_null_filter {R K : Type} (key : R -> option K) (keep : R -> bool)
    (rows : list R) :
  NoDup (non_null (map key rows)) ->
  NoDup (non_null (map key (filter keep rows))).
Proof.
  induction rows as [|r rows IH]; simpl; intros H; [constructor|].
  assert (Hrest : NoDup (non_null (map key rows))).
  { destruct (key r); simpl in H; [inversion H; assumption|exact H]. }
  destruct (keep r); simpl; [|apply IH; exact Hrest].
  destruct (key r) as [k|] eqn:Ek; simpl; [|apply IH; exact Hrest].
  simpl in H. inversion H as [|? ? Hnotin Hnd]; subst.
  constructor; [|apply IH; exact Hrest].
  intros Hin. apply Hnotin. apply in_non_null in Hin.
  destruct Hin as (a & Ha & Hk). apply filter_In in Ha. destruct Ha as [Ha _].
  apply in_non_null. exists a. split; assumption.
Qed.

Lemma text_absent (A : Type) (col : A -> option string) (rows : list A)
    (s : string) :
  existsb (fun r => text_is (col r) s) rows = false ->
  ~ In s (non_null (map col rows)).
Proof.
  intros Hex Hin. apply in_non_null in Hin. destruct Hin as (a & Ha & Hs).
  assert (existsb (fun r => text_is (col r) s) rows = true).
  { apply existsb_exists. exists a. split; [exact Ha|].
    rewrite Hs. apply text_is_refl. }
  congruence.
Qed.

Lemma update_article_links (content stamp link : string) (source_id : option Z)
    (db : database) :
  map art_link (articles (update_article content stamp source_id link db))
  = map art_link (articles db).
Proof.
  unfold update_article. simpl. rewrite map_map. apply map_ext.
  intros a. destruct (text_is (art_link a) link); reflexivity.
Qed.

(** The store after one [add_tag] and one [remove_tag]. *)
Lemma add_tag_db (article_id : Z) (t : string) (w : world) :
  w_db (snd (add_tag article_id t w))
  = let db1 := insert_or_ignore_tag t (w_db w) in
    match select_tag_id t db1 with
    | Some tid =>
        match insert_article_tag article_id tid db1 with
        | Some db2 => db2
        | None => db1
        end
    | None => db1
    end.
Proof.
  unfold add_tag. unfold_M. simpl.
  destruct (select_tag_id t (insert_or_ignore_tag t (w_db w))); simpl;
    [|reflexivity].
  destruct (insert_article_tag _ _ _); reflexivity.
Qed.

Lemma remove_tag_db (article_id : Z) (t : string) (w : world) :
  w_db (snd (remove_tag article_id t w))
  = match select_tag_id t (w_db w) with
    | Some tid => delete_article_tag article_id tid (w_db w)
    | None => w_db w
    end.
Proof.
  unfold remove_tag. unfold_M. simpl.
  destruct (select_tag_id t (w_db w)); reflexivity.
Qed.

(** The three things an operation can do to [articles], with
    [sources], [tags] and [article_tags] left alone. *)
Lemma save_article_db_cases (title link published content : string)
    (source_id : option Z) (scraped_now : bool) (w : world) :
  let db := w_db w in
  let db' := w_db (snd (save_article title link published content source_id
                                     scraped_now w)) in
  db' = db
  \/ db' = update_article content (isoformat (w_now w)) source_id link db
  \/ (article_by_link link db = None
      /\ db' = set_articles db
                 (articles db ++
                  [mkArticle (next_rowid art_id (seq_articles db) (articles db))
                             (Some title) (Some link) (Some published)
                             (Some content) (Some (isoformat (w_now w))) source_id])
                 (next_rowid art_id (seq_articles db) (articles db))).
Proof.
  intros db db'. unfold db', db.
  destruct (article_by_link link (w_db w)) as [a|] eqn:Ha.
  - rewrite (save_article_db_existing _ _ _ _ _ _ _ _ Ha).
    destruct scraped_now; [right; left|left]; reflexivity.
  - rewrite (save_article_db_new _ _ _ _ _ _ _ Ha). right. right.
    split; reflexivity.
Qed.

Lemma archive_db_cases (threshold_days : Z) (w : world) :
  w_db (snd (archive_old_articles threshold_days w)) = w_db w
  \/ exists ids,
       w_db (snd (archive_old_articles threshold_days w))
       = delete_articles ids (w_db w).
Proof.
  destruct (archive_old_articles_spec threshold_days w) as ([H|H] & _).
  - left. exact H.
  - right. eexists. exact H.
Qed.

Lemma constraints_empty : constraints empty_db.
Proof.
  repeat split; try constructor. intros x y t [].
Qed.

Lemma constraints_insert_or_ignore_tag (t : string) (db : database) :
  constraints db -> constraints (insert_or_ignore_tag t db).
Proof.
  intros (H1 & H2 & H3 & H4 & H5 & H6).
  pose proof (tags_keyed_insert t db H5) as H5'.
  unfold insert_or_ignore_tag in *.
  destruct (existsb _ _); repeat split; try assumption; apply H5'.
Qed.

Lemma constraints_add_tag (article_id : Z) (t : string) (w : world) :
  constraints (w_db w) -> constraints (w_db (snd (add_tag article_id t w))).
Proof.
  intros H. rewrite add_tag_db. cbv zeta.
  apply (constraints_insert_or_ignore_tag t) in H.
  destruct (select_tag_id t (insert_or_ignore_tag t (w_db w))) as [tid|];
    [|exact H].
  unfold insert_article_tag.
  destruct (existsb _ _) eqn:E; [exact H|].
  destruct H as (H1 & H2 & H3 & H4 & H5 & H6).
  repeat split; try assumption; try apply H5.
  unfold pairs_unique. simpl. apply NoDup_snoc; [exact H6|].
  intros Hin.
  assert (existsb (fun x => (at_article_id x =? article_id) && (at_tag_id x =? tid))
                  (article_tags (insert_or_ignore_tag t (w_db w))) = true).
  { apply existsb_exists. eexists. split; [exact Hin|]. simpl.
    rewrite !Z.eqb_refl. reflexivity. }
  congruence.
Qed.

Lemma constraints_remove_tag (article_id : Z) (t : string) (w : world) :
  constraints (w_db w) -> constraints (w_db (snd (remove_tag article_id t w))).
Proof.
  intros H. rewrite remove_tag_db.
  destruct (select_tag_id t (w_db w)) as [tid|]; [|exact H].
  destruct H as (H1 & H2 & H3 & H4 & H5 & H6).
  repeat split; try assumption; try apply H5.
  unfold pairs_unique, delete_article_tag. simpl. apply NoDup_filter. exact H6.
Qed.

Lemma constraints_save_source (name url : string) (w : world) :
  constraints (w_db w) -> constraints (w_db (snd (save_source name url w))).
Proof.
  intros Hc. rewrite save_source_run.
  destruct (select_source_id url (w_db w)) as [i|] eqn:E; [exact Hc|].
  destruct Hc as (H1 & H2 & H3 & H4 & H5 & H6). simpl.
  repeat split; try assumption; try apply H5.
  - unfold source_ids_unique. simpl. rewrite map_app. simpl.
    apply NoDup_snoc; [exact H1|]. apply next_rowid_fresh.
  - unfold urls_unique. simpl. rewrite map_app. simpl.
    rewrite non_null_snoc. apply NoDup_snoc; [exact H2|].
    apply text_absent. unfold select_source_id in E.
    destruct (find (fun s => text_is (src_url s) url) (sources (w_db w))) eqn:F;
      [discriminate|].
    apply find_none_existsb. exact F.
Qed.

Lemma constraints_save_article (title link published content : string)
    (source_id : option Z) (scraped_now : bool) (w : world) :
  constraints (w_db w) ->
  constraints
    (w_db (snd (save_article title link published content source_id scraped_now w))).
Proof.
  intros (H1 & H2 & H3 & H4 & H5 & H6).
  destruct (save_article_db_cases title link published content source_id
              scraped_now w) as [E|[E|[Hnew E]]]; rewrite E.
  - repeat split; try assumption; apply H5.
  - repeat split; try assumption; try apply H5.
    + unfold article_ids_unique. rewrite update_article_ids. exact H3.
    + unfold links_unique. rewrite update_article_links. exact H4.
  - repeat split; try assumption; try apply H5.
    + unfold article_ids_unique. simpl. rewrite map_app. simpl.
      apply NoDup_snoc; [exact H3|]. apply next_rowid_fresh.
    + unfold links_unique. simpl. rewrite map_app. simpl.
      rewrite non_null_snoc. apply NoDup_snoc; [exact H4|].
      apply text_absent. apply find_none_existsb. exact Hnew.
Qed.

(** X3.  The constraints of the schema (primary keys; UNIQUE url, link
    and tag) are kept by every operation: no two articles ever come to
    share a link, no two sources a URL. *)
Theorem constraints_preserved (op : store_op) (w : world) :
  constraints (w_db w) -> constraints (w_db (run_op op w)).
Proof.
  intros Hc. destruct op; simpl.
  - exact Hc.
  - apply constraints_save_source. exact Hc.
  - destruct Hc as (H1 & H2 & H3 & H4 & H5 & H6).
    repeat split; try assumption; try apply H5.
    + unfold source_ids_unique, update_source. simpl. rewrite map_map.
      erewrite map_ext; [exact H1|].
      intros s. simpl. destruct (src_id s =? source_id); reflexivity.
    + unfold urls_unique, update_source. simpl. rewrite map_map.
      erewrite map_ext; [exact H2|].
      intros s. simpl. destruct (src_id s =? source_id); reflexivity.
  - destruct Hc as (H1 & H2 & H3 & H4 & H5 & H6).
    repeat split; try assumption; try apply H5.
    + unfold source_ids_unique, delete_source_row. simpl.
      apply NoDup_map_filter. exact H1.
    + unfold urls_unique, delete_source_row. simpl.
      apply NoDup_non_null_filter. exact H2.
  - apply constraints_save_article. exact Hc.
  - destruct Hc as (H1 & H2 & H3 & H4 & H5 & H6).
    destruct (archive_db_cases threshold_days w) as [E|[ids E]]; rewrite E.
    + repeat split; try assumption; apply H5.
    + repeat split; try assumption; try apply H5.
      * unfold article_ids_unique, delete_articles. simpl.
        apply NoDup_map_filter. exact H3.
      * unfold links_unique, delete_articles. simpl.
        apply NoDup_non_null_filter. exact H4.
  - apply (for_each_invariant (fun w' => constraints (w_db w'))); [|exact Hc].
    intros t w1 _ H1. apply constraints_add_tag. exact H1.
  - apply (for_each_invariant (fun w' => constraints (w_db w'))); [|exact Hc].
    intros t w1 _ H1. apply constraints_remove_tag. exact H1.
Qed.

(* ---------------------------------------------------------------- *)
(** ** Article ids over a history *)

Lemma add_tag_seq_articles (article_id : Z) (t : string) (w : world) :
  seq_articles (w_db (snd (add_tag article_id t w))) = seq_articles (w_db w).
Proof.
  rewrite add_tag_db. cbv zeta. unfold insert_or_ignore_tag, insert_article_tag.
  destruct (existsb (fun x => text_is (tag_tag x) t) (tags (w_db w)));
    destruct (select_tag_id t _); try reflexivity;
    destruct (existsb _ _); reflexivity.
Qed.

Lemma remove_tag_seq_articles (article_id : Z) (t : string) (w : world) :
  seq_articles (w_db (snd (remove_tag article_id t w))) = seq_articles (w_db w).
Proof.
  rewrite remove_tag_db. destruct (select_tag_id t (w_db w)); reflexivity.
Qed.

(** One operation: the counter does not go down, stays above every id,
    and an id that comes into the table is above the old counter. *)
Lemma run_op_ids (op : store_op) (w : world) :
  ids_bounded (w_db w) ->
  ids_bounded (w_db (run_op op w))
  /\ seq_articles (w_db w) <= seq_articles (w_db (run_op op w))
  /\ forall i, In i (map art_id (articles (w_db (run_op op w)))) ->
               In i (map art_id (articles (w_db w))) \/ seq_articles (w_db w) < i.
Proof.
  intros Hb.
  assert (Hsame : forall db',
             articles db' = articles (w_db w) ->
             seq_articles db' = seq_articles (w_db w) ->
             ids_bounded db'
             /\ seq_articles (w_db w) <= seq_articles db'
             /\ forall i, In i (map art_id (articles db')) ->
                          In i (map art_id (articles (w_db w)))
                          \/ seq_articles (w_db w) < i).
  { intros db' Ha Hs. unfold ids_bounded. rewrite Ha, Hs.
    split; [exact Hb|]. split; [lia|]. intros i Hi. left. exact Hi. }
  destruct op; unfold run_op.
  - apply Hsame; reflexivity.
  - rewrite save_source_run.
    destruct (select_source_id url (w_db w)); apply Hsame; reflexivity.
  - apply Hsame; reflexivity.
  - apply Hsame; reflexivity.
  - destruct (save_article_db_cases title link published content source_id
                scraped_now w) as [E|[E|[_ E]]]; rewrite E.
    + apply Hsame; reflexivity.
    + split; [|split].
      * intros a Ha. unfold update_article in Ha. simpl in Ha.
        apply in_map_iff in Ha. destruct Ha as (b & <- & Hin).
        specialize (Hb b Hin).
        destruct (text_is (art_link b) link); simpl; exact Hb.
      * simpl. lia.
      * intros i Hi. left. rewrite update_article_ids in Hi. exact Hi.
    + assert (Hnext : seq_articles (w_db w)
                      < next_rowid art_id (seq_articles (w_db w)) (articles (w_db w)))
        by (unfold next_rowid; lia).
      split; [|split].
      * intros a Ha. simpl in Ha. apply in_app_or in Ha. simpl.
        destruct Ha as [Ha|[<-|[]]]; [specialize (Hb a Ha); lia|simpl; lia].
      * simpl. lia.
      * intros i Hi. simpl in Hi. rewrite map_app in Hi. apply in_app_or in Hi.
        destruct Hi as [Hi|[<-|[]]]; [left; exact Hi|right; exact Hnext].
  - destruct (archive_db_cases threshold_days w) as [E|[ids E]]; rewrite E.
    + apply Hsame; reflexivity.
    + split; [|split].
      * intros a Ha. unfold delete_articles in Ha. simpl in Ha.
        apply filter_In in Ha. destruct Ha as [Ha _]. exact (Hb a Ha).
      * simpl. lia.
      * intros i Hi. left. unfold delete_articles in Hi. simpl in Hi.
        apply in_map_iff in Hi. destruct Hi as (a & <- & Ha).
        apply filter_In in Ha. destruct Ha as [Ha _]. apply in_map. exact Ha.
  - apply Hsame.
    + apply (for_each_invariant
               (fun w' => articles (w_db w') = articles (w_db w))); [|reflexivity].
      intros t w1 _ H1. rewrite add_tag_articles. exact H1.
    + apply (for_each_invariant
               (fun w' => seq_articles (w_db w') = seq_articles (w_db w)));
        [|reflexivity].
      intros t w1 _ H1. rewrite add_tag_seq_articles. exact H1.
  - apply Hsame.
    + apply (for_each_invariant
               (fun w' => articles (w_db w') = articles (w_db w))); [|reflexivity].
      intros t w1 _ H1. rewrite remove_tag_articles. exact H1.
    + apply (for_each_invariant
               (fun w' => seq_articles (w_db w') = seq_articles (w_db w)));
        [|reflexivity].
      intros t w1 _ H1. rewrite remove_tag_seq_articles. exact H1.
Qed.

Lemma ids_bounded_empty : ids_bounded empty_db.
Proof. intros a []. Qed.

(** X4.  Article ids are never reused: an id at or below the counter
    that is not in the table (the id of an article that was archived) is
    in the table after no history of operations. *)
Theorem deleted_id_never_returns (ops : list (datetime * store_op)) :
  forall (w : world) (i : Z),
    ids_bounded (w_db w) ->
    i <= seq_articles (w_db w) ->
    ~ In i (map art_id (articles (w_db w))) ->
    ~ In i (map art_id (articles (w_db (run_ops ops w)))).
Proof.
  induction ops as [|[t op] ops IH]; intros w i Hb Hle Hout; simpl; [exact Hout|].
  assert (Hb' : ids_bounded (w_db (at_time t w))) by exact Hb.
  destruct (run_op_ids op (at_time t w) Hb') as (Hb2 & Hseq & Hnew).
  simpl w_db in Hseq, Hnew.
  apply IH; [exact Hb2|lia|].
  intros Hin. destruct (Hnew i Hin) as [H|H]; [exact (Hout H)|lia].
Qed.

(* ---------------------------------------------------------------- *)
(** ** One entry of a feed *)

Lemma fetch_full_article_run (link : string) (w : world) :
  exists records,
    fetch_full_article link w
    = (Return (page_text link),
       mkWorld (w_db w) (w_log w ++ records) (w_net w ++ [link]) (w_fs w) (w_now w)).
Proof.
  unfold fetch_full_article, page_text. unfold_M. simpl.
  destruct (requests_get link) as [[[ps|] qs|err]|err]; simpl.
  - exists []. rewrite app_nil_r. reflexivity.
  - exists []. rewrite app_nil_r. reflexivity.
  - eexists. reflexivity.
  - eexists. reflexivity.
Qed.

(** Resolution leaves the store and the clock; what it hands over when
    the page was asked for is the text of the page, or the text of the
    feed when the page gave nothing. *)
Lemma resolve_content_run (link : string) (e : entry) (w : world) :
  let r := resolve_content link e w in
  w_db (snd r) = w_db w /\ w_now (snd r) = w_now w
  /\ ((exists err, fst r = Raise err)
      \/ (exists a c, article_by_link link (w_db w) = Some a
                      /\ art_content a = Some c
                      /\ r = (Return (c, false), w))
      \/ (page_text link <> ""
          /\ fst r = Return (page_text link, true)
          /\ w_net (snd r) = (w_net w ++ [link])%list)
      \/ (page_text link = ""
          /\ fst r = Return (feed_text e, false)
          /\ w_net (snd r) = (w_net w ++ [link])%list)).
Proof.
  intros r. subst r. unfold resolve_content. unfold_M.
  pose proof (needs_scraping_world
                (select_content_scraped_at link (w_db w)) w) as Hw.
  destruct (needs_scraping (select_content_scraped_at link (w_db w)) w)
    as [[needs|err] w1] eqn:Hneeds; simpl in Hw; subst w1.
  2:{ simpl. split; [reflexivity|]. split; [reflexivity|].
      left. exists err. reflexivity. }
  destruct needs.
  - destruct (fetch_full_article_run link w) as [records Hrun].
    rewrite Hrun.
    destruct (String.eqb_spec (page_text link) "") as [Hempty|Hfull]; simpl.
    + split; [reflexivity|]. split; [reflexivity|].
      right. right. right. repeat split. exact Hempty.
    + split; [reflexivity|]. split; [reflexivity|].
      right. right. left. repeat split. exact Hfull.
  - destruct (needs_scraping_false_has_content _ _ _ Hneeds) as (c & stamp & Hrow).
    rewrite Hrow. simpl. split; [reflexivity|]. split; [reflexivity|].
    right. left. unfold select_content_scraped_at in Hrow.
    destruct (article_by_link link (w_db w)) as [a|]; [|discriminate].
    simpl in Hrow. inversion Hrow. exists a, c. repeat split; assumption.
Qed.

(** The entry has a title and a link: the loop body resolves the content
    and saves the article. *)
Lemma process_entry_run (source_id : option Z) (e : entry) (w : world)
    (title link : string) :
  e_title e = Some title -> e_link e = Some link ->
  process_entry source_id e w
  = match resolve_content link e w with
    | (Return (content, scraped_now), w1) =>
        match save_article title link (entry_published e) content
                           source_id scraped_now w1 with
        | (Return _, w2) => (Return tt, w2)
        | (Raise err, w2) => (Raise err, w2)
        end
    | (Raise err, w1) => (Raise err, w1)
    end.
Proof.
  intros Ht Hl. unfold process_entry, attribute. rewrite Ht, Hl.
  unfold bind, ret.
  destruct (resolve_content link e w) as [[[content scraped_now]|err] w1];
    [|reflexivity].
  destruct (save_article _ _ _ _ _ _ w1) as [[v|err] w2]; reflexivity.
Qed.

(** The entry lacks its title or its link: the loop body raises before
    it reads or writes anything. *)
Lemma process_entry_raises (source_id : option Z) (e : entry) (w : world) :
  e_title e = None \/ e_link e = None ->
  exists name,
    (name = "title" \/ name = "link")
    /\ process_entry source_id e w
       = (Raise ("object has no attribute '" ++ name ++ "'"), w).
Proof.
  intros H. unfold process_entry, attribute.
  destruct (e_title e) as [title|].
  - destruct H as [H|H]; [discriminate H|]. rewrite H.
    exists "link". split; [right; reflexivity | reflexivity].
  - exists "title". split; [left; reflexivity | reflexivity].
Qed.

(** [save_article] returns, whatever the store holds. *)
Lemma save_article_returns (title link published content : string)
    (source_id : option Z) (scraped_now : bool) (w : world) :
  fst (save_article title link published content source_id scraped_now w)
  = Return None.
Proof.
  unfold save_article, save_article_body, select_article_id. unfold_M. simpl.
  destruct (insert_article _ _ _ _ _ _ _) as [[db' id]|] eqn:Eins; simpl;
    [reflexivity|].
  assert (Hrow : exists a, article_by_link link (w_db w) = Some a).
  { unfold insert_article in Eins.
    destruct (existsb (fun a => text_is (art_link a) link) (articles (w_db w)))
      eqn:Ex; [|discriminate].
    unfold article_by_link.
    destruct (find (fun a => text_is (art_link a) link) (articles (w_db w)))
      as [a|] eqn:F; [exists a; reflexivity|].
    rewrite (find_none_existsb _ _ F) in Ex. discriminate. }
  destruct Hrow as [a Ha]. destruct scraped_now; simpl.
  - rewrite article_by_link_update, Ha. reflexivity.
  - rewrite Ha. reflexivity.
Qed.

Lemma save_article_run_unscraped (title link published content : string)
    (source_id : option Z) (w : world) (a : article) :
  article_by_link link (w_db w) = Some a ->
  save_article title link published content source_id false w
  = (Return None, logged w [(INFO, "Article already exists: " ++ title)]).
Proof.
  intros Ha. pose proof (find_existsb _ _ _ Ha) as Hex.
  unfold save_article, save_article_body, select_article_id, insert_article.
  unfold_M. simpl. rewrite Hex. simpl. rewrite Ha. reflexivity.
Qed.

Lemma fresh_is_readable (w : world) (link c : string) :
  cache_is_fresh w link c -> stamp_readable w link.
Proof.
  intros (a & s & t & Ha & _ & _ & _ & Hs & _ & Ht & _) a' s' Ha' Hs' _.
  assert (a' = a) by congruence. subst a'.
  assert (s' = s) by congruence. subst s'. exists t. exact Ht.
Qed.

Lemma fresh_cache_resolves (link : string) (e : entry) (w : world) (c : string) :
  cache_is_fresh w link c ->
  resolve_content link e w = (Return (c, false), w).
Proof.
  intros Hfresh.
  destruct (needs_scraping_decides w link (fresh_is_readable _ _ _ Hfresh))
    as [(c' & stamp & Hfresh' & Hrow & Hneeds)|(Hstale & _)].
  - assert (c' = c).
    { destruct Hfresh as (a & _ & _ & Ha & Hc & _).
      destruct Hfresh' as (a' & _ & _ & Ha' & Hc' & _). congruence. }
    subst c'. unfold resolve_content. unfold bind at 1. unfold query at 1.
    unfold bind at 1. rewrite Hneeds, Hrow. reflexivity.
  - exfalso. exact (Hstale c Hfresh).
Qed.

(** X5.  An entry with a title and a link whose cached content is fresh
    costs nothing: no page is requested, the store is not written, and
    the only trace is one line in the log. *)
Theorem process_entry_fresh_cache (source_id : option Z) (e : entry) (w : world)
    (title link c : string) :
  e_title e = Some title -> e_link e = Some link ->
  cache_is_fresh w link c ->
  process_entry source_id e w
  = (Return tt, logged w [(INFO, "Article already exists: " ++ title)]).
Proof.
  intros Ht Hl Hfresh. rewrite (process_entry_run _ _ _ title link Ht Hl).
  rewrite (fresh_cache_resolves link e w c Hfresh).
  destruct Hfresh as (a & _ & _ & Ha & _).
  rewrite (save_article_run_unscraped _ _ _ _ _ _ a Ha). reflexivity.
Qed.

(** X6.  For an entry whose link is in the store, ingestion writes the
    row only when the page gave text, and then it writes that text: the
    text of the feed never replaces stored content, and a raise (also
    that of an entry without title) leaves the store as it was. *)
Theorem process_entry_existing_link (source_id : option Z) (e : entry) (w : world)
    (link : string) (a : article) :
  e_link e = Some link ->
  article_by_link link (w_db w) = Some a ->
  let db' := w_db (snd (process_entry source_id e w)) in
  db' = w_db w
  \/ (page_text link <> ""
      /\ db' = update_article (page_text link) (isoformat (w_now w))
                              source_id link (w_db w)).
Proof.
  intros Hl Ha db'. unfold db'.
  destruct (e_title e) as [title|] eqn:Ht.
  2:{ destruct (process_entry_raises source_id e w (or_introl Ht))
        as (name & _ & ->). left. reflexivity. }
  rewrite (process_entry_run _ _ _ title link Ht Hl).
  destruct (resolve_content_run link e w) as (Hdb & Hnow & Hcases).
  destruct (resolve_content link e w) as [[[content scraped_now]|err] w1] eqn:Hres;
    simpl in Hdb, Hnow, Hcases; [|left; exact Hdb].
  assert (Ha1 : article_by_link link (w_db w1) = Some a) by (rewrite Hdb; exact Ha).
  pose proof (save_article_db_existing title link (entry_published e)
                content source_id scraped_now w1 a Ha1) as Hsave.
  destruct (save_article _ _ _ _ _ _ w1) as [[v|err] w2]; simpl in Hsave |- *;
    rewrite Hsave; clear Hsave;
    destruct Hcases as [[err' H]|[(a' & c & _ & _ & H)|[(Hfull & H & _)|(_ & H & _)]]];
    try discriminate H; inversion H; subst;
    try (left; exact Hdb);
    right; (split; [exact Hfull|]); rewrite Hdb, Hnow; reflexivity.
Qed.

(** X7.  For an entry with a title and a link that is not in the store,
    ingestion requests the page once and inserts the article: title,
    link and published of the entry, the text of the page or, when the
    page gave nothing, the text of the feed, and the current time as
    [scraped_at].  For an entry without title, or without link, it
    raises feedparser's AttributeError and leaves the world as it
    was. *)
Theorem process_entry_new_link (source_id : option Z) (e : entry) (w : world) :
  (forall title link,
     e_title e = Some title -> e_link e = Some link ->
     article_by_link link (w_db w) = None ->
     let w' := snd (process_entry source_id e w) in
     fst (process_entry source_id e w) = Return tt
     /\ w_net w' = (w_net w ++ [link])%list
     /\ article_by_link link (w_db w')
        = Some (mkArticle
                  (next_rowid art_id (seq_articles (w_db w)) (articles (w_db w)))
                  (Some title) (Some link) (Some (entry_published e))
                  (Some (if String.eqb (page_text link) ""
                         then feed_text e else page_text link))
                  (Some (isoformat (w_now w))) source_id))
  /\ (e_title e = None \/ e_link e = None ->
      exists name,
        (name = "title" \/ name = "link")
        /\ process_entry source_id e w
           = (Raise ("object has no attribute '" ++ name ++ "'"), w)).
Proof.
  split; [|apply process_entry_raises].
  intros title link Ht Hl Hnew w'. unfold w'.
  rewrite (process_entry_run _ _ _ title link Ht Hl).
  assert (Hres : exists records,
             resolve_content link e w
             = (Return (if String.eqb (page_text link) ""
                        then feed_text e else page_text link,
                        negb (String.eqb (page_text link) "")),
                mkWorld (w_db w) (w_log w ++ records) (w_net w ++ [link])
                        (w_fs w) (w_now w))).
  { unfold resolve_content. unfold bind at 1. unfold query at 1.
    unfold select_content_scraped_at. rewrite Hnew. simpl.
    unfold bind at 1. unfold ret at 1. unfold bind at 1.
    destruct (fetch_full_article_run link w) as [records Hrun].
    rewrite Hrun. exists records.
    destruct (String.eqb (page_text link) ""); reflexivity. }
  destruct Hres as [records Hres]. rewrite Hres.
  match goal with
  | |- context [save_article ?t ?l ?p ?c ?s ?b ?w1] =>
      pose proof (save_article_returns t l p c s b w1) as Hret;
      pose proof (save_article_db_new t l p c s b w1 Hnew) as Hdb;
      pose proof (save_article_keeps_clock t l p c s b w1) as Hclock;
      assert (Hnet : w_net (snd (save_article t l p c s b w1)) = w_net w1);
      [|destruct (save_article t l p c s b w1) as [[v|err] w2]]
  end.
  { unfold save_article, save_article_body, select_article_id. unfold_M. simpl.
    destruct (insert_article _ _ _ _ _ _ _) as [[db2 id]|]; simpl; [reflexivity|].
    destruct (negb _); simpl; destruct (option_map _ _); reflexivity. }
  - simpl in *. split; [reflexivity|]. split; [exact Hnet|].
    rewrite Hdb. unfold article_by_link. simpl.
    apply find_app_new; [exact Hnew|apply text_is_refl].
  - simpl in Hret. discriminate Hret.
Qed.

(* ---------------------------------------------------------------- *)
(** ** A whole ingestion run *)

Lemma for_each_returns {A : Type} (Q : world -> Prop) (body : A -> M unit)
    (l : list A) :
  (forall x w, In x l -> Q w ->
               fst (body x w) = Return tt /\ Q (snd (body x w))) ->
  forall w, Q w ->
            fst (for_each l body w) = Return tt /\ Q (snd (for_each l body w)).
Proof.
  induction l as [|x l IH]; intros Hbody w Hw; simpl.
  - split; [reflexivity|exact Hw].
  - unfold bind. destruct (Hbody x w (or_introl eq_refl) Hw) as [Hret HQ].
    destruct (body x w) as [[u|err] w1]; simpl in Hret, HQ; [|discriminate Hret].
    apply IH; [|exact HQ]. intros y w2 Hy. apply Hbody. right. exact Hy.
Qed.

(** Fetching the feeds only writes the log, whatever the window does. *)
Lemma fetch_one_frame (progress_win : option window) (idx total : Z)
    (url : string) (feeds : list feed_doc) (w : world) :
  w_db (snd (fetch_one progress_win idx total url feeds w)) = w_db w.
Proof.
  unfold fetch_one, fetch_failed, show_progress, update_progress_bar.
  destruct (feedparser_parse url) as [feed|err].
  - destruct (feed_bozo feed) as [err|]; unfold_M; simpl.
    + destruct progress_win as [win|]; simpl; [|reflexivity].
      destruct (win _ _ _); reflexivity.
    + destruct progress_win as [win|]; simpl; [|reflexivity].
      destruct (win idx total _); simpl; [|reflexivity].
      destruct (win idx total _); reflexivity.
  - unfold_M. simpl. destruct progress_win as [win|]; simpl; [|reflexivity].
    destruct (win _ _ _); reflexivity.
Qed.

Lemma fetch_loop_frame (progress_win : option window) (total : Z)
    (urls : list string) :
  forall (idx : Z) (feeds : list feed_doc) (w : world),
    w_db (snd (fetch_loop progress_win total idx urls feeds w)) = w_db w.
Proof.
  induction urls as [|url urls IH]; intros idx feeds w; simpl; [reflexivity|].
  unfold bind. pose proof (fetch_one_frame progress_win idx total url feeds w) as H1.
  destruct (fetch_one progress_win idx total url feeds w) as [[feeds'|err] w1];
    simpl in H1 |- *; [|exact H1].
  rewrite IH. exact H1.
Qed.

(** A property of the store that [save_source] and [save_article] keep
    is kept by the ingestion of an entry, of a feed, and by a whole run,
    also by a run that ends in an exception. *)
Section Keeps.

Variable P : database -> Prop.
Hypothesis P_save_source :
  forall name url w, P (w_db w) -> P (w_db (snd (save_source name url w))).
Hypothesis P_save_article :
  forall title link published content source_id scraped_now w,
    P (w_db w) ->
    P (w_db (snd (save_article title link published content source_id
                               scraped_now w))).

Lemma process_entry_keeps (source_id : option Z) (e : entry) (w : world) :
  P (w_db w) -> P (w_db (snd (process_entry source_id e w))).
Proof using P_save_article.
  intros HP.
  destruct (e_title e) as [title|] eqn:Ht.
  2:{ destruct (process_entry_raises source_id e w (or_introl Ht))
        as (name & _ & ->). exact HP. }
  destruct (e_link e) as [link|] eqn:Hl.
  2:{ destruct (process_entry_raises source_id e w (or_intror Hl))
        as (name & _ & ->). exact HP. }
  rewrite (process_entry_run _ _ _ title link Ht Hl).
  destruct (resolve_content_run link e w) as (Hdb & _).
  destruct (resolve_content link e w) as [[[content scraped_now]|err] w1];
    simpl in Hdb; [|simpl; rewrite Hdb; exact HP].
  rewrite <- Hdb in HP.
  pose proof (P_save_article title link (entry_published e) content
                source_id scraped_now w1 HP) as H2.
  destruct (save_article _ _ _ _ _ _ w1) as [[v|err] w2]; exact H2.
Qed.

Lemma process_feed_keeps (feed : feed_doc) (w : world) :
  P (w_db w) -> P (w_db (snd (process_feed feed w))).
Proof using P_save_source P_save_article.
  intros HP. unfold process_feed. unfold bind.
  pose proof (P_save_source (get_default (feed_title feed) "Unknown Source")
                (get_default (feed_link feed) "Unknown URL") w HP) as H1.
  destruct (save_source _ _ w) as [[source_id|err] w1]; simpl in H1 |- *;
    [|exact H1].
  apply (for_each_invariant (fun w' => P (w_db w'))); [|exact H1].
  intros e w2 _ H2. apply process_entry_keeps. exact H2.
Qed.

Lemma process_feeds_keeps (read_feeds : list string)
    (progress_win : option window) (w : world) :
  P (w_db w) -> P (w_db (snd (process_feeds read_feeds progress_win w))).
Proof using P_save_source P_save_article.
  intros HP. unfold process_feeds, fetch_feeds. unfold bind.
  pose proof (fetch_loop_frame progress_win (Z.of_nat (List.length read_feeds))
                read_feeds 1 [] w) as H1.
  destruct (fetch_loop _ _ _ _ _ w) as [[feeds|err] w1]; simpl in H1 |- *;
    rewrite <- H1 in HP; [|exact HP].
  apply (for_each_invariant (fun w' => P (w_db w'))); [|exact HP].
  intros feed w2 _ H2. apply process_feed_keeps. exact H2.
Qed.

End Keeps.

Lemma kept_refl (a : article) (db : database) : In a (articles db) -> kept a db.
Proof. intros H. exists a. repeat split. exact H. Qed.

Lemma grows_trans (db1 db2 db3 : database) :
  grows db1 db2 -> grows db2 db3 -> grows db1 db3.
Proof.
  intros H12 H23 a Ha. destruct (H12 a Ha) as (b & Hb & E1 & E2 & E3 & E4).
  destruct (H23 b Hb) as (c & Hc & F1 & F2 & F3 & F4).
  exists c. repeat split; congruence.
Qed.

Lemma save_article_grows (title link published content : string)
    (source_id : option Z) (scraped_now : bool) (w : world) :
  grows (w_db w)
        (w_db (snd (save_article title link published content source_id
                                 scraped_now w))).
Proof.
  destruct (save_article_db_cases title link published content source_id
              scraped_now w) as [E|[E|[_ E]]]; rewrite E; intros a Ha.
  - apply kept_refl. exact Ha.
  - eexists. split.
    + unfold update_article. simpl. apply in_map. exact Ha.
    + destruct (text_is (art_link a) link); repeat split; reflexivity.
  - exists a. repeat split. simpl. apply in_or_app. left. exact Ha.
Qed.

(** X8.  An ingestion run never removes an article, and never changes
    the id, the link, the title or the published of one: whatever the
    feeds hold and however the run ends, every article of before is
    there after it with these four values. *)
Theorem process_feeds_never_removes (read_feeds : list string)
    (progress_win : option window) (w : world) :
  grows (w_db w) (w_db (snd (process_feeds read_feeds progress_win w))).
Proof.
  apply (process_feeds_keeps (fun db' => grows (w_db w) db')).
  - intros name url w1 H1 a Ha. destruct (H1 a Ha) as (b & Hb & E).
    exists b. split; [|exact E]. rewrite save_source_articles. exact Hb.
  - intros title link published content source_id scraped_now w1 H1.
    eapply grows_trans; [exact H1|apply save_article_grows].
  - intros a Ha. apply kept_refl. exact Ha.
Qed.

Lemma ids_bounded_save_article (title link published content : string)
    (source_id : option Z) (scraped_now : bool) (w : world) :
  ids_bounded (w_db w) ->
  ids_bounded
    (w_db (snd (save_article title link published content source_id scraped_now w))).
Proof.
  intros Hb.
  destruct (save_article_db_cases title link published content source_id
              scraped_now w) as [E|[E|[_ E]]]; rewrite E.
  - exact Hb.
  - intros a Ha. unfold update_article in Ha. simpl in Ha.
    apply in_map_iff in Ha. destruct Ha as (b & <- & Hin).
    specialize (Hb b Hin).
    destruct (text_is (art_link b) link); simpl; exact Hb.
  - intros a Ha. simpl in Ha. apply in_app_or in Ha. simpl.
    unfold next_rowid.
    destruct Ha as [Ha|[<-|[]]];
      [specialize (Hb a Ha); lia|simpl; unfold next_rowid; lia].
Qed.

Lemma ids_bounded_save_source (name url : string) (w : world) :
  ids_bounded (w_db w) -> ids_bounded (w_db (snd (save_source name url w))).
Proof.
  intros Hb. rewrite save_source_run.
  destruct (select_source_id url (w_db w)); exact Hb.
Qed.

(** X9.  An ingestion run keeps what the store is built on: the
    constraints of the schema, a timestamp on every row with content,
    and ids below the counter. *)
Theorem process_feeds_keeps_invariants (read_feeds : list string)
    (progress_win : option window) (w : world) :
  constraints (w_db w) /\ content_is_stamped (w_db w) /\ ids_bounded (w_db w) ->
  let db' := w_db (snd (process_feeds read_feeds progress_win w)) in
  constraints db' /\ content_is_stamped db' /\ ids_bounded db'.
Proof.
  apply (process_feeds_keeps
           (fun db => constraints db /\ content_is_stamped db /\ ids_bounded db)).
  - intros name url w1 (H1 & H2 & H3). split; [|split].
    + apply constraints_save_source. exact H1.
    + eapply every_article_same; [apply save_source_articles|exact H2].
    + apply ids_bounded_save_source. exact H3.
  - intros title link published content source_id scraped_now w1 (H1 & H2 & H3).
    split; [|split].
    + apply constraints_save_article. exact H1.
    + apply every_article_save_article; [exact stamped_of_written|exact H2].
    + apply ids_bounded_save_article. exact H3.
Qed.

Lemma resolve_content_returns (link : string) (e : entry) (w : world) :
  stamp_readable w link ->
  exists r, fst (resolve_content link e w) = Return r.
Proof.
  intros Hread. unfold resolve_content. unfold_M.
  destruct (needs_scraping_decides w link Hread)
    as [(c & stamp & _ & Hrow & Hneeds)|(_ & Hneeds)]; rewrite Hneeds.
  - rewrite Hrow. eexists. reflexivity.
  - destruct (fetch_full_article_run link w) as [records Hrun].
    rewrite Hrun. destruct (negb _); eexists; reflexivity.
Qed.

Lemma process_entry_returns (source_id : option Z) (e : entry) (w : world)
    (title link : string) :
  e_title e = Some title -> e_link e = Some link ->
  stamp_readable w link ->
  fst (process_entry source_id e w) = Return tt.
Proof.
  intros Ht Hl Hread. rewrite (process_entry_run _ _ _ title link Ht Hl).
  destruct (resolve_content_returns link e w Hread) as [[content scraped_now] Hres].
  destruct (resolve_content link e w) as [[r|err] w1]; simpl in Hres;
    [|discriminate Hres].
  inversion Hres; subst r.
  pose proof (save_article_returns title link (entry_published e)
                content source_id scraped_now w1) as Hret.
  destruct (save_article _ _ _ _ _ _ w1) as [[v|err] w2]; simpl in Hret;
    [reflexivity|discriminate Hret].
Qed.

Lemma readable_stamp (w : world) (link : string) :
  every_article readable (w_db w) -> stamp_readable w link.
Proof.
  intros Hinv a s Ha Hs Hne.
  apply find_some in Ha. destruct Ha as [Ha _]. exact (Hinv a Ha s Hs Hne).
Qed.

(** The rows that [save_article] writes carry the print of the clock. *)
Lemma readable_save_article (title link published content : string)
    (source_id : option Z) (scraped_now : bool) (w : world) :
  (exists t, dateutil_parse (isoformat (w_now w)) = Return t) ->
  every_article readable (w_db w) ->
  every_article readable
    (w_db (snd (save_article title link published content source_id
                             scraped_now w))).
Proof.
  intros Hnow Hinv.
  destruct (save_article_db_cases title link published content source_id
              scraped_now w) as [E|[E|[_ E]]]; cbv zeta in E; rewrite E.
  - exact Hinv.
  - intros a Ha. unfold update_article in Ha. simpl in Ha.
    apply in_map_iff in Ha. destruct Ha as (b & <- & Hb).
    destruct (text_is (art_link b) link); [|exact (Hinv b Hb)].
    intros s Hs _. simpl in Hs. inversion Hs. exact Hnow.
  - intros a Ha. simpl in Ha. apply in_app_or in Ha.
    destruct Ha as [Ha|[<-|[]]]; [exact (Hinv a Ha)|].
    intros s Hs _. simpl in Hs. inversion Hs. exact Hnow.
Qed.

Lemma process_entry_clock (source_id : option Z) (e : entry) (w : world) :
  w_now (snd (process_entry source_id e w)) = w_now w.
Proof.
  destruct (e_title e) as [title|] eqn:Ht.
  2:{ destruct (process_entry_raises source_id e w (or_introl Ht))
        as (name & _ & ->). reflexivity. }
  destruct (e_link e) as [link|] eqn:Hl.
  2:{ destruct (process_entry_raises source_id e w (or_intror Hl))
        as (name & _ & ->). reflexivity. }
  rewrite (process_entry_run _ _ _ title link Ht Hl).
  destruct (resolve_content_run link e w) as (_ & Hnow & _).
  destruct (resolve_content link e w) as [[[content scraped_now]|err] w1];
    simpl in Hnow; [|exact Hnow].
  pose proof (save_article_keeps_clock title link (entry_published e) content
                source_id scraped_now w1) as Hclock.
  destruct (save_article _ _ _ _ _ _ w1) as [[v|err] w2]; simpl in Hclock |- *;
    congruence.
Qed.

Lemma process_entry_readable (source_id : option Z) (e : entry) (w : world) :
  (exists t, dateutil_parse (isoformat (w_now w)) = Return t) ->
  every_article readable (w_db w) ->
  every_article readable (w_db (snd (process_entry source_id e w))).
Proof.
  intros Hnow Hinv.
  destruct (e_title e) as [title|] eqn:Ht.
  2:{ destruct (process_entry_raises source_id e w (or_introl Ht))
        as (name & _ & ->). exact Hinv. }
  destruct (e_link e) as [link|] eqn:Hl.
  2:{ destruct (process_entry_raises source_id e w (or_intror Hl))
        as (name & _ & ->). exact Hinv. }
  rewrite (process_entry_run _ _ _ title link Ht Hl).
  destruct (resolve_content_run link e w) as (Hdb & Hclock & _).
  destruct (resolve_content link e w) as [[[content scraped_now]|err] w1];
    simpl in Hdb, Hclock; [|simpl; rewrite Hdb; exact Hinv].
  rewrite <- Hdb in Hinv. rewrite <- Hclock in Hnow.
  pose proof (readable_save_article title link (entry_published e) content
                source_id scraped_now w1 Hnow Hinv) as H2.
  destruct (save_article _ _ _ _ _ _ w1) as [[v|err] w2]; exact H2.
Qed.

(** X10.  Without a progress window (or with one that draws), when every
    entry of the fetched feeds has a title and a link, and dateutil reads
    the timestamps of the store and the print of the current time, an
    ingestion run returns: no feed that fails and no page that fails
    makes it raise. *)
Theorem process_feeds_returns (read_feeds : list string)
    (progress_win : option window) (w : world) :
  draws progress_win ->
  entries_titled read_feeds ->
  (exists t, dateutil_parse (isoformat (w_now w)) = Return t) ->
  every_article readable (w_db w) ->
  fst (process_feeds read_feeds progress_win w) = Return tt.
Proof.
  intros Hdraw Htitled Hnow Hinv. unfold process_feeds, fetch_feeds. unfold bind.
  rewrite (fetch_loop_draws _ _ _ Hdraw). cbn [app].
  set (Q := fun w' : world =>
              w_now w' = w_now w /\ every_article readable (w_db w')).
  assert (Hstep : forall sid e w1,
             e_title e <> None /\ e_link e <> None -> Q w1 ->
             fst (process_entry sid e w1) = Return tt
             /\ Q (snd (process_entry sid e w1))).
  { intros sid e w1 [Ht Hl] [Hclock H1].
    destruct (e_title e) as [title|] eqn:Et; [|contradiction].
    destruct (e_link e) as [link|] eqn:El; [|contradiction].
    split; [|split].
    - apply (process_entry_returns sid e w1 title link Et El).
      apply readable_stamp. exact H1.
    - rewrite process_entry_clock. exact Hclock.
    - apply process_entry_readable; [rewrite Hclock; exact Hnow | exact H1]. }
  apply (for_each_returns Q); [|split; [reflexivity|exact Hinv]].
  intros feed w1 Hfeed H1. unfold process_feed. unfold bind.
  rewrite save_source_run.
  destruct (select_source_id _ (w_db w1)); simpl;
    apply (for_each_returns Q); try (exact H1);
    intros e w2 He H2; apply Hstep; try (exact H2);
    exact (Htitled feed e Hfeed He).
Qed.

(* ---------------------------------------------------------------- *)
(** ** The fetcher and a window that cannot be drawn *)

(** X11.  The isolation of failures ends at the progress bar: with a
    window on which drawing fails, the fetch raises the curses error at
    the first URL, after logging an error for that URL (also when its
    feed was fetched), and the other URLs are never tried. *)
Theorem fetch_feeds_window_fails (win : window) (e : string) (url : string)
    (rest : list string) (w : world) :
  never_draws win e ->
  fetch_feeds (url :: rest) (Some win) w
  = (Raise e,
     logged w (match parsed_ok url with
               | [] => [fetch_record url]
               | _ => [fetch_record url;
                       (ERROR, "Error fetching feed " ++ url ++ ": " ++ e)]
               end)).
Proof.
  intros Hwin. unfold fetch_feeds. cbn [fetch_loop]. unfold bind at 1.
  unfold fetch_one, fetch_failed, show_progress, update_progress_bar,
    parsed_ok, fetch_record.
  destruct (feedparser_parse url) as [feed|err].
  - destruct (feed_bozo feed) as [err|]; unfold_M; simpl.
    + rewrite Hwin. reflexivity.
    + rewrite !Hwin. simpl. unfold logged. simpl.
      rewrite <- app_assoc. reflexivity.
  - unfold_M. simpl. rewrite Hwin. reflexivity.
Qed.

(* ---------------------------------------------------------------- *)
(** ** The groups of an archival run *)

Lemma group_articles_grouped (old_articles : list archive_record) :
  forall (d : dict) (w : world),
  exists records,
    group_articles old_articles d w
    = (Return (grouped old_articles d), logged w records).
Proof.
  induction old_articles as [|r rest IH]; intros d w; simpl.
  - exists []. rewrite logged_nil. reflexivity.
  - unfold bind, group_article, key_of.
    destruct (rec_published r) as [p|].
    + destruct (dateutil_parse p) as [dt|err]; unfold_M; simpl.
      * destruct (IH (dict_append d (archive_key dt) r) w) as [records Hrun].
        exists records. exact Hrun.
      * match goal with
        | |- context [group_articles rest d ?w1] =>
            destruct (IH d w1) as [records Hrun]
        end.
        eexists. rewrite Hrun. unfold logged. simpl.
        rewrite <- app_assoc. reflexivity.
    + unfold_M. simpl.
      match goal with
      | |- context [group_articles rest d ?w1] =>
          destruct (IH d w1) as [records Hrun]
      end.
      eexists. rewrite Hrun. unfold logged. simpl.
      rewrite <- app_assoc. reflexivity.
Qed.

Lemma dict_append_keys (d : dict) (key : string) (r : archive_record) :
  map fst (dict_append d key r)
  = if existsb (String.eqb key) (map fst d) then map fst d
    else (map fst d ++ [key])%list.
Proof.
  induction d as [|[k rs] d IH]; simpl; [reflexivity|].
  rewrite (String.eqb_sym key k).
  destruct (String.eqb k key); simpl; [reflexivity|].
  rewrite IH. destruct (existsb _ _); reflexivity.
Qed.

Lemma dict_append_NoDup (d : dict) (key : string) (r : archive_record) :
  NoDup (map fst d) -> NoDup (map fst (dict_append d key r)).
Proof.
  intros H. rewrite dict_append_keys.
  destruct (existsb (String.eqb key) (map fst d)) eqn:E; [exact H|].
  apply NoDup_snoc; [exact H|]. intros Hin.
  assert (existsb (String.eqb key) (map fst d) = true).
  { apply existsb_exists. exists key. split; [exact Hin|apply String.eqb_refl]. }
  congruence.
Qed.

Lemma records_at_absent (d : dict) (k : string) :
  ~ In k (map fst d) -> records_at d k = [].
Proof.
  unfold records_at. induction d as [|[k0 rs] d IH]; simpl; intros H;
    [reflexivity|].
  destruct (String.eqb_spec k0 k) as [->|Hne].
  - exfalso. apply H. left. reflexivity.
  - apply IH. intros Hin. apply H. right. exact Hin.
Qed.

Lemma dict_append_records_at (d : dict) (key k : string) (r : archive_record) :
  NoDup (map fst d) ->
  records_at (dict_append d key r) k
  = if String.eqb key k then (records_at d k ++ [r])%list else records_at d k.
Proof.
  induction d as [|[k0 rs] d IH]; simpl; intros Hnd.
  - unfold records_at. simpl. destruct (String.eqb key k); reflexivity.
  - inversion Hnd as [|? ? Hnotin Hnd']; subst.
    destruct (String.eqb_spec k0 key) as [->|Hne].
    + unfold records_at. simpl. fold (records_at d k).
      destruct (String.eqb_spec key k) as [->|Hk]; [|reflexivity].
      rewrite (records_at_absent d k Hnotin), !app_nil_r. reflexivity.
    + unfold records_at. simpl. fold (records_at (dict_append d key r) k).
      fold (records_at d k). rewrite (IH Hnd').
      destruct (String.eqb key k); [|reflexivity].
      rewrite app_assoc. reflexivity.
Qed.

Lemma grouped_spec (old_articles : list archive_record) :
  forall d : dict,
    NoDup (map fst d) ->
    NoDup (map fst (grouped old_articles d))
    /\ (forall k, records_at (grouped old_articles d) k
                  = (records_at d k ++ filter (has_key k) old_articles)%list)
    /\ (forall k, In k (map fst (grouped old_articles d)) ->
                  In k (map fst d)
                  \/ exists r, In r old_articles /\ key_of r = Some k).
Proof.
  induction old_articles as [|r rest IH]; intros d Hnd; simpl.
  - split; [exact Hnd|]. split.
    + intros k. rewrite app_nil_r. reflexivity.
    + intros k Hk. left. exact Hk.
  - unfold grouped. simpl. fold (grouped rest).
    destruct (key_of r) as [key|] eqn:Ekey.
    + destruct (IH (dict_append d key r) (dict_append_NoDup d key r Hnd))
        as (H1 & H2 & H3).
      split; [exact H1|]. split.
      * intros k. rewrite H2, (dict_append_records_at d key k r Hnd).
        unfold has_key at 2. rewrite Ekey.
        destruct (String.eqb key k); simpl; [|reflexivity].
        rewrite <- app_assoc. reflexivity.
      * intros k Hk. destruct (H3 k Hk) as [Hin|(r' & Hr' & Hk')].
        -- rewrite dict_append_keys in Hin.
           destruct (existsb _ _); [left; exact Hin|].
           apply in_app_or in Hin. destruct Hin as [Hin|[<-|[]]];
             [left; exact Hin|].
           right. exists r. split; [left; reflexivity|exact Ekey].
        -- right. exists r'. split; [right; exact Hr'|exact Hk'].
    + destruct (IH d Hnd) as (H1 & H2 & H3).
      split; [exact H1|]. split.
      * intros k. rewrite H2. unfold has_key at 2. rewrite Ekey. reflexivity.
      * intros k Hk. destruct (H3 k Hk) as [Hin|(r' & Hr' & Hk')];
          [left; exact Hin|].
        right. exists r'. split; [right; exact Hr'|exact Hk'].
Qed.

(** With distinct keys, a group is the records at its key. *)
Lemma records_at_group (d : dict) (k : string) (rs : list archive_record) :
  NoDup (map fst d) -> In (k, rs) d -> records_at d k = rs.
Proof.
  induction d as [|[k0 rs0] d IH]; simpl; intros Hnd Hin; [contradiction|].
  inversion Hnd as [|? ? Hnotin Hnd']; subst.
  unfold records_at. simpl. fold (records_at d k).
  destruct Hin as [Heq|Hin].
  - inversion Heq; subst. rewrite String.eqb_refl.
    rewrite (records_at_absent d k Hnotin). apply app_nil_r.
  - destruct (String.eqb_spec k0 k) as [->|Hne].
    + exfalso. apply Hnotin. apply in_map_iff. exists (k, rs). split;
        [reflexivity|exact Hin].
    + apply IH; assumption.
Qed.

Lemma has_key_true (k : string) (r : archive_record) :
  has_key k r = true <-> key_of r = Some k.
Proof.
  unfold has_key. destruct (key_of r) as [k'|].
  - rewrite String.eqb_eq. split; congruence.
  - split; discriminate.
Qed.

(** The group of a dated record is in the dict, and it is the selected
    records of its key. *)
Lemma grouped_group (old_articles : list archive_record) (r : archive_record)
    (key : string) :
  In r old_articles -> key_of r = Some key ->
  In (key, filter (has_key key) old_articles) (grouped old_articles []).
Proof.
  intros Hr Hk.
  destruct (grouped_spec old_articles [] (NoDup_nil _)) as (Hnd & Hat & _).
  assert (Hin : In r (records_at (grouped old_articles []) key)).
  { rewrite Hat. simpl. apply filter_In. split; [exact Hr|].
    apply has_key_true. exact Hk. }
  unfold records_at in Hin. apply in_flat_map in Hin.
  destruct Hin as ([k0 g] & Hitem & Hrg). simpl in Hrg.
  destruct (String.eqb_spec k0 key) as [->|Hne]; [|contradiction].
  assert (Hfilter : records_at (grouped old_articles []) key
                    = filter (has_key key) old_articles)
    by (rewrite Hat; reflexivity).
  rewrite <- Hfilter, (records_at_group _ _ _ Hnd Hitem). exact Hitem.
Qed.

(** X12.  The grouping loop always returns and only logs.  The groups
    have distinct keys; the group of a key holds exactly the selected
    records that dateutil dates to that year and month, in the order of
    the selection; no group is empty, and a record that dateutil cannot
    date is in no group. *)
Theorem group_articles_partitions (old_articles : list archive_record)
    (w : world) :
  exists d records,
    group_articles old_articles [] w = (Return d, logged w records)
    /\ NoDup (map fst d)
    /\ (forall key group, In (key, group) d ->
                          group = filter (has_key key) old_articles
                          /\ group <> [])
    /\ (forall r key, In r old_articles -> key_of r = Some key ->
                      exists group, In (key, group) d /\ In r group).
Proof.
  destruct (group_articles_grouped old_articles [] w) as [records Hrun].
  exists (grouped old_articles []), records. split; [exact Hrun|].
  destruct (grouped_spec old_articles [] (NoDup_nil _)) as (Hnd & Hat & Hkeys).
  split; [exact Hnd|].
  assert (Hgroup : forall key group, In (key, group) (grouped old_articles []) ->
                     group = filter (has_key key) old_articles).
  { intros key group Hin.
    rewrite <- (records_at_group _ _ _ Hnd Hin). rewrite Hat. reflexivity. }
  assert (Hhas : forall r key, In r old_articles -> key_of r = Some key ->
                   In r (filter (has_key key) old_articles)).
  { intros r key Hr Hk. apply filter_In. split; [exact Hr|].
    apply has_key_true. exact Hk. }
  split; [|].
  - intros key group Hin. split; [exact (Hgroup key group Hin)|].
    assert (Hk : In key (map fst (grouped old_articles []))).
    { apply in_map_iff. exists (key, group). split; [reflexivity|exact Hin]. }
    destruct (Hkeys key Hk) as [[]|(r & Hr & Hkey)].
    rewrite (Hgroup key group Hin). intros Hempty.
    pose proof (Hhas r key Hr Hkey) as H. rewrite Hempty in H. exact H.
  - intros r key Hr Hk.
    assert (Hin : In r (records_at (grouped old_articles []) key)).
    { rewrite Hat. simpl. apply Hhas; assumption. }
    unfold records_at in Hin. apply in_flat_map in Hin.
    destruct Hin as ([k0 g] & Hitem & Hrg). simpl in Hrg.
    destruct (String.eqb_spec k0 key) as [->|Hne]; [|contradiction].
    exists g. split; assumption.
Qed.

(* ---------------------------------------------------------------- *)
(** ** The files of an archival run *)

Lemma append_assoc_str (a b c : string) : (a ++ b) ++ c = a ++ (b ++ c).
Proof. induction a as [|x a IH]; simpl; [reflexivity|]. rewrite IH. reflexivity. Qed.

Lemma no_slash_app (a b : string) :
  no_slash a = true -> no_slash b = true -> no_slash (a ++ b) = true.
Proof.
  induction a as [|x a IH]; simpl; intros Ha Hb; [exact Hb|].
  apply andb_true_iff in Ha. destruct Ha as [Hx Ha].
  rewrite Hx. simpl. apply IH; assumption.
Qed.

Lemma no_slash_uint (d : Decimal.uint) :
  no_slash (NilEmpty.string_of_uint d) = true.
Proof. induction d; simpl; try reflexivity; exact IHd. Qed.

Lemma no_slash_str (z : Z) : no_slash (str z) = true.
Proof.
  unfold str, NilZero.string_of_int, NilZero.string_of_uint.
  destruct (Z.to_int z) as [d|d]; destruct d; simpl; try reflexivity;
    apply no_slash_uint.
Qed.

Lemma no_slash_pad2 (z : Z) : no_slash (pad2 z) = true.
Proof.
  unfold pad2. destruct (z <? 10); [|apply no_slash_str].
  simpl. apply no_slash_str.
Qed.

Lemma split_slash_one (s : string) : no_slash s = true -> split_slash s = [s].
Proof.
  induction s as [|c s IH]; simpl; intros H; [reflexivity|].
  apply andb_true_iff in H. destruct H as [Hc Hs].
  apply negb_true_iff in Hc. rewrite Hc, (IH Hs). reflexivity.
Qed.

Lemma split_slash_two (a b : string) :
  no_slash a = true -> no_slash b = true ->
  split_slash (a ++ "/" ++ b) = [a; b].
Proof.
  induction a as [|c a IH]; simpl; intros Ha Hb.
  - rewrite (split_slash_one b Hb). reflexivity.
  - apply andb_true_iff in Ha. destruct Ha as [Hc Ha].
    apply negb_true_iff in Hc. rewrite Hc.
    simpl in IH. rewrite (IH Ha Hb). reflexivity.
Qed.

(** The key of a group always splits into a year and a month. *)
Lemma split_archive_key (pub_datetime : datetime) :
  split_slash (archive_key pub_datetime)
  = [str (year pub_datetime); pad2 (month pub_datetime)].
Proof.
  unfold archive_key. apply split_slash_two;
    [apply no_slash_str|apply no_slash_pad2].
Qed.

Lemma write_group_run (pub_datetime : datetime) (group : list archive_record)
    (w : world) :
  makedirs_error (ARCHIVE_DIR ++ "/" ++ archive_key pub_datetime) = None ->
  exists records,
    write_group (archive_key pub_datetime, group) w
    = (Return tt,
       mkWorld (w_db w) (w_log w ++ records) (w_net w)
               (w_fs w ++ group_events (w_now w) (archive_key pub_datetime, group))
               (w_now w)).
Proof.
  intros Hmk. unfold write_group. rewrite split_archive_key.
  change (ARCHIVE_DIR ++ "/" ++ str (year pub_datetime) ++ "/"
          ++ pad2 (month pub_datetime))
    with (ARCHIVE_DIR ++ "/" ++ archive_key pub_datetime).
  rewrite Hmk. unfold group_events, archive_file. simpl fst. simpl snd.
  unfold_M. cbv beta iota zeta. simpl w_now.
  repeat rewrite append_assoc_str.
  destruct (gzip_error _) as [err|]; simpl; eexists;
    rewrite <- app_assoc; reflexivity.
Qed.

Lemma write_groups_run (d : dict) :
  (forall path, makedirs_error path = None) ->
  (forall key, In key (map fst d) -> exists dt, key = archive_key dt) ->
  forall w : world,
  exists records,
    for_each d write_group w
    = (Return tt,
       mkWorld (w_db w) (w_log w ++ records) (w_net w)
               (w_fs w ++ flat_map (group_events (w_now w)) d) (w_now w)).
Proof.
  intros Hmk. induction d as [|[key group] d IH]; intros Hkeys w.
  - exists []. simpl. unfold ret. rewrite !app_nil_r. destruct w; reflexivity.
  - destruct (Hkeys key (or_introl eq_refl)) as [dt ->].
    destruct (write_group_run dt group w (Hmk _)) as [records1 Hrun1].
    cbn [for_each]. unfold bind. rewrite Hrun1.
    match goal with
    | |- context [for_each d write_group ?w1] =>
        destruct (IH (fun k Hk => Hkeys k (or_intror Hk)) w1) as [records2 Hrun2]
    end.
    rewrite Hrun2. simpl. exists (records1 ++ records2)%list.
    rewrite <- !app_assoc. reflexivity.
Qed.

Lemma grouped_keys (old_articles : list archive_record) (key : string) :
  In key (map fst (grouped old_articles [])) -> exists dt, key = archive_key dt.
Proof.
  intros Hk.
  destruct (grouped_spec old_articles [] (NoDup_nil _)) as (_ & _ & Hkeys).
  destruct (Hkeys key Hk) as [[]|(r & _ & Hr)].
  unfold key_of in Hr. destruct (rec_published r) as [p|]; [|discriminate].
  destruct (dateutil_parse p) as [dt|err]; [|discriminate].
  inversion Hr. exists dt. reflexivity.
Qed.

(** The run, when no directory fails. *)
Lemma archive_run_makedirs_ok (threshold_days : Z) (w : world) :
  (forall path, makedirs_error path = None) ->
  let old_articles :=
    select_old_articles (isoformat (w_now w - timedelta_days threshold_days))
                        (w_db w) in
  exists records,
    archive_old_articles threshold_days w
    = (Return tt,
       mkWorld (match old_articles with
                | [] => w_db w
                | _ => delete_articles (map rec_id old_articles) (w_db w)
                end)
               (w_log w ++ records) (w_net w)
               (w_fs w ++ flat_map (group_events (w_now w))
                                   (grouped old_articles []))
               (w_now w)).
Proof.
  intros Hmk old_articles. unfold archive_old_articles.
  unfold bind at 1. unfold utcnow at 1. unfold bind at 1. unfold query at 1.
  fold old_articles. clearbody old_articles.
  destruct old_articles as [|a rest].
  - unfold logging_info, logging. simpl.
    exists [(INFO, "Nessun articolo da archiviare.")].
    rewrite app_nil_r. reflexivity.
  - set (old := a :: rest).
    destruct (group_articles_grouped old [] w) as [records1 Hrun1].
    unfold bind at 1. rewrite Hrun1.
    destruct (write_groups_run (grouped old []) Hmk (grouped_keys old)
                (logged w records1)) as [records2 Hrun2].
    unfold bind at 1. rewrite Hrun2. unfold_M. simpl.
    eexists. rewrite <- !app_assoc. reflexivity.
Qed.

(** X13.  When no directory fails, the run returns, and every selected
    row that dateutil dates and whose file gzip can write is in the file
    of its group, which lies under [ARCHIVE_DIR/<year>/<month>], the
    month with two digits; that file holds the selected rows of that
    year and month and nothing else. *)
Theorem archive_writes_dated_rows (threshold_days : Z) (w : world) :
  (forall path, makedirs_error path = None) ->
  let old_articles :=
    select_old_articles (isoformat (w_now w - timedelta_days threshold_days))
                        (w_db w) in
  let run := archive_old_articles threshold_days w in
  fst run = Return tt
  /\ forall r published pub_datetime,
       In r old_articles ->
       rec_published r = Some published ->
       dateutil_parse published = Return pub_datetime ->
       let key := str (year pub_datetime) ++ "/" ++ pad2 (month pub_datetime) in
       gzip_error (archive_file key (w_now w)) = None ->
       In r (filter (has_key key) old_articles)
       /\ In (Written (archive_file key (w_now w))
                      (filter (has_key key) old_articles))
             (w_fs (snd run)).
Proof.
  intros Hmk old_articles run.
  destruct (archive_run_makedirs_ok threshold_days w Hmk) as [records Hrun].
  fold old_articles in Hrun. unfold run. rewrite Hrun.
  split; [reflexivity|].
  intros r published dt Hr Hpub Hparse. cbv zeta.
  set (key := str (year dt) ++ "/" ++ pad2 (month dt)). intros Hgzip.
  assert (Hkey : key_of r = Some key).
  { unfold key_of. rewrite Hpub, Hparse. reflexivity. }
  assert (Hin : In r (filter (has_key key) old_articles)).
  { apply filter_In. split; [exact Hr|]. apply has_key_true. exact Hkey. }
  split; [exact Hin|]. simpl w_fs. apply in_or_app. right.
  apply in_flat_map. exists (key, filter (has_key key) old_articles).
  split; [exact (grouped_group old_articles r key Hr Hkey)|].
  unfold group_events. simpl fst. simpl snd. rewrite Hgzip.
  right. left. reflexivity.
Qed.

(* ---------------------------------------------------------------- *)
(** ** What archival leaves alone *)

Lemma archive_raise_store (threshold_days : Z) (w : world) (err : string) :
  fst (archive_old_articles threshold_days w) = Raise err ->
  w_db (snd (archive_old_articles threshold_days w)) = w_db w.
Proof.
  unfold archive_old_articles. unfold_M. cbv beta iota.
  set (old := select_old_articles _ _). clearbody old.
  destruct old as [|a rest]; [discriminate|].
  set (old := a :: rest).
  destruct (group_articles_spec old [] w) as (d & w1 & Hrun & Hd & _).
  rewrite Hrun.
  pose proof (write_groups_spec d w1) as (Hd2 & _).
  destruct (for_each d write_group w1) as [[u|e] w2]; simpl in *.
  - discriminate.
  - intros _. congruence.
Qed.

(** X14.  Archival writes nothing but [articles], and there it only
    deletes: sources, tags and the associations of articles with tags
    stay as they are (also those of the articles it deletes), no row is
    added or changed, and a run that raises leaves the whole store as it
    was. *)
Theorem archive_only_deletes_articles (threshold_days : Z) (w : world) :
  let db := w_db w in
  let db' := w_db (snd (archive_old_articles threshold_days w)) in
  sources db' = sources db /\ tags db' = tags db
  /\ article_tags db' = article_tags db
  /\ seq_articles db' = seq_articles db
  /\ (forall a, In a (articles db') -> In a (articles db))
  /\ (forall err, fst (archive_old_articles threshold_days w) = Raise err ->
                  db' = db).
Proof.
  intros db db'.
  assert (Hraise : forall err,
             fst (archive_old_articles threshold_days w) = Raise err -> db' = db)
    by (intros err; apply archive_raise_store).
  unfold db', db in *.
  destruct (archive_db_cases threshold_days w) as [E|[ids E]]; rewrite E in *.
  - repeat split; try reflexivity; auto.
  - repeat split; try reflexivity; auto.
    intros a Ha. unfold delete_articles in Ha. simpl in Ha.
    apply filter_In in Ha. apply Ha.
Qed.

(** X15.  The batch entry point of archival never raises.  When the run
    inside it raised, the store is as it was and the error is in the
    log. *)
Theorem perform_archiving_returns (w : world) :
  fst (perform_archiving w) = Return tt
  /\ forall err,
       fst (archive_old_articles ARCHIVE_THRESHOLD_DAYS w) = Raise err ->
       w_db (snd (perform_archiving w)) = w_db w
       /\ In (ERROR, "Errore durante l'archiviazione: " ++ err)
             (w_log (snd (perform_archiving w))).
Proof.
  unfold perform_archiving. unfold_M.
  pose proof (archive_raise_store ARCHIVE_THRESHOLD_DAYS w) as Hraise.
  destruct (archive_old_articles ARCHIVE_THRESHOLD_DAYS w) as [[u|e] w1];
    simpl in *.
  - split; [reflexivity|]. intros err H. discriminate H.
  - split; [reflexivity|]. intros err H. inversion H; subst err.
    split; [exact (Hraise e eq_refl)|].
    apply in_or_app. right. left. reflexivity.
Qed.

(* ---------------------------------------------------------------- *)
(** ** Tags of an article *)

Lemma find_app_some {A : Type} (p : A -> bool) (l l' : list A) (x : A) :
  find p l = Some x -> find p (l ++ l') = Some x.
Proof.
  induction l as [|y l IH]; simpl; [discriminate|].
  destruct (p y); [trivial|exact IH].
Qed.

Lemma select_tag_id_inserted (t : string) (db : database) :
  exists tid, select_tag_id t (insert_or_ignore_tag t db) = Some tid.
Proof.
  unfold insert_or_ignore_tag, select_tag_id.
  destruct (existsb (fun x => text_is (tag_tag x) t) (tags db)) eqn:E.
  - simpl.
    destruct (find (fun x => text_is (tag_tag x) t) (tags db)) as [x|] eqn:F.
    + exists (tag_id x). reflexivity.
    + rewrite (find_none_existsb _ _ F) in E. discriminate.
  - simpl.
    rewrite (find_app_new (fun x => text_is (tag_tag x) t) (tags db)
               (mkTag (next_rowid tag_id (seq_tags db) (tags db)) (Some t))
               (find_existsb_none _ _ E) (text_is_refl t)).
    eexists. reflexivity.
Qed.

Lemma select_tag_id_stable (t t' : string) (db : database) (tid : Z) :
  select_tag_id t db = Some tid ->
  select_tag_id t (insert_or_ignore_tag t' db) = Some tid.
Proof.
  unfold insert_or_ignore_tag, select_tag_id. intros H.
  destruct (existsb _ (tags db)); [exact H|]. simpl.
  destruct (find (fun x => text_is (tag_tag x) t) (tags db)) as [x|] eqn:F;
    [|discriminate].
  rewrite (find_app_some _ _ _ _ F). exact H.
Qed.

Lemma pair_present (article_id tid : Z) (l : list article_tag) :
  existsb (fun x => (at_article_id x =? article_id) && (at_tag_id x =? tid)) l
  = true <-> In (mkArticleTag article_id tid) l.
Proof.
  rewrite existsb_exists. split.
  - intros ([a b] & Hin & Hx). simpl in Hx. apply andb_true_iff in Hx.
    destruct Hx as [Ha Hb]. apply Z.eqb_eq in Ha, Hb. subst. exact Hin.
  - intros Hin. eexists. split; [exact Hin|]. simpl.
    rewrite !Z.eqb_refl. reflexivity.
Qed.

Lemma add_tag_returns (article_id : Z) (t : string) (w : world) :
  fst (add_tag article_id t w) = Return tt.
Proof.
  unfold add_tag. unfold_M. simpl.
  destruct (select_tag_id t _); simpl; [|reflexivity].
  destruct (option_map _ _) as [[db' u]|]; reflexivity.
Qed.

(** After [add_tag] the tag has its row and the article is associated
    with it; what was tagged before still is. *)
Lemma add_tag_tagged (article_id : Z) (t : string) (w : world) :
  tagged (w_db (snd (add_tag article_id t w))) article_id t.
Proof.
  rewrite add_tag_db. cbv zeta.
  destruct (select_tag_id_inserted t (w_db w)) as [tid Hsel]. rewrite Hsel.
  unfold insert_article_tag.
  destruct (existsb _ (article_tags (insert_or_ignore_tag t (w_db w)))) eqn:E.
  - exists tid. split; [exact Hsel|]. apply pair_present. exact E.
  - exists tid. split; [exact Hsel|]. simpl. apply in_or_app. right. left.
    reflexivity.
Qed.

Lemma add_tag_keeps_tagged (article_id a : Z) (t t' : string) (w : world) :
  tagged (w_db w) a t' -> tagged (w_db (snd (add_tag article_id t w))) a t'.
Proof.
  intros (tid & Hsel & Hin). rewrite add_tag_db. cbv zeta.
  pose proof (select_tag_id_stable t' t (w_db w) tid Hsel) as Hsel1.
  assert (Hin1 : In (mkArticleTag a tid)
                    (article_tags (insert_or_ignore_tag t (w_db w)))).
  { unfold insert_or_ignore_tag. destruct (existsb _ _); exact Hin. }
  destruct (select_tag_id t (insert_or_ignore_tag t (w_db w))) as [tid0|];
    [|exists tid; split; assumption].
  unfold insert_article_tag. destruct (existsb _ _);
    [exists tid; split; assumption|].
  exists tid. split; [exact Hsel1|]. simpl. apply in_or_app. left. exact Hin1.
Qed.

Lemma add_tags_step (article_id : Z) (t : string) (ts : list string) (w : world) :
  add_tags article_id (t :: ts) w
  = add_tags article_id ts (snd (add_tag article_id t w)).
Proof.
  unfold add_tags. cbn [for_each]. unfold bind.
  pose proof (add_tag_returns article_id t w) as H.
  destruct (add_tag article_id t w) as [[u|e] w1]; simpl in H;
    [reflexivity|discriminate H].
Qed.

Lemma add_tags_keeps_tagged (article_id a : Z) (t' : string) (ts : list string) :
  forall w, tagged (w_db w) a t' ->
            tagged (w_db (snd (add_tags article_id ts w))) a t'.
Proof.
  induction ts as [|t ts IH]; intros w H; [exact H|].
  rewrite add_tags_step. apply IH. apply add_tag_keeps_tagged. exact H.
Qed.

Lemma add_tags_tagged (article_id : Z) (ts : list string) :
  forall w t, In t ts ->
              tagged (w_db (snd (add_tags article_id ts w))) article_id t.
Proof.
  induction ts as [|t0 ts IH]; intros w t Hin; [contradiction|].
  rewrite add_tags_step. destruct Hin as [->|Hin].
  - apply add_tags_keeps_tagged. apply add_tag_tagged.
  - apply IH. exact Hin.
Qed.

Lemma add_tags_returns (article_id : Z) (ts : list string) :
  forall w, fst (add_tags article_id ts w) = Return tt.
Proof.
  induction ts as [|t ts IH]; intros w; [reflexivity|].
  rewrite add_tags_step. apply IH.
Qed.

Lemma tagged_listed (db : database) (article_id : Z) (t : string) :
  tagged db article_id t -> In (Some t) (select_article_tags article_id db).
Proof.
  intros (tid & Hsel & Hin). unfold select_tag_id in Hsel.
  destruct (find (fun x => text_is (tag_tag x) t) (tags db)) as [x|] eqn:F;
    [|discriminate].
  simpl in Hsel. inversion Hsel; subst tid.
  apply find_some in F. destruct F as [Hx Htag]. apply text_is_true in Htag.
  unfold select_article_tags. apply in_flat_map. exists x. split; [exact Hx|].
  rewrite <- Htag. apply in_map_iff. eexists. split; [reflexivity|].
  apply filter_In. split; [exact Hin|]. simpl. rewrite !Z.eqb_refl. reflexivity.
Qed.

(** X16.  [add_tags] always returns, and afterwards every tag of the
    list is among the tags that the article view lists for the article;
    the tags that any article had before are still listed for it. *)
Theorem add_tags_listed (article_id : Z) (tags_to_add : list string) (w : world) :
  let db' := w_db (snd (add_tags article_id tags_to_add w)) in
  fst (add_tags article_id tags_to_add w) = Return tt
  /\ (forall t, In t tags_to_add ->
                In (Some t) (select_article_tags article_id db'))
  /\ (forall a t, tagged (w_db w) a t -> In (Some t) (select_article_tags a db')).
Proof.
  intros db'. split; [apply add_tags_returns|]. split.
  - intros t Ht. apply tagged_listed. apply add_tags_tagged. exact Ht.
  - intros a t Ht. apply tagged_listed. apply add_tags_keeps_tagged. exact Ht.
Qed.

(** An [add_tag] for a tag that the article has changes no row: it only
    advances the counter of [tags]. *)
Lemma add_tag_settled (article_id : Z) (t : string) (w : world) :
  tagged (w_db w) article_id t ->
  w_db (snd (add_tag article_id t w))
  = set_tags (w_db w) (tags (w_db w))
             (next_rowid tag_id (seq_tags (w_db w)) (tags (w_db w))).
Proof.
  intros (tid & Hsel & Hin). rewrite add_tag_db. cbv zeta.
  assert (Hsame : insert_or_ignore_tag t (w_db w)
                  = set_tags (w_db w) (tags (w_db w))
                      (next_rowid tag_id (seq_tags (w_db w)) (tags (w_db w)))).
  { unfold insert_or_ignore_tag, select_tag_id in *.
    destruct (find (fun x => text_is (tag_tag x) t) (tags (w_db w))) as [x|] eqn:F;
      [|discriminate].
    rewrite (find_existsb _ _ _ F). reflexivity. }
  rewrite Hsame.
  change (select_tag_id t (set_tags (w_db w) (tags (w_db w))
                             (next_rowid tag_id (seq_tags (w_db w)) (tags (w_db w)))))
    with (select_tag_id t (w_db w)).
  rewrite Hsel. unfold insert_article_tag. simpl article_tags.
  apply pair_present in Hin. rewrite Hin. reflexivity.
Qed.

Lemma max_id_nonneg {R : Type} (id : R -> Z) (l : list R) : 0 <= max_id id l.
Proof. induction l as [|x l IH]; simpl; lia. Qed.

Lemma max_id_snoc {R : Type} (id : R -> Z) (l : list R) (x : R) :
  max_id id (l ++ [x]) = Z.max (max_id id l) (id x).
Proof.
  induction l as [|y l IH]; simpl; [lia|].
  rewrite IH. pose proof (max_id_nonneg id l). lia.
Qed.

(** After an [add_tag] no tag has an id above the counter. *)
Lemma add_tag_bound (article_id : Z) (t : string) (w : world) :
  let db' := w_db (snd (add_tag article_id t w)) in
  max_id tag_id (tags db') <= seq_tags db'.
Proof.
  cbv zeta.
  assert (H : max_id tag_id (tags (insert_or_ignore_tag t (w_db w)))
              <= seq_tags (insert_or_ignore_tag t (w_db w))).
  { unfold insert_or_ignore_tag, next_rowid. cbv zeta.
    destruct (existsb _ _); simpl; [lia|].
    rewrite max_id_snoc. simpl. lia. }
  rewrite add_tag_db. cbv zeta.
  destruct (select_tag_id t (insert_or_ignore_tag t (w_db w))); [|exact H].
  unfold insert_article_tag. destruct (existsb _ _); exact H.
Qed.

Lemma add_tags_bound (article_id : Z) (ts : list string) (w : world) :
  ts <> [] ->
  let db' := w_db (snd (add_tags article_id ts w)) in
  max_id tag_id (tags db') <= seq_tags db'.
Proof.
  intros Hne. destruct ts as [|t ts]; [contradiction|]. cbv zeta.
  rewrite add_tags_step.
  apply (for_each_invariant
           (fun w' => max_id tag_id (tags (w_db w')) <= seq_tags (w_db w'))).
  - intros t' w1 _ _. apply add_tag_bound.
  - apply add_tag_bound.
Qed.

Lemma add_tags_settled (article_id : Z) (ts : list string) :
  forall w,
    max_id tag_id (tags (w_db w)) <= seq_tags (w_db w) ->
    (forall t, In t ts -> tagged (w_db w) article_id t) ->
    let db' := w_db (snd (add_tags article_id ts w)) in
    same_rows (w_db w) db'
    /\ seq_tags db' = seq_tags (w_db w) + Z.of_nat (List.length ts).
Proof.
  induction ts as [|t ts IH]; intros w Hbound H.
  - cbv zeta. simpl. unfold same_rows. repeat split; lia.
  - cbv zeta. rewrite add_tags_step.
    pose proof (add_tag_settled article_id t w (H t (or_introl eq_refl))) as E.
    set (w1 := snd (add_tag article_id t w)) in *.
    assert (Hseq : seq_tags (w_db w1) = seq_tags (w_db w) + 1)
      by (rewrite E; simpl; unfold next_rowid; lia).
    assert (Hrows : same_rows (w_db w) (w_db w1))
      by (rewrite E; unfold same_rows; simpl; repeat split).
    destruct (IH w1) as [Hsame Hcount].
    + rewrite E. simpl. unfold next_rowid. lia.
    + intros t' Ht'. destruct (H t' (or_intror Ht')) as (tid & Hsel & Hin).
      exists tid. rewrite E. split; [exact Hsel | exact Hin].
    + split.
      * unfold same_rows in *.
        destruct Hrows as (R1 & R2 & R3 & R4 & R5 & R6).
        destruct Hsame as (S1 & S2 & S3 & S4 & S5 & S6).
        repeat split; congruence.
      * rewrite Hcount, Hseq. simpl List.length. lia.
Qed.

(** X17.  Adding the same tags to the same article a second time, at any
    time, changes no row of any table and neither the counter of
    [sources] nor that of [articles]; the counter of [tags] advances by
    one for every tag of the list, since SQLite draws an id also for a
    row that INSERT OR IGNORE ignores. *)
Theorem add_tags_twice (article_id : Z) (tags_to_add : list string) (w : world)
    (t2 : datetime) :
  let w1 := snd (add_tags article_id tags_to_add w) in
  let db2 := w_db (snd (add_tags article_id tags_to_add (at_time t2 w1))) in
  same_rows (w_db w1) db2
  /\ seq_tags db2 = seq_tags (w_db w1) + Z.of_nat (List.length tags_to_add).
Proof.
  intros w1 db2.
  destruct tags_to_add as [|t ts].
  - unfold db2, w1. simpl. unfold same_rows. repeat split; lia.
  - apply (add_tags_settled article_id (t :: ts) (at_time t2 w1)).
    + unfold w1. simpl w_db. apply add_tags_bound. discriminate.
    + intros t' Ht'. unfold w1. simpl w_db. apply add_tags_tagged. exact Ht'.
Qed.

Lemma remove_tag_returns (article_id : Z) (t : string) (w : world) :
  fst (remove_tag article_id t w) = Return tt.
Proof.
  unfold remove_tag. unfold_M. simpl.
  destruct (select_tag_id t (w_db w)); reflexivity.
Qed.

Lemma remove_tags_step (article_id : Z) (t : string) (ts : list string)
    (w : world) :
  remove_tags article_id (t :: ts) w
  = remove_tags article_id ts (snd (remove_tag article_id t w)).
Proof.
  unfold remove_tags. cbn [for_each]. unfold bind.
  pose proof (remove_tag_returns article_id t w) as H.
  destruct (remove_tag article_id t w) as [[u|e] w1]; simpl in H;
    [reflexivity|discriminate H].
Qed.

Lemma filter_twice {A : Type} (f g : A -> bool) (l : list A) :
  filter f (filter g l) = filter (fun x => g x && f x) l.
Proof.
  induction l as [|x l IH]; simpl; [reflexivity|].
  destruct (g x); simpl; [|exact IH].
  destruct (f x); rewrite IH; reflexivity.
Qed.

Lemma existsb_same {A : Type} (f g : A -> bool) (l : list A) :
  (forall x, f x = g x) -> existsb f l = existsb g l.
Proof.
  intros H. induction l as [|x l IH]; simpl; [reflexivity|].
  rewrite H, IH. reflexivity.
Qed.

Lemma filter_all {A : Type} (f : A -> bool) (l : list A) :
  (forall x, In x l -> f x = true) -> filter f l = l.
Proof.
  induction l as [|x l IH]; simpl; intros H; [reflexivity|].
  rewrite (H x (or_introl eq_refl)), IH; [reflexivity|].
  intros y Hy. apply H. right. exact Hy.
Qed.

(** The store after [remove_tags]: the associations that were to be
    deleted are gone, everything else is as it was. *)
Lemma remove_tags_db (article_id : Z) (ts : list string) :
  forall w,
    let db := w_db w in
    let db' := w_db (snd (remove_tags article_id ts w)) in
    fst (remove_tags article_id ts w) = Return tt
    /\ tags db' = tags db /\ articles db' = articles db
    /\ sources db' = sources db
    /\ article_tags db'
       = filter (fun x => negb (removed_pair db article_id ts x)) (article_tags db).
Proof.
  induction ts as [|t ts IH]; intros w db db'.
  - unfold db', db. simpl. repeat split. symmetry. apply filter_all.
    intros x _. unfold removed_pair. simpl. rewrite andb_false_r. reflexivity.
  - unfold db', db. rewrite remove_tags_step.
    destruct (IH (snd (remove_tag article_id t w))) as (Hret & Htags & Harts & Hsrc & Hpairs).
    rewrite Hret, Htags, Harts, Hsrc, Hpairs. clear Hret Htags Harts Hsrc Hpairs.
    rewrite remove_tag_db.
    assert (Hsel : forall t' db1, tags db1 = tags (w_db w) ->
                     select_tag_id t' db1 = select_tag_id t' (w_db w)).
    { intros t' db1 E. unfold select_tag_id. rewrite E. reflexivity. }
    destruct (select_tag_id t (w_db w)) as [tid|] eqn:Et.
    + split; [reflexivity|]. repeat split.
      unfold delete_article_tag at 2. simpl article_tags.
      rewrite filter_twice. apply filter_ext. intros x.
      unfold removed_pair. simpl existsb. rewrite Et.
      assert (Hex : existsb (fun t0 => match select_tag_id t0
                                (delete_article_tag article_id tid (w_db w)) with
                              | Some tid0 => at_tag_id x =? tid0
                              | None => false
                              end) ts
                    = existsb (fun t0 => match select_tag_id t0 (w_db w) with
                              | Some tid0 => at_tag_id x =? tid0
                              | None => false
                              end) ts).
      { apply existsb_same. intros t0. rewrite (Hsel t0); reflexivity. }
      rewrite Hex.
      destruct (at_article_id x =? article_id); simpl; [|reflexivity].
      destruct (at_tag_id x =? tid); simpl; [reflexivity|].
      destruct (existsb _ ts); reflexivity.
    + split; [reflexivity|]. repeat split.
      apply filter_ext. intros x. unfold removed_pair. simpl existsb. rewrite Et.
      reflexivity.
Qed.

Lemma listed_iff_has_tag (db : database) (article_id : Z) (t : string) :
  In (Some t) (select_article_tags article_id db) <-> has_tag db article_id t.
Proof.
  unfold select_article_tags, has_tag. rewrite in_flat_map. split.
  - intros (x & Hx & Hin). apply in_map_iff in Hin.
    destruct Hin as ([a b] & Htag & Hpair). apply filter_In in Hpair.
    destruct Hpair as [Hpair Hq]. simpl in Hq. apply andb_true_iff in Hq.
    destruct Hq as [Hb Ha]. apply Z.eqb_eq in Ha, Hb. subst a b.
    exists x. repeat split; assumption.
  - intros (x & Hx & Htag & Hpair). exists x. split; [exact Hx|].
    rewrite <- Htag. apply in_map_iff. eexists. split; [reflexivity|].
    apply filter_In. split; [exact Hpair|]. simpl.
    rewrite !Z.eqb_refl. reflexivity.
Qed.

Lemma select_tag_id_row (t : string) (db : database) (tid : Z) :
  select_tag_id t db = Some tid ->
  exists y, In y (tags db) /\ tag_tag y = Some t /\ tag_id y = tid.
Proof.
  unfold select_tag_id. intros H.
  destruct (find (fun x => text_is (tag_tag x) t) (tags db)) as [y|] eqn:F;
    [|discriminate].
  apply find_some in F. destruct F as [Hy Htag]. apply text_is_true in Htag.
  simpl in H. inversion H. exists y. repeat split; assumption.
Qed.

Lemma select_tag_id_known (t : string) (db : database) (x : tag) :
  In x (tags db) -> tag_tag x = Some t ->
  exists tid, select_tag_id t db = Some tid.
Proof.
  intros Hx Htag. unfold select_tag_id.
  destruct (find (fun y => text_is (tag_tag y) t) (tags db)) as [y|] eqn:F.
  - eexists. reflexivity.
  - exfalso. pose proof (find_none _ _ F x Hx) as H. simpl in H.
    rewrite Htag, text_is_refl in H. discriminate H.
Qed.

(** X18.  On a store whose tags are keyed, [remove_tags] always
    returns and removes from the article exactly the tags of the list:
    afterwards the article view lists a tag for the article if and only
    if it listed it before and the tag is not in the list.  The tags of
    the other articles, and the table of tags itself, stay as they
    are. *)
Theorem remove_tags_unlists (article_id : Z) (tags_to_remove : list string)
    (w : world) :
  tags_keyed (w_db w) ->
  let db' := w_db (snd (remove_tags article_id tags_to_remove w)) in
  fst (remove_tags article_id tags_to_remove w) = Return tt
  /\ tags db' = tags (w_db w)
  /\ (forall t, In (Some t) (select_article_tags article_id db') <->
                In (Some t) (select_article_tags article_id (w_db w))
                /\ ~ In t tags_to_remove)
  /\ (forall a, a <> article_id ->
                select_article_tags a db' = select_article_tags a (w_db w)).
Proof.
  intros [Hpk Huniq] db'.
  destruct (remove_tags_db article_id tags_to_remove w)
    as (Hret & Htags & _ & _ & Hpairs).
  fold db' in Htags, Hpairs.
  split; [exact Hret|]. split; [exact Htags|]. split.
  - intros t. rewrite !listed_iff_has_tag. unfold has_tag.
    rewrite Htags, Hpairs. split.
    + intros (x & Hx & Htag & Hin). apply filter_In in Hin.
      destruct Hin as [Hin Hkeep]. apply negb_true_iff in Hkeep.
      split; [exists x; repeat split; assumption|].
      intros Ht. destruct (select_tag_id_known t (w_db w) x Hx Htag) as [tid Hsel].
      destruct (select_tag_id_row t (w_db w) tid Hsel) as (y & Hy & Hytag & Hid).
      assert (y = x) by (eapply Huniq; eassumption). subst y.
      unfold removed_pair in Hkeep. simpl in Hkeep. rewrite Z.eqb_refl in Hkeep.
      simpl in Hkeep.
      assert (Hex : existsb (fun t0 => match select_tag_id t0 (w_db w) with
                              | Some tid0 => tag_id x =? tid0
                              | None => false
                              end) tags_to_remove = true).
      { apply existsb_exists. exists t. split; [exact Ht|].
        rewrite Hsel, Hid. apply Z.eqb_refl. }
      congruence.
    + intros [(x & Hx & Htag & Hin) Hnot]. exists x. repeat split; try assumption.
      apply filter_In. split; [exact Hin|]. apply negb_true_iff.
      unfold removed_pair. simpl. rewrite Z.eqb_refl. simpl.
      destruct (existsb _ tags_to_remove) eqn:Hex; [|reflexivity].
      exfalso. apply existsb_exists in Hex. destruct Hex as (t0 & Ht0 & Hmatch).
      destruct (select_tag_id t0 (w_db w)) as [tid|] eqn:Hsel; [|discriminate].
      apply Z.eqb_eq in Hmatch.
      destruct (select_tag_id_row t0 (w_db w) tid Hsel) as (y & Hy & Hytag & Hid).
      assert (y = x).
      { eapply (NoDup_map_eq tag_id); eauto. congruence. }
      subst y. apply Hnot. congruence.
  - intros a Ha. unfold select_article_tags. rewrite Htags, Hpairs.
    apply flat_map_ext. intros x. f_equal. rewrite filter_twice.
    apply filter_ext. intros p. unfold removed_pair.
    destruct (at_article_id p =? a) eqn:E1; [|rewrite !andb_false_r; reflexivity].
    apply Z.eqb_eq in E1.
    destruct (Z.eqb_spec (at_article_id p) article_id) as [E2|E2];
      [exfalso; apply Ha; congruence|].
    reflexivity.
Qed.

(* ---------------------------------------------------------------- *)
(** ** Tagging and searching *)

Lemma select_tag_ids_known (l1 l2 : list string) (db : database) :
  (forall t, known_tag db t -> (In t l1 <-> In t l2)) ->
  select_tag_ids l1 db = select_tag_ids l2 db.
Proof.
  intros H. unfold select_tag_ids. f_equal. apply filter_ext_in.
  intros x Hx. destruct (tag_tag x) as [t|] eqn:Htag.
  - assert (Hk : known_tag db t) by (exists x; split; assumption).
    assert (Hiff : forall l, existsb (text_is (Some t)) l = true <-> In t l).
    { intros l. rewrite existsb_exists. split.
      - intros (t' & Ht' & Heq). apply text_is_true in Heq. congruence.
      - intros Hin. exists t. split; [exact Hin|apply text_is_refl]. }
    destruct (existsb (text_is (Some t)) l1) eqn:E1;
      destruct (existsb (text_is (Some t)) l2) eqn:E2; try reflexivity.
    + apply Hiff, (H t Hk), Hiff in E1. congruence.
    + apply Hiff, (H t Hk), Hiff in E2. congruence.
  - assert (Hnone : forall l, existsb (text_is None) l = false)
      by (induction l; simpl; auto).
    rewrite !Hnone. reflexivity.
Qed.

(** X19.  The search sees of its list only the tags that the store
    knows: two lists that are not empty and hold the same known tags
    give the same result.  So the order and the repetition of tags do
    not matter, and a tag that has no row in [tags] is left out of the
    search instead of making it empty. *)
Theorem search_sees_known_tags (l1 l2 : list string) (w : world) :
  l1 <> [] -> l2 <> [] ->
  (forall t, known_tag (w_db w) t -> (In t l1 <-> In t l2)) ->
  search_articles l1 w = search_articles l2 w.
Proof.
  intros H1 H2 H. unfold search_articles.
  destruct l1 as [|a1 l1]; [contradiction|].
  destruct l2 as [|a2 l2]; [contradiction|].
  unfold_M. rewrite (select_tag_ids_known _ _ _ H). reflexivity.
Qed.

Lemma search_articles_run (search_tags : list string) (w : world) :
  search_tags <> [] ->
  tags_known (w_db w) search_tags ->
  search_articles search_tags w
  = (Return (select_by_tag_ids (select_tag_ids search_tags (w_db w))
               (Z.of_nat (List.length (select_tag_ids search_tags (w_db w))))
               (w_db w)), w).
Proof.
  intros Hne Hknown. unfold search_articles.
  destruct search_tags as [|t0 rest] eqn:E; [contradiction|]. rewrite <- E in *.
  unfold_M.
  destruct (select_tag_ids search_tags (w_db w)) as [|i l] eqn:Eids;
    [|reflexivity].
  exfalso. destruct (Hknown t0) as (x & Hx & Htag); [rewrite E; left; reflexivity|].
  assert (Hi : In (tag_id x) (select_tag_ids search_tags (w_db w))).
  { apply in_select_tag_ids. exists x, t0. rewrite E. simpl. repeat split; auto. }
  rewrite Eids in Hi. destruct Hi.
Qed.

Lemma tagged_has_tag (db : database) (article_id : Z) (t : string) :
  tagged db article_id t -> has_tag db article_id t.
Proof.
  intros (tid & Hsel & Hin).
  destruct (select_tag_id_row t db tid Hsel) as (y & Hy & Htag & Hid).
  exists y. subst tid. repeat split; assumption.
Qed.

Lemma add_tags_tags_keyed (article_id : Z) (ts : list string) (w : world) :
  tags_keyed (w_db w) -> tags_keyed (w_db (snd (add_tags article_id ts w))).
Proof.
  intros H.
  apply (for_each_invariant (fun w' => tags_keyed (w_db w'))); [|exact H].
  intros t w1 _ H1. eapply tags_keyed_same; [apply add_tag_tags|].
  apply tags_keyed_insert. exact H1.
Qed.

Lemma add_tags_articles (article_id : Z) (ts : list string) (w : world) :
  articles (w_db (snd (add_tags article_id ts w))) = articles (w_db w).
Proof.
  apply (for_each_invariant
           (fun w' => articles (w_db w') = articles (w_db w))); [|reflexivity].
  intros t w1 _ H1. rewrite add_tag_articles. exact H1.
Qed.

(** X20.  What is tagged is found: after [add_tags] has given an
    article of the store a list of tags that is not empty, the search
    for that list returns the article. *)
Theorem search_finds_tagged_article (a : article) (tags_to_add : list string)
    (w : world) :
  tags_keyed (w_db w) ->
  In a (articles (w_db w)) ->
  tags_to_add <> [] ->
  let w1 := snd (add_tags (art_id a) tags_to_add w) in
  exists result,
    search_articles tags_to_add w1 = (Return result, w1)
    /\ In (row_of a) result.
Proof.
  intros Hkeyed Ha Hne w1.
  assert (Hkeyed1 : tags_keyed (w_db w1)) by (apply add_tags_tags_keyed; exact Hkeyed).
  assert (Htag : forall t, In t tags_to_add -> has_tag (w_db w1) (art_id a) t).
  { intros t Ht. apply tagged_has_tag. apply add_tags_tagged. exact Ht. }
  assert (Hknown : tags_known (w_db w1) tags_to_add).
  { intros t Ht. destruct (Htag t Ht) as (x & Hx & Hxt & _).
    exists x. split; assumption. }
  eexists. split; [apply search_articles_run; assumption|].
  unfold select_by_tag_ids. apply in_map. apply filter_In. split.
  - unfold w1. rewrite add_tags_articles. exact Ha.
  - apply (kept_by_having tags_to_add (w_db w1) a Hne Hknown Hkeyed1). exact Htag.
Qed.

(* ---------------------------------------------------------------- *)
(** ** The feeds file *)

Lemma lstrip_twice (s : string) : lstrip (lstrip s) = lstrip s.
Proof.
  induction s as [|c s IH]; simpl; [reflexivity|].
  destruct (isspace c) eqn:Hc; [exact IH|].
  simpl. rewrite Hc. reflexivity.
Qed.

Lemma rstrip_twice (s : string) : rstrip (rstrip s) = rstrip s.
Proof.
  induction s as [|c s IH]; simpl; [reflexivity|].
  destruct (rstrip s) as [|c' r] eqn:Hr.
  - destruct (isspace c) eqn:Hc; simpl; [reflexivity|].
    rewrite Hc. reflexivity.
  - change (rstrip (String c (String c' r)) = String c (String c' r)).
    change (rstrip (String c (String c' r)))
      with (match rstrip (String c' r) with
            | EmptyString => if isspace c then EmptyString else String c EmptyString
            | r0 => String c r0
            end).
    rewrite IH. reflexivity.
Qed.

Lemma rstrip_lstrip (s : string) : rstrip s = s -> rstrip (lstrip s) = lstrip s.
Proof.
  induction s as [|c s IH]; intros H; [reflexivity|].
  simpl. destruct (isspace c) eqn:Hc.
  - apply IH. simpl in H. rewrite Hc in H.
    destruct (rstrip s) as [|c' r]; [discriminate|].
    congruence.
  - exact H.
Qed.

Lemma strip_stripped (s : string) :
  lstrip (strip s) = strip s /\ rstrip (strip s) = strip s.
Proof.
  unfold strip. split.
  - apply lstrip_twice.
  - apply rstrip_lstrip, rstrip_twice.
Qed.

Lemma rstrip_space (s : string) (c : ascii) :
  isspace c = true -> rstrip (s ++ String c EmptyString) = rstrip s.
Proof.
  intros Hc. induction s as [|a s IH]; simpl.
  - rewrite Hc. reflexivity.
  - rewrite IH. reflexivity.
Qed.

Lemma strip_line (f : string) :
  lstrip f = f -> rstrip f = f -> strip (f ++ String LF EmptyString) = f.
Proof.
  intros Hl Hr. unfold strip.
  rewrite rstrip_space by reflexivity. rewrite Hr. exact Hl.
Qed.

Lemma no_break_cons (c : ascii) (s : string) :
  no_break (String c s) = negb (Ascii.eqb c LF || Ascii.eqb c CR) && no_break s.
Proof. unfold no_break. simpl. apply negb_orb. Qed.

Lemma no_break_lstrip (s : string) : no_break s = true -> no_break (lstrip s) = true.
Proof.
  induction s as [|c s IH]; intros H; [reflexivity|].
  simpl. destruct (isspace c); [|exact H].
  apply IH. rewrite no_break_cons in H.
  apply andb_true_iff in H. apply H.
Qed.

Lemma no_cr_cons (c : ascii) (s : string) :
  no_cr (String c s) = negb (Ascii.eqb c CR) && no_cr s.
Proof. unfold no_cr. simpl. apply negb_orb. Qed.

Lemma no_cr_universal_newlines (s : string) :
  forall pending, no_cr (universal_newlines pending s) = true.
Proof.
  induction s as [|c s IH]; intros pending; simpl; [reflexivity|].
  destruct (Ascii.eqb c CR) eqn:Hcr.
  - rewrite no_cr_cons, IH. reflexivity.
  - destruct (Ascii.eqb c LF) eqn:Hlf.
    + destruct pending; [apply IH|].
      rewrite no_cr_cons, IH. reflexivity.
    + rewrite no_cr_cons, IH, Hcr. reflexivity.
Qed.

Lemma universal_newlines_no_cr (s : string) :
  no_cr s = true -> universal_newlines false s = s.
Proof.
  induction s as [|c s IH]; intros H; simpl; [reflexivity|].
  rewrite no_cr_cons in H. apply andb_true_iff in H. destruct H as [Hc Hs].
  apply negb_true_iff in Hc. rewrite Hc.
  rewrite (IH Hs).
  destruct (Ascii.eqb c LF) eqn:Hlf; [|reflexivity].
  apply Ascii.eqb_eq in Hlf. subst c. reflexivity.
Qed.

Lemma readlines_no_break (s : string) :
  no_cr s = true ->
  forall line, In line (readlines s) -> no_break (rstrip line) = true.
Proof.
  induction s as [|c s IH]; intros H line Hin; simpl in Hin; [destruct Hin|].
  rewrite no_cr_cons in H. apply andb_true_iff in H. destruct H as [Hc Hs].
  apply negb_true_iff in Hc.
  destruct (Ascii.eqb c LF) eqn:Hlf.
  - destruct Hin as [<- | Hin]; [reflexivity | exact (IH Hs line Hin)].
  - assert (Hone : forall t, no_break t = true -> no_break (String c t) = true).
    { intros t Ht. rewrite no_break_cons, Hlf, Hc, Ht. reflexivity. }
    destruct (readlines s) as [|l0 rest] eqn:Hrd.
    + destruct Hin as [<- | []]. simpl.
      destruct (isspace c); [reflexivity | apply Hone; reflexivity].
    + destruct Hin as [<- | Hin].
      * simpl. pose proof (IH Hs l0 (or_introl eq_refl)) as H0.
        destruct (rstrip l0) as [|c' r];
          [destruct (isspace c); [reflexivity | apply Hone; reflexivity]|].
        apply Hone. exact H0.
      * apply (IH Hs). right. exact Hin.
Qed.

Lemma stripped_lines_clean (raw f : string) : In f (stripped_lines raw) -> clean f.
Proof.
  unfold stripped_lines. intros Hin.
  apply filter_In in Hin. destruct Hin as [Hin Hne].
  apply in_map_iff in Hin. destruct Hin as [line [<- Hline]].
  split; [|split; [|split]].
  - intros Heq. rewrite Heq in Hne. discriminate.
  - apply strip_stripped.
  - apply strip_stripped.
  - unfold strip. apply no_break_lstrip.
    apply (readlines_no_break (universal_newlines false raw)); [|exact Hline].
    apply no_cr_universal_newlines.
Qed.

Lemma concat_lines_cons (x : string) (xs : list string) :
  String.concat "" (x :: xs) = x ++ String.concat "" xs.
Proof.
  destruct xs as [|y ys]; simpl; [|reflexivity].
  induction x as [|c x IH]; simpl; [reflexivity | rewrite <- IH; reflexivity].
Qed.

Lemma file_of_cons (f : string) (fs : list string) :
  file_of (f :: fs) = f ++ String LF (file_of fs).
Proof.
  unfold file_of. simpl map. rewrite concat_lines_cons.
  rewrite append_assoc_str. reflexivity.
Qed.

Lemma no_break_no_cr_app (f rest : string) :
  no_break f = true -> no_cr rest = true -> no_cr (f ++ String LF rest) = true.
Proof.
  induction f as [|c f IH]; intros Hf Hrest; simpl.
  - rewrite no_cr_cons, Hrest. reflexivity.
  - rewrite no_break_cons in Hf. apply andb_true_iff in Hf. destruct Hf as [Hc Hf].
    apply negb_true_iff, orb_false_iff in Hc.
    rewrite no_cr_cons, (IH Hf Hrest). destruct Hc as [_ ->]. reflexivity.
Qed.

Lemma no_cr_file_of (fs : list string) :
  (forall f, In f fs -> clean f) -> no_cr (file_of fs) = true.
Proof.
  induction fs as [|f fs IH]; intros H; [reflexivity|].
  rewrite file_of_cons. apply no_break_no_cr_app.
  - apply (H f). left. reflexivity.
  - apply IH. intros g Hg. apply H. right. exact Hg.
Qed.

Lemma readlines_line (f rest : string) :
  no_break f = true ->
  readlines (f ++ String LF rest) = (f ++ String LF EmptyString) :: readlines rest.
Proof.
  induction f as [|c f IH]; intros Hf; simpl; [reflexivity|].
  rewrite no_break_cons in Hf. apply andb_true_iff in Hf. destruct Hf as [Hc Hf].
  apply negb_true_iff, orb_false_iff in Hc. destruct Hc as [-> _].
  rewrite (IH Hf). reflexivity.
Qed.

Lemma stripped_lines_file_of (fs : list string) :
  (forall f, In f fs -> clean f) -> stripped_lines (file_of fs) = fs.
Proof.
  intros H. unfold stripped_lines.
  rewrite universal_newlines_no_cr by (apply no_cr_file_of; exact H).
  induction fs as [|f fs IH]; [reflexivity|].
  destruct (H f (or_introl eq_refl)) as [Hne [Hl [Hr Hb]]].
  rewrite file_of_cons, (readlines_line _ _ Hb).
  simpl map. rewrite (strip_line _ Hl Hr). simpl filter.
  destruct (String.eqb f "") eqn:Hf; [apply String.eqb_eq in Hf; contradiction|].
  simpl. f_equal. apply IH. intros g Hg. apply H. right. exact Hg.
Qed.

Lemma delete_feed_from_file_run (url raw : string) (w : world) :
  delete_feed_from_file url (Some raw) w
  = (Return (Some (file_of (filter (fun f => negb (String.eqb f url))
                                   (stripped_lines raw)))),
     logged w [(INFO, "Deleted feed from file: " ++ url)]).
Proof. reflexivity. Qed.

Lemma stripped_lines_deleted (url raw : string) :
  stripped_lines (file_of (filter (fun f => negb (String.eqb f url))
                                  (stripped_lines raw)))
  = filter (fun f => negb (String.eqb f url)) (stripped_lines raw).
Proof.
  apply stripped_lines_file_of. intros f Hf.
  apply filter_In in Hf. apply (stripped_lines_clean raw). apply Hf.
Qed.

Lemma universal_newlines_empty (s : string) :
  universal_newlines false s = "" -> s = "".
Proof.
  destruct s as [|c s]; [reflexivity|]. simpl.
  destruct (Ascii.eqb c CR); [discriminate|].
  destruct (Ascii.eqb c LF); discriminate.
Qed.

Lemma complete_universal_newlines (s : string) :
  complete s = true -> forall pending, complete (universal_newlines pending s) = true.
Proof.
  induction s as [|c s IH]; intros H pending; [reflexivity|].
  destruct s as [|c' s'].
  - simpl in H. simpl. rewrite H.
    replace (Ascii.eqb c CR) with false
      by (apply Ascii.eqb_eq in H; subst c; reflexivity).
    destruct pending; reflexivity.
  - assert (Hs : complete (String c' s') = true) by exact H.
    assert (Hstep : forall x p, (p = false \/ x = LF) ->
              complete (String x (universal_newlines p (String c' s'))) = true).
    { intros x p Hp.
      destruct (universal_newlines p (String c' s')) as [|y t] eqn:Hu.
      - destruct Hp as [-> | ->]; [|reflexivity].
        apply universal_newlines_empty in Hu. discriminate.
      - rewrite <- Hu.
        change (complete (String x (universal_newlines p (String c' s'))))
          with (match universal_newlines p (String c' s') with
                | EmptyString => Ascii.eqb x LF
                | _ => complete (universal_newlines p (String c' s'))
                end).
        rewrite Hu. rewrite <- Hu. apply IH. exact Hs. }
    change (universal_newlines pending (String c (String c' s')))
      with (if Ascii.eqb c CR then String LF (universal_newlines true (String c' s'))
            else if Ascii.eqb c LF then
              if pending then universal_newlines false (String c' s')
              else String LF (universal_newlines false (String c' s'))
            else String c (universal_newlines false (String c' s'))).
    destruct (Ascii.eqb c CR).
    + apply Hstep. right. reflexivity.
    + destruct (Ascii.eqb c LF).
      * destruct pending; [apply IH; exact Hs | apply Hstep; left; reflexivity].
      * apply Hstep. left. reflexivity.
Qed.

Lemma universal_newlines_app (a b : string) :
  complete a = true -> a <> "" ->
  forall pending,
    universal_newlines pending (a ++ b)
    = universal_newlines pending a ++ universal_newlines false b.
Proof.
  induction a as [|c a IH]; intros Hc Hne pending; [contradiction|].
  destruct a as [|c' a'].
  - simpl in Hc. simpl. rewrite Hc.
    replace (Ascii.eqb c CR) with false
      by (apply Ascii.eqb_eq in Hc; subst c; reflexivity).
    destruct pending; reflexivity.
  - assert (Hs : complete (String c' a') = true) by exact Hc.
    assert (IH' := IH Hs ltac:(discriminate)).
    change (String c (String c' a') ++ b) with (String c (String c' a' ++ b)).
    change (universal_newlines pending (String c (String c' a' ++ b)))
      with (if Ascii.eqb c CR then String LF (universal_newlines true (String c' a' ++ b))
            else if Ascii.eqb c LF then
              if pending then universal_newlines false (String c' a' ++ b)
              else String LF (universal_newlines false (String c' a' ++ b))
            else String c (universal_newlines false (String c' a' ++ b))).
    change (universal_newlines pending (String c (String c' a')))
      with (if Ascii.eqb c CR then String LF (universal_newlines true (String c' a'))
            else if Ascii.eqb c LF then
              if pending then universal_newlines false (String c' a')
              else String LF (universal_newlines false (String c' a'))
            else String c (universal_newlines false (String c' a'))).
    rewrite !IH'.
    destruct (Ascii.eqb c CR); [reflexivity|].
    destruct (Ascii.eqb c LF); [destruct pending|]; reflexivity.
Qed.

Lemma readlines_empty (s : string) : readlines s = [] -> s = "".
Proof.
  destruct s as [|c s]; [reflexivity|]. simpl.
  destruct (Ascii.eqb c LF); [discriminate|].
  destruct (readlines s); discriminate.
Qed.

Lemma readlines_app (a b : string) :
  complete a = true -> readlines (a ++ b) = (readlines a ++ readlines b)%list.
Proof.
  induction a as [|c a IH]; intros Hc; [reflexivity|].
  destruct a as [|c' a'].
  - simpl in Hc. simpl. rewrite Hc. reflexivity.
  - assert (Hs : complete (String c' a') = true) by exact Hc.
    change (String c (String c' a') ++ b) with (String c (String c' a' ++ b)).
    change (readlines (String c (String c' a' ++ b)))
      with (if Ascii.eqb c LF
            then String LF EmptyString :: readlines (String c' a' ++ b)
            else match readlines (String c' a' ++ b) with
                 | [] => [String c EmptyString]
                 | line :: rest => String c line :: rest
                 end).
    change (readlines (String c (String c' a')))
      with (if Ascii.eqb c LF
            then String LF EmptyString :: readlines (String c' a')
            else match readlines (String c' a') with
                 | [] => [String c EmptyString]
                 | line :: rest => String c line :: rest
                 end).
    rewrite (IH Hs).
    destruct (Ascii.eqb c LF); [reflexivity|].
    destruct (readlines (String c' a')) as [|l0 rest] eqn:Hrd;
      [apply readlines_empty in Hrd; discriminate | reflexivity].
Qed.

Lemma stripped_lines_app (a b : string) :
  complete a = true ->
  stripped_lines (a ++ b) = (stripped_lines a ++ stripped_lines b)%list.
Proof.
  intros Hc. destruct a as [|c a]; [reflexivity|].
  unfold stripped_lines.
  rewrite universal_newlines_app by (exact Hc || discriminate).
  rewrite readlines_app by (apply complete_universal_newlines; exact Hc).
  rewrite map_app, filter_app. reflexivity.
Qed.

Lemma stripped_lines_added (raw url : string) :
  clean url -> complete raw = true ->
  stripped_lines (raw ++ url ++ String LF EmptyString)
  = (stripped_lines raw ++ [url])%list.
Proof.
  intros Hu Hc. rewrite (stripped_lines_app _ _ Hc). f_equal.
  change (url ++ String LF EmptyString) with (file_of [url]).
  apply stripped_lines_file_of. intros f [<- | []]. exact Hu.
Qed.

Lemma add_feed_run (url : string) (file : option string) (w : world) :
  add_feed url file w
  = (Return (Some (get_default file "" ++ url ++ String LF EmptyString)),
     logged w [(INFO, "Added new feed: " ++ url)]).
Proof. reflexivity. Qed.

Lemma filter_absent (url : string) (l : list string) :
  ~ In url l -> filter (fun f => negb (String.eqb f url)) l = l.
Proof.
  induction l as [|x l IH]; intros H; [reflexivity|]. simpl.
  destruct (String.eqb x url) eqn:Hx.
  - apply String.eqb_eq in Hx. exfalso. apply H. left. exact Hx.
  - simpl. f_equal. apply IH. intros Hin. apply H. right. exact Hin.
Qed.

(** X21.  [read_feeds] returns, creating the file when it is missing
    (then with no feed), and leaves an existing file as it is; every feed
    it returns is not empty, has no white space at either end and no line
    break inside. *)
Theorem read_feeds_clean (file : option string) (w : world) :
  exists feeds log,
    read_feeds file w = (Return (feeds, Some (get_default file "")), logged w log)
    /\ (forall f, In f feeds -> clean f)
    /\ (file = None -> feeds = []).
Proof.
  destruct file as [raw|].
  - exists (stripped_lines raw). eexists. split; [|split].
    + unfold read_feeds. unfold_M. cbv beta iota zeta.
      unfold logged. simpl. reflexivity.
    + apply stripped_lines_clean.
    + discriminate.
  - exists []. eexists. split; [|split].
    + unfold read_feeds. unfold_M. cbv beta iota zeta.
      unfold logged. simpl. rewrite <- app_assoc. reflexivity.
    + intros f [].
    + reflexivity.
Qed.

(** X22.  [delete_feed_from_file] does nothing, and logs nothing, when
    the file is missing.  Otherwise the file it leaves holds, read back,
    the feeds of the old file without every line equal to [url], in
    their order. *)
Theorem delete_feed_from_file_filters (url : string) (w : world) :
  delete_feed_from_file url None w = (Return None, w)
  /\ forall raw, exists raw',
       delete_feed_from_file url (Some raw) w
       = (Return (Some raw'), logged w [(INFO, "Deleted feed from file: " ++ url)])
       /\ stripped_lines raw'
          = filter (fun f => negb (String.eqb f url)) (stripped_lines raw).
Proof.
  split; [reflexivity|]. intros raw. eexists. split.
  - apply delete_feed_from_file_run.
  - apply stripped_lines_deleted.
Qed.

(** X23.  When the feeds file is missing, empty or ends with a line
    feed, [add_feed] of a clean URL leaves a file that holds, read back,
    the old feeds followed by the URL (also when it was there
    already). *)
Theorem add_feed_appends (url : string) (file : option string) (w : world) :
  clean url ->
  complete (get_default file "") = true ->
  exists raw',
    add_feed url file w
    = (Return (Some raw'), logged w [(INFO, "Added new feed: " ++ url)])
    /\ stripped_lines raw'
       = (stripped_lines (get_default file "") ++ [url])%list.
Proof.
  intros Hu Hc. eexists. split.
  - apply add_feed_run.
  - apply stripped_lines_added; assumption.
Qed.

(** X24.  When the feeds file is missing, empty or ends with a line
    feed, and the URL is clean (not empty, no white space at either end,
    no line break inside) and not listed in the file, deleting the feed
    just after adding it gives back, read back, the feeds the file
    had. *)
Theorem add_feed_then_delete (url : string) (file : option string) (w : world) :
  clean url ->
  complete (get_default file "") = true ->
  ~ In url (stripped_lines (get_default file "")) ->
  exists added w1 left w2,
    add_feed url file w = (Return added, w1)
    /\ delete_feed_from_file url added w1 = (Return (Some left), w2)
    /\ stripped_lines left = stripped_lines (get_default file "").
Proof.
  intros Hu Hc Hnot.
  eexists. eexists. eexists. eexists. split; [apply add_feed_run|].
  split; [apply delete_feed_from_file_run|].
  rewrite stripped_lines_deleted, (stripped_lines_added _ _ Hu Hc).
  rewrite filter_app, (filter_absent _ _ Hnot). simpl.
  rewrite String.eqb_refl. simpl. apply app_nil_r.
Qed.

(* ---------------------------------------------------------------- *)
(** ** Tags typed in the interface *)

Lemma no_comma_cons (c : ascii) (s : string) :
  no_comma (String c s) = negb (Ascii.eqb c ","%char) && no_comma s.
Proof. unfold no_comma. simpl. apply negb_orb. Qed.

Lemma no_comma_lstrip (s : string) : no_comma s = true -> no_comma (lstrip s) = true.
Proof.
  induction s as [|c s IH]; intros H; [reflexivity|].
  simpl. destruct (isspace c); [|exact H].
  apply IH. rewrite no_comma_cons in H. apply andb_true_iff in H. apply H.
Qed.

Lemma no_comma_rstrip (s : string) : no_comma s = true -> no_comma (rstrip s) = true.
Proof.
  induction s as [|c s IH]; intros H; [reflexivity|].
  rewrite no_comma_cons in H. apply andb_true_iff in H. destruct H as [Hc Hs].
  simpl. specialize (IH Hs). destruct (rstrip s) as [|c' r].
  - destruct (isspace c); [reflexivity|]. rewrite no_comma_cons, Hc. reflexivity.
  - rewrite no_comma_cons, Hc, IH. reflexivity.
Qed.

Lemma split_comma_no_comma (s part : string) :
  In part (split_comma s) -> no_comma part = true.
Proof.
  revert part. induction s as [|c s IH]; intros part Hin; simpl in Hin.
  - destruct Hin as [<- | []]. reflexivity.
  - destruct (Ascii.eqb c ","%char) eqn:Hc.
    + destruct Hin as [<- | Hin]; [reflexivity | apply IH; exact Hin].
    + destruct (split_comma s) as [|p ps].
      * destruct Hin as [<- | []]. rewrite no_comma_cons, Hc. reflexivity.
      * destruct Hin as [<- | Hin].
        -- rewrite no_comma_cons, Hc. simpl. apply IH. left. reflexivity.
        -- apply IH. right. exact Hin.
Qed.

Lemma split_comma_plain (s : string) : no_comma s = true -> split_comma s = [s].
Proof.
  induction s as [|c s IH]; intros H; [reflexivity|].
  rewrite no_comma_cons in H. apply andb_true_iff in H. destruct H as [Hc Hs].
  apply negb_true_iff in Hc. simpl. rewrite Hc, (IH Hs). reflexivity.
Qed.

Lemma split_comma_app (s rest : string) :
  no_comma s = true ->
  split_comma (s ++ String ","%char rest) = s :: split_comma rest.
Proof.
  induction s as [|c s IH]; intros H; [reflexivity|].
  rewrite no_comma_cons in H. apply andb_true_iff in H. destruct H as [Hc Hs].
  apply negb_true_iff in Hc. simpl. rewrite Hc, (IH Hs). reflexivity.
Qed.

Lemma split_comma_joined (t : string) (ts : list string) :
  (forall x, In x (t :: ts) -> plain_tag x) ->
  split_comma (String.concat ", " (t :: ts))
  = t :: map (fun x => String " "%char x) ts.
Proof.
  revert t. induction ts as [|t2 ts IH]; intros t H.
  - apply split_comma_plain. apply (H t). left. reflexivity.
  - change (String.concat ", " (t :: t2 :: ts))
      with (t ++ String ","%char (String " "%char (String.concat ", " (t2 :: ts)))).
    rewrite split_comma_app by (apply (H t); left; reflexivity).
    f_equal.
    change (split_comma (String " "%char (String.concat ", " (t2 :: ts))))
      with (match split_comma (String.concat ", " (t2 :: ts)) with
            | [] => [String " "%char EmptyString]
            | part :: parts => String " "%char part :: parts
            end).
    rewrite IH by (intros x Hx; apply H; right; exact Hx).
    reflexivity.
Qed.

Lemma strip_plain (t : string) : plain_tag t -> strip t = t.
Proof. intros (_ & Hl & Hr & _). unfold strip. rewrite Hr. exact Hl. Qed.

Lemma strip_after_space (t : string) :
  plain_tag t -> strip (String " "%char t) = t.
Proof.
  intros (Hne & Hl & Hr & _). unfold strip. simpl rstrip. rewrite Hr.
  destruct t as [|c t]; [contradiction|]. exact Hl.
Qed.

Lemma typed_tags_plain (input t : string) : In t (typed_tags input) -> plain_tag t.
Proof.
  unfold typed_tags. intros Hin. apply filter_In in Hin. destruct Hin as [Hin Hne].
  apply in_map_iff in Hin. destruct Hin as (part & <- & Hpart).
  split; [|split; [|split]].
  - intros E. rewrite E in Hne. discriminate.
  - apply strip_stripped.
  - apply strip_stripped.
  - unfold strip. apply no_comma_lstrip, no_comma_rstrip.
    apply (split_comma_no_comma input). exact Hpart.
Qed.

(** X25.  The tags that the interface takes from a typed line are none
    empty, have no white space at either end and no comma inside; and
    the line that lists such tags with [', '] between them, as the tag
    editor shows the current tags, is read as these very tags. *)
Theorem typed_tags_of_joined (input : string) (ts : list string) :
  (forall t, In t (typed_tags input) -> plain_tag t)
  /\ ((forall t, In t ts -> plain_tag t) ->
      typed_tags (String.concat ", " ts) = ts).
Proof.
  split; [intros t; apply typed_tags_plain|].
  intros H. destruct ts as [|t ts]; [reflexivity|].
  unfold typed_tags. rewrite (split_comma_joined _ _ H).
  assert (Hkeep : forall x, plain_tag x -> negb (String.eqb x "") = true).
  { intros x (Hne & _). destruct (String.eqb x "") eqn:E; [|reflexivity].
    apply String.eqb_eq in E. contradiction. }
  simpl map. rewrite (strip_plain t) by (apply H; left; reflexivity).
  simpl filter. rewrite (Hkeep t) by (apply H; left; reflexivity).
  f_equal.
  assert (Hts : forall x, In x ts -> plain_tag x)
    by (intros x Hx; apply H; right; exact Hx).
  clear H. induction ts as [|t2 ts IH]; [reflexivity|].
  simpl map. rewrite (strip_after_space t2) by (apply Hts; left; reflexivity).
  simpl filter. rewrite (Hkeep t2) by (apply Hts; left; reflexivity).
  f_equal. apply IH. intros x Hx. apply Hts. right. exact Hx.
Qed.

(* ---------------------------------------------------------------- *)
(** ** Associations and the rows of [tags] *)

Lemma insert_or_ignore_tag_cases (t : string) (db : database) :
  insert_or_ignore_tag t db
  = set_tags db (tags db) (next_rowid tag_id (seq_tags db) (tags db))
  \/ insert_or_ignore_tag t db
     = set_tags db
         (tags db ++ [mkTag (next_rowid tag_id (seq_tags db) (tags db)) (Some t)])
         (next_rowid tag_id (seq_tags db) (tags db)).
Proof.
  unfold insert_or_ignore_tag. cbv zeta.
  destruct (existsb _ _); [left | right]; reflexivity.
Qed.

Lemma tag_ids_known_insert (t : string) (db : database) :
  tag_ids_known db -> tag_ids_known (insert_or_ignore_tag t db).
Proof.
  intros H. destruct (insert_or_ignore_tag_cases t db) as [-> | ->]; [exact H|].
  intros x Hx. simpl in *. rewrite map_app. apply in_or_app. left. apply H. exact Hx.
Qed.

Lemma tag_ids_known_add_tag (article_id : Z) (t : string) (w : world) :
  tag_ids_known (w_db w) -> tag_ids_known (w_db (snd (add_tag article_id t w))).
Proof.
  intros H. rewrite add_tag_db. cbv zeta.
  apply (tag_ids_known_insert t) in H.
  destruct (select_tag_id t (insert_or_ignore_tag t (w_db w))) as [tid|] eqn:Hsel;
    [|exact H].
  unfold insert_article_tag. destruct (existsb _ _); [exact H|].
  intros x Hx. simpl in *. apply in_app_or in Hx. destruct Hx as [Hx | [<- | []]].
  - apply H. exact Hx.
  - simpl. destruct (select_tag_id_row _ _ _ Hsel) as (y & Hy & _ & <-).
    apply in_map. exact Hy.
Qed.

Lemma tag_ids_known_remove_tag (article_id : Z) (t : string) (w : world) :
  tag_ids_known (w_db w) -> tag_ids_known (w_db (snd (remove_tag article_id t w))).
Proof.
  intros H. rewrite remove_tag_db.
  destruct (select_tag_id t (w_db w)) as [tid|]; [|exact H].
  intros x Hx. unfold delete_article_tag in *. simpl in *.
  apply filter_In in Hx. apply H. apply Hx.
Qed.

Lemma tag_ids_known_same (db db' : database) :
  tags db' = tags db -> article_tags db' = article_tags db ->
  tag_ids_known db -> tag_ids_known db'.
Proof. unfold tag_ids_known. intros -> ->. auto. Qed.

Lemma has_tag_tagged (db : database) (article_id : Z) (t : string) :
  tags_keyed db -> has_tag db article_id t -> tagged db article_id t.
Proof.
  intros [_ Huniq] (x & Hx & Htag & Hin).
  destruct (select_tag_id_known t db x Hx Htag) as [tid Hsel].
  destruct (select_tag_id_row t db tid Hsel) as (y & Hy & Hytag & Hid).
  assert (y = x) by (eapply Huniq; eassumption). subst y.
  exists tid. split; [exact Hsel|]. rewrite <- Hid. exact Hin.
Qed.

(** A tag that an article has after [add_tag] is one it had, or the one
    added to it. *)
Lemma add_tag_has_tag (article_id : Z) (t0 : string) (w : world) (a : Z)
    (t : string) :
  tags_keyed (w_db w) -> tag_ids_known (w_db w) ->
  has_tag (w_db (snd (add_tag article_id t0 w))) a t ->
  has_tag (w_db w) a t \/ (a = article_id /\ t = t0).
Proof.
  intros Hkeyed Hknown. rewrite add_tag_db. cbv zeta.
  pose proof (tags_keyed_insert t0 _ Hkeyed) as Hkeyed1.
  assert (Hold : has_tag (insert_or_ignore_tag t0 (w_db w)) a t ->
                 has_tag (w_db w) a t).
  { destruct (insert_or_ignore_tag_cases t0 (w_db w)) as [-> | ->];
      [intros H; exact H|].
    intros (x & Hx & Htag & Hin). simpl in Hx, Hin.
    apply in_app_or in Hx. destruct Hx as [Hx | [<- | []]].
    - exists x. repeat split; assumption.
    - exfalso. apply Hknown in Hin. simpl in Hin.
      exact (next_rowid_fresh tag_id _ _ Hin). }
  destruct (select_tag_id t0 (insert_or_ignore_tag t0 (w_db w))) as [tid|] eqn:Hsel;
    [|intros H; left; exact (Hold H)].
  unfold insert_article_tag. destruct (existsb _ _);
    [intros H; left; exact (Hold H)|].
  intros (x & Hx & Htag & Hin). simpl in Hx, Hin.
  apply in_app_or in Hin. destruct Hin as [Hin | [Heq | []]].
  - left. apply Hold. exists x. repeat split; assumption.
  - right. inversion Heq as [[Ha Hid]]. split; [reflexivity|].
    destruct (select_tag_id_row _ _ _ Hsel) as (y & Hy & Hytag & Hyid).
    assert (y = x).
    { apply (NoDup_map_eq tag_id (tags (insert_or_ignore_tag t0 (w_db w))));
        [apply Hkeyed1 | exact Hy | exact Hx | congruence]. }
    subst y. congruence.
Qed.

Lemma add_tags_has_tag (article_id : Z) (ts : list string) (a : Z) (t : string) :
  forall w,
    tags_keyed (w_db w) -> tag_ids_known (w_db w) ->
    (has_tag (w_db (snd (add_tags article_id ts w))) a t
     <-> has_tag (w_db w) a t \/ (a = article_id /\ In t ts)).
Proof.
  intros w Hkeyed Hknown. split.
  - revert w Hkeyed Hknown. induction ts as [|t0 ts IH]; intros w Hkeyed Hknown H.
    + left. exact H.
    + rewrite add_tags_step in H. apply IH in H.
      * destruct H as [H | [Ha Hin]].
        -- apply add_tag_has_tag in H; [|assumption|assumption].
           destruct H as [H | [Ha Ht]]; [left; exact H|].
           right. split; [exact Ha | left; symmetry; exact Ht].
        -- right. split; [exact Ha | right; exact Hin].
      * eapply tags_keyed_same; [apply add_tag_tags|].
        apply tags_keyed_insert. exact Hkeyed.
      * apply tag_ids_known_add_tag. exact Hknown.
  - intros [H | [-> Hin]]; apply tagged_has_tag.
    + apply add_tags_keeps_tagged. apply has_tag_tagged; assumption.
    + apply add_tags_tagged. exact Hin.
Qed.

Lemma remove_tags_has_tag (article_id : Z) (ts : list string) (w : world)
    (a : Z) (t : string) :
  tags_keyed (w_db w) ->
  (has_tag (w_db (snd (remove_tags article_id ts w))) a t
   <-> has_tag (w_db w) a t /\ ~ (a = article_id /\ In t ts)).
Proof.
  intros [Hpk Huniq].
  destruct (remove_tags_db article_id ts w) as (_ & Htags & _ & _ & Hpairs).
  cbv zeta in Htags, Hpairs.
  unfold has_tag. rewrite Htags, Hpairs. split.
  - intros (x & Hx & Htag & Hin). apply filter_In in Hin.
    destruct Hin as [Hin Hkeep]. apply negb_true_iff in Hkeep.
    split; [exists x; repeat split; assumption|].
    intros [-> Ht].
    destruct (select_tag_id_known t (w_db w) x Hx Htag) as [tid Hsel].
    destruct (select_tag_id_row t (w_db w) tid Hsel) as (y & Hy & Hytag & Hid).
    assert (y = x) by (eapply Huniq; eassumption). subst y.
    unfold removed_pair in Hkeep. simpl in Hkeep. rewrite Z.eqb_refl in Hkeep.
    simpl in Hkeep.
    assert (Hex : existsb (fun t0 => match select_tag_id t0 (w_db w) with
                            | Some tid0 => tag_id x =? tid0
                            | None => false
                            end) ts = true).
    { apply existsb_exists. exists t. split; [exact Ht|].
      rewrite Hsel, Hid. apply Z.eqb_refl. }
    congruence.
  - intros [(x & Hx & Htag & Hin) Hnot]. exists x. repeat split; try assumption.
    apply filter_In. split; [exact Hin|]. apply negb_true_iff.
    unfold removed_pair. simpl.
    destruct (a =? article_id) eqn:Ha; [|reflexivity]. simpl.
    apply Z.eqb_eq in Ha.
    destruct (existsb _ ts) eqn:Hex; [|reflexivity].
    exfalso. apply existsb_exists in Hex. destruct Hex as (t0 & Ht0 & Hmatch).
    destruct (select_tag_id t0 (w_db w)) as [tid|] eqn:Hsel; [|discriminate].
    apply Z.eqb_eq in Hmatch.
    destruct (select_tag_id_row t0 (w_db w) tid Hsel) as (y & Hy & Hytag & Hid).
    assert (y = x).
    { apply (NoDup_map_eq tag_id (tags (w_db w)));
        [exact Hpk | exact Hy | exact Hx | congruence]. }
    subst y. apply Hnot. split; [exact Ha|]. congruence.
Qed.

Lemma remove_tags_tag_ids_known (article_id : Z) (ts : list string) (w : world) :
  tag_ids_known (w_db w) ->
  tag_ids_known (w_db (snd (remove_tags article_id ts w))).
Proof.
  intros H.
  apply (for_each_invariant (fun w' => tag_ids_known (w_db w'))); [|exact H].
  intros t w1 _ H1. apply tag_ids_known_remove_tag. exact H1.
Qed.

Lemma add_tags_tag_ids_known (article_id : Z) (ts : list string) (w : world) :
  tag_ids_known (w_db w) ->
  tag_ids_known (w_db (snd (add_tags article_id ts w))).
Proof.
  intros H.
  apply (for_each_invariant (fun w' => tag_ids_known (w_db w'))); [|exact H].
  intros t w1 _ H1. apply tag_ids_known_add_tag. exact H1.
Qed.

Lemma remove_tags_tags_keyed (article_id : Z) (ts : list string) (w : world) :
  tags_keyed (w_db w) -> tags_keyed (w_db (snd (remove_tags article_id ts w))).
Proof.
  intros H. destruct (remove_tags_db article_id ts w) as (_ & Htags & _).
  eapply tags_keyed_same; [exact Htags | exact H].
Qed.

Lemma remove_tags_returns (article_id : Z) (ts : list string) (w : world) :
  fst (remove_tags article_id ts w) = Return tt.
Proof. apply (remove_tags_db article_id ts w). Qed.

(** What [edit_tags_ui] does to the store is [remove_tags] for the first
    line, when it names a tag, and then [add_tags] for the second, when
    it names one. *)
Lemma edit_tags_ui_run (remove_input add_input : string) (article_id : Z)
    (w : world) :
  fst (edit_tags_ui remove_input add_input article_id w) = Return tt
  /\ w_db (snd (edit_tags_ui remove_input add_input article_id w))
     = w_db (snd (add_tags article_id (typed_tags add_input)
                    (snd (remove_tags article_id (typed_tags remove_input) w)))).
Proof.
  set (rem := typed_tags remove_input). set (add := typed_tags add_input).
  assert (Hrem : exists w1,
            match rem with [] => ret tt | _ => remove_tags article_id rem end w
            = (Return tt, w1)
            /\ w1 = snd (remove_tags article_id rem w)).
  { destruct rem as [|r rem'].
    - exists w. split; reflexivity.
    - pose proof (remove_tags_returns article_id (r :: rem') w) as Hret.
      destruct (remove_tags article_id (r :: rem') w) as [[[]|e] w1] eqn:E;
        simpl in Hret; [|discriminate].
      exists w1. split; reflexivity. }
  destruct Hrem as (w1 & Hrun1 & Hw1).
  assert (Hadd : exists w2,
            match add with [] => ret tt | _ => add_tags article_id add end w1
            = (Return tt, w2)
            /\ w2 = snd (add_tags article_id add w1)).
  { destruct add as [|a add'].
    - exists w1. split; reflexivity.
    - pose proof (add_tags_returns article_id (a :: add') w1) as Hret.
      destruct (add_tags article_id (a :: add') w1) as [[[]|e] w2] eqn:E;
        simpl in Hret; [|discriminate].
      exists w2. split; reflexivity. }
  destruct Hadd as (w2 & Hrun2 & Hw2).
  assert (Hrun : exists log,
            edit_tags_ui remove_input add_input article_id w
            = (Return tt, logged w2 log)).
  { eexists. unfold edit_tags_ui. cbv zeta. fold rem add.
    unfold bind at 1. rewrite Hrun1. unfold bind at 1. rewrite Hrun2.
    reflexivity. }
  destruct Hrun as (log & Hrun). rewrite Hrun, <- Hw1, <- Hw2.
  split; reflexivity.
Qed.

(** X26.  On a store whose tags are keyed and whose associations refer
    to rows of [tags], [edit_tags_ui] returns, and afterwards the article
    has a tag exactly when the tag was typed on the line of the tags to
    add, or the article had it and it was not typed on the line of the
    tags to remove; a tag typed on both lines is kept.  The tags of the
    other articles stay as they are. *)
Theorem edit_tags_ui_sets_tags (remove_input add_input : string)
    (article_id : Z) (w : world) :
  tags_keyed (w_db w) -> tag_ids_known (w_db w) ->
  let db' := w_db (snd (edit_tags_ui remove_input add_input article_id w)) in
  fst (edit_tags_ui remove_input add_input article_id w) = Return tt
  /\ (forall t,
        In (Some t) (select_article_tags article_id db')
        <-> In t (typed_tags add_input)
            \/ (In (Some t) (select_article_tags article_id (w_db w))
                /\ ~ In t (typed_tags remove_input)))
  /\ (forall a t, a <> article_id ->
        (In (Some t) (select_article_tags a db')
         <-> In (Some t) (select_article_tags a (w_db w)))).
Proof.
  intros Hkeyed Hknown db'.
  destruct (edit_tags_ui_run remove_input add_input article_id w) as [Hret Hdb].
  fold db' in Hdb. split; [exact Hret|].
  assert (Hall : forall a t,
            has_tag db' a t
            <-> (has_tag (w_db w) a t
                 /\ ~ (a = article_id /\ In t (typed_tags remove_input)))
                \/ (a = article_id /\ In t (typed_tags add_input))).
  { intros a t. rewrite Hdb.
    rewrite add_tags_has_tag
      by (apply remove_tags_tags_keyed || apply remove_tags_tag_ids_known;
          assumption).
    rewrite remove_tags_has_tag by exact Hkeyed. reflexivity. }
  split.
  - intros t. rewrite !listed_iff_has_tag, Hall. split.
    + intros [[H Hnot] | [_ H]]; [|left; exact H].
      right. split; [exact H|]. intros Hin. apply Hnot. split; [reflexivity|exact Hin].
    + intros [H | [H Hnot]]; [right; split; [reflexivity|exact H]|].
      left. split; [exact H|]. intros [_ Hin]. exact (Hnot Hin).
  - intros a t Ha. rewrite !listed_iff_has_tag, Hall. split.
    + intros [[H _] | [E _]]; [exact H | contradiction].
    + intros H. left. split; [exact H|]. intros [E _]. contradiction.
Qed.

(** X27.  The associations between articles and tags never refer to a
    tag that has no row: this holds of the empty store and is kept by
    every operation. *)
Theorem tag_ids_known_preserved (op : store_op) (w : world) :
  tag_ids_known empty_db
  /\ (tag_ids_known (w_db w) -> tag_ids_known (w_db (run_op op w))).
Proof.
  split; [intros x []|].
  intros H. destruct op; unfold run_op.
  - exact H.
  - rewrite save_source_run.
    destruct (select_source_id url (w_db w)); exact H.
  - exact H.
  - exact H.
  - destruct (save_article_db_cases title link published content source_id
                                    scraped_now w) as [E | [E | [_ E]]];
      cbv zeta in E; rewrite E; exact H.
  - destruct (archive_db_cases threshold_days w) as [E | [ids E]];
      rewrite E; exact H.
  - apply add_tags_tag_ids_known. exact H.
  - apply remove_tags_tag_ids_known. exact H.
Qed.

(* ---------------------------------------------------------------- *)
(** ** Adding a feed in the interface *)

Lemma add_feed_ui_run (typed : string) (file : option string) (w : world)
    (feed : feed_doc) :
  strip typed <> "" ->
  feedparser_parse (strip typed) = Return feed -> feed_bozo feed = None ->
  let feed_url := strip typed in
  let title := get_default (feed_title feed) "Unnamed Feed" in
  add_feed_ui typed file w
  = (Return (Some (get_default file "" ++ feed_url ++ String LF EmptyString)),
     logged (snd (save_source title feed_url w))
            [(INFO, "Added new feed: " ++ feed_url);
             (INFO, "New feed added via UI: " ++ title ++ " (" ++ feed_url ++ ")")]).
Proof.
  intros Hne Hparse Hbozo feed_url title.
  unfold add_feed_ui. cbv zeta. fold feed_url.
  destruct (String.eqb feed_url "") eqn:E;
    [apply String.eqb_eq in E; contradiction|].
  unfold attempt, bind at 1. unfold bind at 1. unfold lift at 1.
  unfold feed_url at 1. rewrite Hparse, Hbozo. fold feed_url. fold title.
  unfold bind at 1. rewrite save_source_run.
  destruct (select_source_id feed_url (w_db w)); cbv zeta;
    unfold bind, add_feed, logging_info, logging, ret, logged; simpl;
    rewrite <- app_assoc; reflexivity.
Qed.

(** X28.  When the feeds file is missing, empty or ends with a line
    feed, [add_feed_ui], for a typed line that holds a URL without line
    break which feedparser reads as a feed, registers the URL as a
    source and appends it to the feeds file: read back, the file lists
    the old feeds followed by the URL.  When the URL was registered
    already the store stays as it is, and the file still gets the
    line. *)
Theorem add_feed_ui_adds (typed : string) (file : option string) (w : world) :
  strip typed <> "" -> no_break (strip typed) = true ->
  complete (get_default file "") = true ->
  parses (strip typed) ->
  exists file' w',
    add_feed_ui typed file w = (Return (Some file'), w')
    /\ stripped_lines file'
       = (stripped_lines (get_default file "") ++ [strip typed])%list
    /\ (exists source_id, select_source_id (strip typed) (w_db w') = Some source_id)
    /\ (forall known, select_source_id (strip typed) (w_db w) = Some known ->
                      w_db w' = w_db w).
Proof.
  intros Hne Hbreak Hcomplete (feed & Hparse & Hbozo).
  eexists. eexists. split; [apply (add_feed_ui_run _ _ _ feed); assumption|].
  cbv zeta. split; [|split].
  - apply stripped_lines_added; [|exact Hcomplete].
    split; [exact Hne|]. split; [apply strip_stripped|].
    split; [apply strip_stripped | exact Hbreak].
  - rewrite save_source_run.
    destruct (select_source_id (strip typed) (w_db w)) as [i|] eqn:E.
    + exists i. exact E.
    + eexists. simpl. apply select_source_id_new. exact E.
  - intros known Hk. rewrite save_source_run, Hk. reflexivity.
Qed.

(** X29.  [add_feed_ui], for a blank line or for a URL that feedparser
    does not read as a feed, changes neither the store nor the feeds
    file and logs one error. *)
Theorem add_feed_ui_rejects (typed : string) (file : option string) (w : world) :
  strip typed = "" \/ ~ parses (strip typed) ->
  exists e,
    add_feed_ui typed file w
    = (Return file, logged w [(ERROR, "Error adding feed via UI: " ++ e)]).
Proof.
  intros H. unfold add_feed_ui. cbv zeta.
  destruct (String.eqb (strip typed) "") eqn:E.
  - eexists. reflexivity.
  - destruct H as [H | H]; [rewrite H in E; discriminate|].
    unfold attempt, bind at 1. unfold bind at 1. unfold lift at 1.
    destruct (feedparser_parse (strip typed)) as [feed|e] eqn:Hparse.
    + destruct (feed_bozo feed) as [e|] eqn:Hbozo.
      * eexists. reflexivity.
      * exfalso. apply H. exists feed. split; assumption.
    + eexists. reflexivity.
Qed.

(* ---------------------------------------------------------------- *)
(** ** The paged menus *)

Lemma ord_str_digit (k : Z) : 0 <= k <= 9 -> ord (str k) = Return (code "0" + k).
Proof.
  intros H.
  assert (Hk : k = 0 \/ k = 1 \/ k = 2 \/ k = 3 \/ k = 4 \/ k = 5 \/ k = 6
               \/ k = 7 \/ k = 8 \/ k = 9) by lia.
  repeat (destruct Hk as [-> | Hk]; [reflexivity|]). subst k. reflexivity.
Qed.

Lemma slice_page {A : Type} (items : list A) (start per_page : Z) :
  0 <= start -> 0 < per_page ->
  Z.of_nat (List.length (slice items start (start + per_page)))
  = Z.min (start + per_page) (Z.of_nat (List.length items))
    - Z.min start (Z.of_nat (List.length items))
  /\ forall i, 0 <= i < Z.of_nat (List.length (slice items start (start + per_page))) ->
               nth_error (slice items start (start + per_page)) (Z.to_nat i)
               = nth_error items (Z.to_nat (start + i)).
Proof.
  intros Hstart Hper. unfold slice, clamp. cbv zeta.
  destruct (Z.ltb_spec start 0) as [Hneg|_]; [lia|].
  destruct (Z.ltb_spec (start + per_page) 0) as [Hneg|_]; [lia|].
  split.
  - rewrite length_firstn, length_skipn. lia.
  - intros i Hi. rewrite length_firstn, length_skipn in Hi.
    rewrite nth_error_firstn.
    destruct (Nat.ltb_spec (Z.to_nat i)
                (Z.to_nat (Z.min (start + per_page) (Z.of_nat (List.length items))
                           - Z.min start (Z.of_nat (List.length items)))))
      as [_|Hge]; [|lia].
    rewrite nth_error_skipn. f_equal. lia.
Qed.

(** The turn of the loop, with the test on the digit worked out: the
    second test on the selection never fails. *)
Lemma menu_key_run {A : Type} (per_page : Z) (items : list A) (page key : Z) :
  0 < per_page -> 0 <= page ->
  let current := slice items (page * per_page) (page * per_page + per_page) in
  menu_key per_page items page key
  = if key =? code "q" then Return Quit
    else if (key =? code "n")
            && (page <? total_pages per_page (Z.of_nat (List.length items)) - 1)
    then Return (Turn (page + 1))
    else if (key =? code "p") && (page >? 0) then Return (Turn (page - 1))
    else if (code "1" <=? key)
            && (key <=? code "0" + Z.min 9 (Z.of_nat (List.length current)))
    then match nth_error items (Z.to_nat (page * per_page + (key - code "1"))) with
         | Some item => Return (Choose item)
         | None => Raise "list index out of range"
         end
    else Return Invalid.
Proof.
  intros Hper Hpage current. unfold menu_key. cbv zeta. fold current.
  destruct (key =? code "q"); [reflexivity|].
  destruct ((key =? code "n") && _); [reflexivity|].
  destruct ((key =? code "p") && _); [reflexivity|].
  rewrite ord_str_digit by lia.
  change (code "0") with 48. change (code "1") with 49.
  destruct (Z.leb_spec 49 key) as [H1|H1]; [|reflexivity].
  destruct (Z.leb_spec key (48 + Z.min 9 (Z.of_nat (List.length current))))
    as [H2|H2]; [|reflexivity].
  cbn [andb].
  destruct (Z.leb_spec 0 (key - 48 - 1)) as [_|H3]; [|lia].
  destruct (Z.ltb_spec (key - 48 - 1) (Z.of_nat (List.length current)))
    as [H4|H4]; [|lia].
  cbn [andb]. cbv iota.
  assert (Hpage' : 0 <= page * per_page) by nia.
  destruct (slice_page items (page * per_page) per_page Hpage' Hper) as [_ Hnth].
  fold current in Hnth. rewrite (Hnth (key - 48 - 1)) by lia.
  replace (page * per_page + (key - 48 - 1)) with (page * per_page + (key - 49))
    by lia.
  reflexivity.
Qed.

(** X30.  A turn of a paged menu, on a page that is not negative, always
    returns.  It chooses an item exactly when the key is the digit of
    one of the first nine lines of the page, and the item is the one on
    that line: in a menu with ten items to the page no key chooses the
    tenth.  A turn of the page leads from a page that shows an item to
    one that shows an item. *)
Theorem menu_key_chooses {A : Type} (per_page : Z) (items : list A)
    (page key : Z) :
  0 < per_page -> 0 <= page ->
  let current := slice items (page * per_page) (page * per_page + per_page) in
  (exists action, menu_key per_page items page key = Return action)
  /\ (forall item,
        menu_key per_page items page key = Return (Choose item)
        <-> exists i, 0 <= i < Z.min 9 (Z.of_nat (List.length current))
                      /\ key = code "1" + i
                      /\ nth_error items (Z.to_nat (page * per_page + i)) = Some item)
  /\ (forall page',
        on_page per_page items page ->
        menu_key per_page items page key = Return (Turn page') ->
        on_page per_page items page').
Proof.
  intros Hper Hpage current.
  assert (Hpage' : 0 <= page * per_page) by nia.
  destruct (slice_page items (page * per_page) per_page Hpage' Hper) as [Hlen _].
  fold current in Hlen.
  rewrite (menu_key_run per_page items page key Hper Hpage). cbv zeta.
  fold current. change (code "q") with 113. change (code "n") with 110.
  change (code "p") with 112. change (code "0") with 48. change (code "1") with 49.
  split; [|split].
  - destruct (key =? 113); [eexists; reflexivity|].
    destruct ((key =? 110) && _); [eexists; reflexivity|].
    destruct ((key =? 112) && _); [eexists; reflexivity|].
    destruct (Z.leb_spec 49 key) as [H1|H1]; [|eexists; reflexivity].
    destruct (Z.leb_spec key (48 + Z.min 9 (Z.of_nat (List.length current))))
      as [H2|H2]; [|eexists; reflexivity].
    cbn [andb]. cbv iota.
    destruct (nth_error items (Z.to_nat (page * per_page + (key - 49)))) eqn:E;
      [eexists; reflexivity|].
    exfalso. apply nth_error_None in E. lia.
  - intros item. split.
    + destruct (key =? 113); [discriminate|].
      destruct ((key =? 110) && _); [discriminate|].
      destruct ((key =? 112) && _); [discriminate|].
      destruct (Z.leb_spec 49 key) as [H1|H1]; [|discriminate].
      destruct (Z.leb_spec key (48 + Z.min 9 (Z.of_nat (List.length current))))
        as [H2|H2]; [|discriminate].
      cbn [andb]. cbv iota.
      destruct (nth_error items (Z.to_nat (page * per_page + (key - 49)))) eqn:E;
        [|discriminate].
      intros H. inversion H; subst. exists (key - 49).
      split; [lia|]. split; [lia | exact E].
    + intros (i & Hi & -> & Hnth).
      destruct (Z.eqb_spec (49 + i) 113) as [H|_]; [lia|].
      destruct (Z.eqb_spec (49 + i) 110) as [H|_]; [lia|].
      destruct (Z.eqb_spec (49 + i) 112) as [H|_]; [lia|].
      cbn [andb]. cbv iota.
      destruct (Z.leb_spec 49 (49 + i)) as [_|H]; [|lia].
      destruct (Z.leb_spec (49 + i) (48 + Z.min 9 (Z.of_nat (List.length current))))
        as [_|H]; [|lia].
      cbn [andb]. cbv iota.
      replace (49 + i - 49) with i by lia. rewrite Hnth. reflexivity.
  - intros page' [_ Hshown]. unfold on_page.
    destruct (key =? 113); [discriminate|].
    destruct (Z.eqb_spec key 110) as [Hn|_].
    + cbn [andb].
      destruct (Z.ltb_spec page
                  (total_pages per_page (Z.of_nat (List.length items)) - 1))
        as [Hlt|_].
      * intros H. inversion H; subst. unfold total_pages in Hlt.
        pose proof (Z.mul_div_le (Z.of_nat (List.length items) + per_page - 1)
                                 per_page Hper) as Hdiv.
        split; [lia | nia].
      * subst key. change (110 =? 112) with false.
        cbn [andb].
        destruct ((49 <=? 110) && _); [|discriminate].
        destruct (nth_error _ _); discriminate.
    + cbn [andb]. cbv iota.
      destruct (Z.eqb_spec key 112) as [Hp|_].
      * cbn [andb]. destruct (Z.gtb_spec page 0) as [Hgt|_].
        -- intros H. inversion H; subst. split; [lia | nia].
        -- subst key. cbn [andb].
           destruct ((49 <=? 112) && _); [|discriminate].
           destruct (nth_error _ _); discriminate.
      * cbn [andb]. cbv iota.
        destruct ((49 <=? key) && _); [|discriminate].
        destruct (nth_error _ _); discriminate.
Qed.

End Program.

(* ------------------------------------------------------------------ *)
(** ** The statements at concrete inputs *)


(** C1 (the code at the failing input).  The store holds one article
    that is old enough and one whose date cannot be read; the gzip write
    of the only group fails.  The run returns, no file is written, and
    the old article is gone from the store. *)
Theorem archive_deletes_rows_of_failed_write :
  let run := archive_old_articles Sample.dateutil_parse Sample.sqlite_datetime
               Sample.makedirs_ok Sample.gzip_full "/srv/archive"
               ARCHIVE_THRESHOLD_DAYS Sample.old_and_undated in
  fst run = Return tt
  /\ articles (w_db Sample.old_and_undated) = [Sample.old_article; Sample.undated_article]
  /\ w_fs (snd run)
     = [Makedirs "/srv/archive/2020/01";
        WriteFailed "/srv/archive/2020/01/articles_2024_03_01_120000.json.gz"]
  /\ articles (w_db (snd run)) = [Sample.undated_article].
Proof. vm_compute. repeat split. Qed.

(** With a write that succeeds the same row is written, then deleted. *)
Example archive_writes_then_deletes :
  let run := archive_old_articles Sample.dateutil_parse Sample.sqlite_datetime
               Sample.makedirs_ok Sample.gzip_ok "/srv/archive"
               ARCHIVE_THRESHOLD_DAYS Sample.old_and_undated in
  w_fs (snd run)
  = [Makedirs "/srv/archive/2020/01";
     Written "/srv/archive/2020/01/articles_2024_03_01_120000.json.gz"
             [record_of Sample.old_article]]
  /\ articles (w_db (snd run)) = [Sample.undated_article].
Proof. vm_compute. repeat split. Qed.

(** An article of 2020 and one of twenty days ago, threshold 30 days:
    the first is written under 2020/01 and deleted, the second stays. *)
Example archive_keeps_recent_article :
  let run := archive_old_articles Sample.dateutil_parse Sample.sqlite_datetime
               Sample.makedirs_ok Sample.gzip_ok "/srv/archive"
               ARCHIVE_THRESHOLD_DAYS
               (Sample.world_of [Sample.old_article; Sample.cached_article]) in
  w_fs (snd run)
  = [Makedirs "/srv/archive/2020/01";
     Written "/srv/archive/2020/01/articles_2024_03_01_120000.json.gz"
             [record_of Sample.old_article]]
  /\ articles (w_db (snd run)) = [Sample.cached_article].
Proof. vm_compute. repeat split. Qed.

(** C2 (counterexample).  The row of an existing link keeps its title,
    published, content, source_id and timestamp when [scraped_now] is
    false. *)
Lemma refreshes_row_fails :
  ~ refreshes_row "New" Sample.old_link "2024-02-10 09:30:00" "new body" (Some 2)
                  false Sample.one_old.
Proof.
  intros H. destruct (H Sample.old_article eq_refl) as (a' & Ha' & Ht & _).
  vm_compute in Ha'. inversion Ha'; subst a'. discriminate Ht.
Qed.

(** With [scraped_now] the content is replaced, the title is not. *)
Lemma title_kept_when_scraped :
  ~ refreshes_row "New" Sample.old_link "2024-02-10 09:30:00" "new body" (Some 2)
                  true Sample.one_old.
Proof.
  intros H. destruct (H Sample.old_article eq_refl) as (a' & Ha' & Ht & _).
  vm_compute in Ha'. inversion Ha'; subst a'. discriminate Ht.
Qed.

(** An instance: the stored article is saved again with new values and
    [scraped_now]. *)
Lemma save_article_existing_link_witness :
  article_by_link Sample.old_link (w_db Sample.one_old) = Some Sample.old_article
  /\ article_by_link Sample.old_link
       (w_db (snd (save_article "New" Sample.old_link "2024-02-10 09:30:00" "new body"
                                (Some 2) true Sample.one_old)))
     = Some (rescraped "new body" Sample.noon (Some 2) Sample.old_article).
Proof.
  split; [reflexivity|].
  exact (proj1 (save_article_existing_link "New" Sample.old_link "2024-02-10 09:30:00"
                  "new body" (Some 2) true Sample.one_old Sample.old_article eq_refl)).
Defined.

(** C3 (the code at the failing input).  On the update path and on the
    insert path the local variable [article_id] holds the id of the row,
    and the call hands [None] back. *)
Theorem save_article_hands_back_no_id :
  fst (save_article_body "Old" Sample.old_link "p" "c" (Some 1) true Sample.one_old)
  = Return (Some 1)
  /\ fst (save_article "Old" Sample.old_link "p" "c" (Some 1) true Sample.one_old) = Return None
  /\ fst (save_article_body "New" Sample.new_link "p" "c" (Some 1) true Sample.one_old)
     = Return (Some 4)
  /\ fst (save_article "New" Sample.new_link "p" "c" (Some 1) true Sample.one_old) = Return None
  /\ select_article_id Sample.new_link
       (w_db (snd (save_article "New" Sample.new_link "p" "c" (Some 1) true Sample.one_old)))
     = Some 4.
Proof. vm_compute. repeat split. Qed.

(** An instance: an old and an undated article, with a cutoff far in the
    future. *)
Lemma undated_article_never_archived_witness :
  article_ids_unique (w_db Sample.old_and_undated)
  /\ In Sample.undated_article (articles (w_db Sample.old_and_undated))
  /\ In Sample.undated_article
        (articles (w_db (snd (archive_old_articles Sample.dateutil_parse
                                Sample.sqlite_datetime Sample.makedirs_ok
                                Sample.gzip_ok "/srv/archive" (-100000)
                                Sample.old_and_undated)))).
Proof.
  assert (Hkey : article_ids_unique (w_db Sample.old_and_undated)).
  { unfold article_ids_unique. simpl. constructor.
    - simpl. intros [H|[]]. discriminate H.
    - constructor; [intros []|constructor]. }
  assert (Hin : In Sample.undated_article (articles (w_db Sample.old_and_undated))).
  { simpl. right. left. reflexivity. }
  split; [exact Hkey|]. split; [exact Hin|].
  exact (proj1 (proj2 (undated_article_never_archived Sample.dateutil_parse
                         Sample.sqlite_datetime Sample.makedirs_ok Sample.gzip_ok
                         "/srv/archive" (-100000) Sample.old_and_undated
                         Sample.undated_article "not-a-date"
                         Hkey Hin eq_refl eq_refl))).
Defined.

(** C4 (the code at the failing input).  The [published] of article 1
    names no day and is no date: dateutil refuses it.  SQLite reads it,
    so the candidate query selects the row; the grouping loop logs the
    error and leaves the row out of every group; the run writes no file
    and deletes the row.  Article 2, whose [published] SQLite does not
    read, stays. *)
Theorem archive_deletes_unparseable_article :
  let w := Sample.world_of [Sample.misdated_article; Sample.undated_article] in
  let run := archive_old_articles Sample.dateutil_parse_calendar
               Sample.sqlite_datetime_text Sample.makedirs_ok Sample.gzip_ok
               "/srv/archive" ARCHIVE_THRESHOLD_DAYS w in
  Sample.dateutil_parse_calendar "2023-02-30"
  = Raise "day is out of range for month: 2023-02-30"
  /\ select_old_articles Sample.sqlite_datetime_text
       (isoformat (w_now w - timedelta_days ARCHIVE_THRESHOLD_DAYS)) (w_db w)
     = [record_of Sample.misdated_article]
  /\ fst run = Return tt
  /\ w_fs (snd run) = []
  /\ w_log (snd run)
     = [(ERROR, "Errore nel parsing della data per l'articolo ID 1: "
                ++ "day is out of range for month: 2023-02-30");
        (INFO, "Rimossi 1 articoli dal database principale.")]
  /\ articles (w_db (snd run)) = [Sample.undated_article].
Proof. vm_compute. repeat split. Qed.

(** An instance: the row was resolved one hour ago. *)
Lemma cache_reused_iff_fresh_witness :
  stamp_readable Sample.dateutil_parse (Sample.world_of [Sample.cached_article])
                 "http://good.example/1"
  /\ ((reuses_cache Sample.requests_get Sample.handle Sample.dateutil_parse
                    "http://good.example/1" Sample.cached_entry (Sample.world_of [Sample.cached_article])
       <-> exists c, cache_is_fresh Sample.dateutil_parse
                       (Sample.world_of [Sample.cached_article])
                       "http://good.example/1" c)
      /\ (~ (exists c, cache_is_fresh Sample.dateutil_parse
                         (Sample.world_of [Sample.cached_article])
                         "http://good.example/1" c)
          -> attempts_extraction Sample.requests_get Sample.handle
               Sample.dateutil_parse "http://good.example/1" Sample.cached_entry
               (Sample.world_of [Sample.cached_article]))).
Proof.
  assert (Hread : stamp_readable Sample.dateutil_parse
                    (Sample.world_of [Sample.cached_article]) "http://good.example/1").
  { intros a s Ha Hs _. vm_compute in Ha. inversion Ha; subst a.
    simpl in Hs. inversion Hs; subst s. eexists. reflexivity. }
  split; [exact Hread|].
  exact (cache_reused_iff_fresh Sample.requests_get Sample.handle
           Sample.dateutil_parse "http://good.example/1" Sample.cached_entry
           (Sample.world_of [Sample.cached_article]) Hread).
Defined.

(** Content resolved one hour ago is reused; resolved 25 hours ago, the
    page is requested again. *)
Example cache_of_one_hour_is_reused :
  resolve_content Sample.requests_get Sample.handle Sample.dateutil_parse
                  "http://good.example/1" Sample.cached_entry (Sample.world_of [Sample.cached_article])
  = (Return (Sample.long_text, false), Sample.world_of [Sample.cached_article]).
Proof. vm_compute. reflexivity. Qed.

Example cache_of_25_hours_is_fetched_again :
  let run := resolve_content Sample.requests_get Sample.handle
               Sample.dateutil_parse "http://good.example/1" Sample.cached_entry
               (Sample.world_of [Sample.stale_article]) in
  fst run = Return ("one" ++ newline ++ "two", true)
  /\ w_net (snd run) = ["http://good.example/1"].
Proof. vm_compute. split; reflexivity. Qed.

(** An instance: the page cannot be fetched and the entry has both a
    content and a summary. *)
Lemma fallback_to_feed_text_witness :
  fst (needs_scraping Sample.dateutil_parse
         (select_content_scraped_at "http://gone.example/1" (w_db Sample.one_old))
         Sample.one_old) = Return true
  /\ fst (fetch_full_article Sample.requests_get "http://gone.example/1" Sample.one_old)
     = Return ""
  /\ fst (resolve_content Sample.requests_get Sample.handle Sample.dateutil_parse
                          "http://gone.example/1" Sample.unreachable_entry Sample.one_old)
     = Return ("text of <b>full</b>", false).
Proof.
  split; [reflexivity|]. split; [reflexivity|].
  exact (fallback_to_feed_text Sample.requests_get Sample.handle
           Sample.dateutil_parse "http://gone.example/1" Sample.unreachable_entry Sample.one_old eq_refl eq_refl).
Defined.

(** C7 (counterexample).  A URL that cannot be fetched has no value in
    the result. *)
Lemma one_result_per_url_fails : ~ one_result_per_url Sample.feedparser_parse.
Proof.
  intros H.
  destruct (H ["http://bad.example/rss"; "http://good.example/rss"] Sample.one_old)
    as (feeds & w' & Hrun & Hlen).
  vm_compute in Hrun. inversion Hrun; subst feeds. discriminate Hlen.
Qed.

(** An instance: a URL that times out, then one that answers. *)
Lemma fetch_feeds_collects_witness :
  draws None
  /\ fetch_feeds Sample.feedparser_parse
       ["http://bad.example/rss"; "http://good.example/rss"] None Sample.one_old
     = (Return [Sample.good_feed],
        logged Sample.one_old
          [(ERROR, "Error fetching feed http://bad.example/rss: <urlopen error timed out>");
           (INFO, "Fetched feed: http://good.example/rss")]).
Proof.
  split; [exact I|].
  exact (fetch_feeds_collects Sample.feedparser_parse
           ["http://bad.example/rss"; "http://good.example/rss"] None Sample.one_old I).
Defined.

(** C8 (counterexample).  With no tag to search for, every article
    carries all of them, and the search returns nothing. *)
Lemma finds_all_tags_fails : ~ finds_all_tags [] Sample.one_old.
Proof.
  intros (result & w' & Hrun & Hiff).
  vm_compute in Hrun. inversion Hrun; subst result w'.
  destruct (Hiff Sample.old_article (or_introl eq_refl)) as [_ Hall].
  apply Hall. intros t [].
Qed.

(** A searched tag that is not in [tags] is left out of the search: the
    articles tagged "rocq" are returned for ["rocq"; "nosuch"]. *)
Lemma search_leaves_out_unknown_tag :
  fst (search_articles ["rocq"; "nosuch"] Sample.old_and_undated)
  = Return [row_of Sample.old_article; row_of Sample.undated_article]
  /\ ~ has_tag (w_db Sample.old_and_undated) 1 "nosuch".
Proof.
  split; [vm_compute; reflexivity|].
  intros (x & Hx & Htag & _). simpl in Hx.
  destruct Hx as [<-|[<-|[]]]; discriminate Htag.
Qed.

(** An instance: two tags, both in [tags]. *)
Lemma search_articles_all_tags_witness :
  tags_known (w_db Sample.old_and_undated) ["rocq"; "proofs"]
  /\ tags_keyed (w_db Sample.old_and_undated)
  /\ exists result,
       search_articles ["rocq"; "proofs"] Sample.old_and_undated
       = (Return result, Sample.old_and_undated)
       /\ (["rocq"; "proofs"] = [] -> result = [])
       /\ (["rocq"; "proofs"] <> [] ->
           forall row,
             In row result <->
             exists a, In a (articles (w_db Sample.old_and_undated))
                       /\ row = row_of a
                       /\ forall t, In t ["rocq"; "proofs"] ->
                                    has_tag (w_db Sample.old_and_undated) (art_id a) t).
Proof.
  assert (Hknown : tags_known (w_db Sample.old_and_undated) ["rocq"; "proofs"]).
  { intros t [<-|[<-|[]]].
    - exists (mkTag 1 (Some "rocq")). split; [left|]; reflexivity.
    - exists (mkTag 2 (Some "proofs")). split; [right; left|]; reflexivity. }
  assert (Hkeyed : tags_keyed (w_db Sample.old_and_undated)).
  { split.
    - simpl. constructor.
      + intros [H|[]]. discriminate H.
      + constructor; [intros []|constructor].
    - simpl. intros x y t [<-|[<-|[]]] [<-|[<-|[]]] Hx Hy;
        try reflexivity; simpl in Hx, Hy; rewrite <- Hx in Hy; discriminate Hy. }
  split; [exact Hknown|]. split; [exact Hkeyed|].
  exact (search_articles_all_tags ["rocq"; "proofs"] Sample.old_and_undated
           Hknown Hkeyed).
Defined.

(** The search of the instance finds the article that has both tags. *)
Example search_two_tags :
  fst (search_articles ["rocq"; "proofs"] Sample.old_and_undated)
  = Return [row_of Sample.old_article].
Proof. vm_compute. reflexivity. Qed.

(** An instance: a new article is saved into a store of one. *)
Lemma content_is_stamped_preserved_witness :
  content_is_stamped (w_db Sample.one_old)
  /\ content_is_stamped
       (w_db (run_op Sample.dateutil_parse Sample.sqlite_datetime
                     Sample.makedirs_ok Sample.gzip_ok "/srv/archive"
                     (OpSaveArticle "New" Sample.new_link "p" "c" (Some 1) false)
                     Sample.one_old)).
Proof.
  assert (Hinv : content_is_stamped (w_db Sample.one_old)).
  { intros a [<-|[]] _. discriminate. }
  split; [exact Hinv|].
  exact (content_is_stamped_preserved Sample.dateutil_parse Sample.sqlite_datetime
           Sample.makedirs_ok Sample.gzip_ok "/srv/archive"
           (OpSaveArticle "New" Sample.new_link "p" "c" (Some 1) false) Sample.one_old Hinv).
Defined.

(** An instance: the only article has a date that cannot be read. *)
Lemma archive_without_candidates_witness :
  select_old_articles Sample.sqlite_datetime
    (isoformat (w_now (Sample.world_of [Sample.undated_article])
                - timedelta_days ARCHIVE_THRESHOLD_DAYS))
    (w_db (Sample.world_of [Sample.undated_article])) = []
  /\ archive_old_articles Sample.dateutil_parse Sample.sqlite_datetime
       Sample.makedirs_ok Sample.gzip_ok "/srv/archive" ARCHIVE_THRESHOLD_DAYS
       (Sample.world_of [Sample.undated_article])
     = (Return tt,
        logged (Sample.world_of [Sample.undated_article])
               [(INFO, "Nessun articolo da archiviare.")]).
Proof.
  split; [reflexivity|].
  exact (archive_without_candidates Sample.dateutil_parse Sample.sqlite_datetime
           Sample.makedirs_ok Sample.gzip_ok "/srv/archive" ARCHIVE_THRESHOLD_DAYS
           (Sample.world_of [Sample.undated_article]) eq_refl).
Defined.

(* ------------------------------------------------------------------ *)
(** * Instances of the further properties *)

Lemma sample_constraints : constraints (w_db Sample.one_old).
Proof.
  unfold constraints, source_ids_unique, urls_unique, article_ids_unique,
    links_unique, tags_keyed, pairs_unique. simpl.
  repeat split.
  - repeat constructor. intros [].
  - repeat constructor. intros [].
  - repeat constructor. intros [].
  - repeat constructor. intros [].
  - repeat constructor; simpl; intuition discriminate.
  - intros x y t [<-|[<-|[]]] [<-|[<-|[]]]; simpl; congruence.
  - repeat constructor; simpl; intuition discriminate.
Qed.

Lemma sample_tags_keyed : tags_keyed (w_db Sample.one_old).
Proof. apply sample_constraints. Qed.

Lemma sample_ids_bounded : ids_bounded (w_db Sample.one_old).
Proof. intros a [<-|[]]. simpl. lia. Qed.

Lemma sample_tag_ids_known : tag_ids_known (w_db Sample.one_old).
Proof.
  intros x [<-|[<-|[<-|[]]]]; simpl; auto.
Qed.

Lemma sample_url_clean : clean "http://good.example/rss".
Proof.
  split; [discriminate|]. split; [reflexivity|]. split; reflexivity.
Qed.

(** An instance: an article is saved in the sample store. *)
Lemma constraints_preserved_witness :
  constraints (w_db Sample.one_old)
  /\ constraints
       (w_db (run_op Sample.dateutil_parse Sample.sqlite_datetime
                Sample.makedirs_ok Sample.gzip_ok "/srv/archive"
                (OpSaveArticle "New" Sample.new_link "2024-02-10 09:30:00" "body"
                               (Some 1) true)
                Sample.one_old)).
Proof.
  split; [exact sample_constraints|].
  exact (constraints_preserved Sample.dateutil_parse Sample.sqlite_datetime
           Sample.makedirs_ok Sample.gzip_ok "/srv/archive"
           (OpSaveArticle "New" Sample.new_link "2024-02-10 09:30:00" "body"
                          (Some 1) true)
           Sample.one_old sample_constraints).
Defined.

(** An instance: the sample store holds article 1 and its counter is at
    3; the id 2 stays unused when an article is saved and the old one is
    archived. *)
Lemma deleted_id_never_returns_witness :
  ids_bounded (w_db Sample.one_old)
  /\ 2 <= seq_articles (w_db Sample.one_old)
  /\ ~ In 2 (map art_id (articles (w_db Sample.one_old)))
  /\ ~ In 2 (map art_id
               (articles
                  (w_db (run_ops Sample.dateutil_parse Sample.sqlite_datetime
                           Sample.makedirs_ok Sample.gzip_ok "/srv/archive"
                           [(Sample.noon,
                             OpSaveArticle "New" Sample.new_link
                                           "2024-02-10 09:30:00" "body" (Some 1) true);
                            (Sample.noon + 1, OpArchive 30)]
                           Sample.one_old)))).
Proof.
  assert (H2 : 2 <= seq_articles (w_db Sample.one_old)) by (simpl; lia).
  assert (H3 : ~ In 2 (map art_id (articles (w_db Sample.one_old))))
    by (simpl; intros [H|[]]; discriminate H).
  split; [exact sample_ids_bounded|]. split; [exact H2|]. split; [exact H3|].
  exact (deleted_id_never_returns Sample.dateutil_parse Sample.sqlite_datetime
           Sample.makedirs_ok Sample.gzip_ok "/srv/archive" _ Sample.one_old 2
           sample_ids_bounded H2 H3).
Defined.

Lemma sample_cache_is_fresh :
  cache_is_fresh Sample.dateutil_parse (Sample.world_of [Sample.cached_article])
                 "http://good.example/1" Sample.long_text.
Proof.
  exists Sample.cached_article, "2024-03-01T11:00:00", (1709290800 * 1000000).
  split; [reflexivity|]. split; [reflexivity|]. split; [discriminate|].
  split; [vm_compute; discriminate|]. split; [reflexivity|].
  split; [discriminate|]. split; [reflexivity|]. vm_compute. reflexivity.
Qed.

(** An instance: the entry's link was resolved one hour ago. *)
Lemma process_entry_fresh_cache_witness :
  e_title Sample.cached_entry = Some "First"
  /\ e_link Sample.cached_entry = Some "http://good.example/1"
  /\ cache_is_fresh Sample.dateutil_parse (Sample.world_of [Sample.cached_article])
                    "http://good.example/1" Sample.long_text
  /\ process_entry Sample.requests_get Sample.handle Sample.dateutil_parse
                   (Some 1) Sample.cached_entry
                   (Sample.world_of [Sample.cached_article])
     = (Return tt,
        logged (Sample.world_of [Sample.cached_article])
               [(INFO, "Article already exists: " ++ "First")]).
Proof.
  split; [reflexivity|]. split; [reflexivity|].
  split; [exact sample_cache_is_fresh|].
  exact (process_entry_fresh_cache Sample.requests_get Sample.handle
           Sample.dateutil_parse (Some 1) Sample.cached_entry
           (Sample.world_of [Sample.cached_article]) "First"
           "http://good.example/1" Sample.long_text eq_refl eq_refl
           sample_cache_is_fresh).
Defined.

(** An instance: the entry's link is in the store, resolved 25 hours
    ago. *)
Lemma process_entry_existing_link_witness :
  e_link Sample.cached_entry = Some "http://good.example/1"
  /\ article_by_link "http://good.example/1"
                     (w_db (Sample.world_of [Sample.stale_article]))
     = Some Sample.stale_article
  /\ (let db' := w_db (snd (process_entry Sample.requests_get Sample.handle
                              Sample.dateutil_parse (Some 1) Sample.cached_entry
                              (Sample.world_of [Sample.stale_article]))) in
      db' = w_db (Sample.world_of [Sample.stale_article])
      \/ page_text Sample.requests_get "http://good.example/1" <> ""
         /\ db' = update_article
                    (page_text Sample.requests_get "http://good.example/1")
                    (isoformat (w_now (Sample.world_of [Sample.stale_article])))
                    (Some 1) "http://good.example/1"
                    (w_db (Sample.world_of [Sample.stale_article]))).
Proof.
  split; [reflexivity|]. split; [reflexivity|].
  exact (process_entry_existing_link Sample.requests_get Sample.handle
           Sample.dateutil_parse (Some 1) Sample.cached_entry
           (Sample.world_of [Sample.stale_article]) "http://good.example/1"
           Sample.stale_article eq_refl eq_refl).
Defined.

(** An instance: the entry's link is not in the store and its page
    cannot be fetched. *)
Lemma process_entry_new_link_witness :
  e_title Sample.unreachable_entry = Some "Gone"
  /\ e_link Sample.unreachable_entry = Some "http://gone.example/1"
  /\ article_by_link "http://gone.example/1" (w_db Sample.one_old) = None
  /\ fst (process_entry Sample.requests_get Sample.handle Sample.dateutil_parse
                        (Some 1) Sample.unreachable_entry Sample.one_old)
     = Return tt.
Proof.
  split; [reflexivity|]. split; [reflexivity|]. split; [reflexivity|].
  exact (proj1 (proj1 (process_entry_new_link Sample.requests_get Sample.handle
                         Sample.dateutil_parse (Some 1) Sample.unreachable_entry
                         Sample.one_old)
                      "Gone" "http://gone.example/1" eq_refl eq_refl eq_refl)).
Defined.

(** An entry without title stops the run of its feed: the error leaves
    [process_feeds], and the entries and feeds after it are not read. *)
Example untitled_entry_stops_ingestion :
  process_entry Sample.requests_get Sample.handle Sample.dateutil_parse (Some 1)
    (mkEntry None (Some "http://good.example/1") None None None None)
    Sample.one_old
  = (Raise "object has no attribute 'title'", Sample.one_old).
Proof. reflexivity. Qed.

Lemma sample_content_is_stamped : content_is_stamped (w_db Sample.one_old).
Proof. intros a [<-|[]] _. discriminate. Qed.

(** An instance: one feed that answers and one that does not. *)
Lemma process_feeds_keeps_invariants_witness :
  (constraints (w_db Sample.one_old) /\ content_is_stamped (w_db Sample.one_old)
   /\ ids_bounded (w_db Sample.one_old))
  /\ constraints
       (w_db (snd (process_feeds Sample.feedparser_parse Sample.requests_get
                     Sample.handle Sample.dateutil_parse
                     ["http://bad.example/rss"; "http://good.example/rss"] None
                     Sample.one_old))).
Proof.
  assert (H : constraints (w_db Sample.one_old)
              /\ content_is_stamped (w_db Sample.one_old)
              /\ ids_bounded (w_db Sample.one_old)).
  { split; [exact sample_constraints|].
    split; [exact sample_content_is_stamped | exact sample_ids_bounded]. }
  split; [exact H|].
  exact (proj1 (process_feeds_keeps_invariants Sample.feedparser_parse
                  Sample.requests_get Sample.handle Sample.dateutil_parse
                  ["http://bad.example/rss"; "http://good.example/rss"] None
                  Sample.one_old H)).
Defined.

Lemma sample_readable :
  every_article (readable Sample.dateutil_parse)
                (w_db (at_time (1709290800 * 1000000)
                         (Sample.world_of [Sample.stale_article]))).
Proof.
  intros a [<-|[]] s Hs _. simpl in Hs. inversion Hs. eexists. reflexivity.
Qed.

Lemma sample_entries_titled :
  entries_titled Sample.feedparser_parse
                 ["http://bad.example/rss"; "http://good.example/rss"].
Proof.
  intros feed e Hfeed He. vm_compute in Hfeed.
  destruct Hfeed as [<-|[]]. simpl in He. destruct He as [<-|[]].
  split; discriminate.
Qed.

(** An instance: no progress window, a feed that fails and one that
    answers, at 2024-03-01T11:00:00 on a store whose article was
    resolved 24 hours before. *)
Lemma process_feeds_returns_witness :
  draws None
  /\ entries_titled Sample.feedparser_parse
                    ["http://bad.example/rss"; "http://good.example/rss"]
  /\ (exists t,
        Sample.dateutil_parse
          (isoformat (w_now (at_time (1709290800 * 1000000)
                               (Sample.world_of [Sample.stale_article]))))
        = Return t)
  /\ every_article (readable Sample.dateutil_parse)
                   (w_db (at_time (1709290800 * 1000000)
                            (Sample.world_of [Sample.stale_article])))
  /\ fst (process_feeds Sample.feedparser_parse Sample.requests_get Sample.handle
            Sample.dateutil_parse
            ["http://bad.example/rss"; "http://good.example/rss"] None
            (at_time (1709290800 * 1000000)
                     (Sample.world_of [Sample.stale_article])))
     = Return tt.
Proof.
  assert (Hnow : exists t,
             Sample.dateutil_parse
               (isoformat (w_now (at_time (1709290800 * 1000000)
                                    (Sample.world_of [Sample.stale_article]))))
             = Return t)
    by (eexists; vm_compute; reflexivity).
  split; [exact I|]. split; [exact sample_entries_titled|].
  split; [exact Hnow|]. split; [exact sample_readable|].
  exact (process_feeds_returns Sample.feedparser_parse Sample.requests_get
           Sample.handle Sample.dateutil_parse
           ["http://bad.example/rss"; "http://good.example/rss"] None
           (at_time (1709290800 * 1000000) (Sample.world_of [Sample.stale_article]))
           I sample_entries_titled Hnow sample_readable).
Defined.

(** An instance: a window that cannot be drawn on, and a feed that
    answers. *)
Lemma fetch_feeds_window_fails_witness :
  never_draws (fun _ _ _ => Some "addwstr() returned ERR") "addwstr() returned ERR"
  /\ fst (fetch_feeds Sample.feedparser_parse ["http://good.example/rss"]
            (Some (fun _ _ _ => Some "addwstr() returned ERR")) Sample.one_old)
     = Raise "addwstr() returned ERR".
Proof.
  assert (H : never_draws (fun _ _ _ => Some "addwstr() returned ERR")
                          "addwstr() returned ERR")
    by (intros c t m; reflexivity).
  split; [exact H|].
  exact (f_equal fst
           (fetch_feeds_window_fails Sample.feedparser_parse
              (fun _ _ _ => Some "addwstr() returned ERR")
              "addwstr() returned ERR" "http://good.example/rss" []
              Sample.one_old H)).
Defined.

(** An instance: directories can be made and files written. *)
Lemma archive_writes_dated_rows_witness :
  (forall path, Sample.makedirs_ok path = None)
  /\ fst (archive_old_articles Sample.dateutil_parse Sample.sqlite_datetime
            Sample.makedirs_ok Sample.gzip_ok "/srv/archive" 30 Sample.one_old)
     = Return tt.
Proof.
  split; [intros path; reflexivity|].
  exact (proj1 (archive_writes_dated_rows Sample.dateutil_parse
                  Sample.sqlite_datetime Sample.makedirs_ok Sample.gzip_ok
                  "/srv/archive" 30 Sample.one_old (fun path => eq_refl))).
Defined.

(** An instance: one of the two tags of article 1 is removed. *)
Lemma remove_tags_unlists_witness :
  tags_keyed (w_db Sample.one_old)
  /\ fst (remove_tags 1 ["rocq"] Sample.one_old) = Return tt
  /\ tags (w_db (snd (remove_tags 1 ["rocq"] Sample.one_old)))
     = tags (w_db Sample.one_old).
Proof.
  split; [exact sample_tags_keyed|].
  pose proof (remove_tags_unlists 1 ["rocq"] Sample.one_old sample_tags_keyed) as H.
  split; [exact (proj1 H) | exact (proj1 (proj2 H))].
Defined.

(** An instance: two searches that differ in a tag no row holds. *)
Lemma search_sees_known_tags_witness :
  ["rocq"; "nowhere"] <> []
  /\ ["rocq"; "elsewhere"] <> []
  /\ (forall t, known_tag (w_db Sample.one_old) t ->
                (In t ["rocq"; "nowhere"] <-> In t ["rocq"; "elsewhere"]))
  /\ search_articles ["rocq"; "nowhere"] Sample.one_old
     = search_articles ["rocq"; "elsewhere"] Sample.one_old.
Proof.
  assert (H1 : ["rocq"; "nowhere"] <> []) by discriminate.
  assert (H2 : ["rocq"; "elsewhere"] <> []) by discriminate.
  assert (H3 : forall t, known_tag (w_db Sample.one_old) t ->
                         (In t ["rocq"; "nowhere"] <-> In t ["rocq"; "elsewhere"])).
  { intros t (x & Hx & Htag). simpl in Hx.
    destruct Hx as [<-|[<-|[]]]; simpl in Htag; inversion Htag; subst t; simpl.
    - split; intros _; left; reflexivity.
    - split; intros [H|[H|[]]]; discriminate H. }
  split; [exact H1|]. split; [exact H2|]. split; [exact H3|].
  exact (search_sees_known_tags ["rocq"; "nowhere"] ["rocq"; "elsewhere"]
           Sample.one_old H1 H2 H3).
Defined.

(** An instance: the old article gets a tag that is new to the store. *)
Lemma search_finds_tagged_article_witness :
  tags_keyed (w_db Sample.one_old)
  /\ In Sample.old_article (articles (w_db Sample.one_old))
  /\ ["new"] <> []
  /\ exists result,
       search_articles ["new"]
         (snd (add_tags (art_id Sample.old_article) ["new"] Sample.one_old))
       = (Return result,
          snd (add_tags (art_id Sample.old_article) ["new"] Sample.one_old))
       /\ In (row_of Sample.old_article) result.
Proof.
  assert (H2 : In Sample.old_article (articles (w_db Sample.one_old)))
    by (left; reflexivity).
  assert (H3 : ["new"] <> []) by discriminate.
  split; [exact sample_tags_keyed|]. split; [exact H2|]. split; [exact H3|].
  exact (search_finds_tagged_article Sample.old_article ["new"] Sample.one_old
           sample_tags_keyed H2 H3).
Defined.

(** An instance: a feed is added to a file of one line. *)
Lemma add_feed_appends_witness :
  clean "http://good.example/rss"
  /\ complete (get_default (Some (String.append "http://a.example/rss" (String LF EmptyString))) "")
     = true
  /\ exists raw',
       add_feed "http://good.example/rss"
                (Some (String.append "http://a.example/rss" (String LF EmptyString)))
                Sample.one_old
       = (Return (Some raw'),
          logged Sample.one_old
                 [(INFO, "Added new feed: " ++ "http://good.example/rss")])
       /\ stripped_lines raw'
          = (stripped_lines
               (get_default (Some (String.append "http://a.example/rss" (String LF EmptyString))) "")
             ++ ["http://good.example/rss"])%list.
Proof.
  split; [exact sample_url_clean|]. split; [reflexivity|].
  exact (add_feed_appends "http://good.example/rss"
           (Some (String.append "http://a.example/rss" (String LF EmptyString)))
           Sample.one_old sample_url_clean eq_refl).
Defined.

(** An instance: the feed is added to a missing file and deleted
    again. *)
Lemma add_feed_then_delete_witness :
  clean "http://good.example/rss"
  /\ complete (get_default None "") = true
  /\ ~ In "http://good.example/rss" (stripped_lines (get_default None ""))
  /\ exists added w1 left w2,
       add_feed "http://good.example/rss" None Sample.one_old = (Return added, w1)
       /\ delete_feed_from_file "http://good.example/rss" added w1
          = (Return (Some left), w2)
       /\ stripped_lines left = stripped_lines (get_default None "").
Proof.
  assert (H3 : ~ In "http://good.example/rss" (stripped_lines (get_default None "")))
    by (intros []).
  split; [exact sample_url_clean|]. split; [reflexivity|]. split; [exact H3|].
  exact (add_feed_then_delete "http://good.example/rss" None Sample.one_old
           sample_url_clean eq_refl H3).
Defined.

(** On a file whose last line has no line feed, the URL is written on
    that line: the file then lists one feed, made of both. *)
Example add_feed_joins_unfinished_line :
  exists raw,
    fst (add_feed "http://b.example/rss" (Some "http://a.example/rss") Sample.one_old)
    = Return (Some raw)
    /\ stripped_lines raw = ["http://a.example/rsshttp://b.example/rss"].
Proof. eexists. split; reflexivity. Qed.

Lemma sample_tags_plain : forall t, In t ["rocq"; "proofs"] -> plain_tag t.
Proof.
  intros t [<-|[<-|[]]]; (split; [discriminate|]);
    (split; [reflexivity|]); split; reflexivity.
Qed.

(** An instance: the line that shows two tags is read as the two
    tags. *)
Lemma typed_tags_of_joined_witness :
  (forall t, In t ["rocq"; "proofs"] -> plain_tag t)
  /\ typed_tags (String.concat ", " ["rocq"; "proofs"]) = ["rocq"; "proofs"].
Proof.
  split; [exact sample_tags_plain|].
  exact (proj2 (typed_tags_of_joined "" ["rocq"; "proofs"]) sample_tags_plain).
Defined.

(** An instance: article 1 has the tags rocq and proofs; rocq is typed
    to be removed, and rocq and new to be added. *)
Lemma edit_tags_ui_sets_tags_witness :
  tags_keyed (w_db Sample.one_old)
  /\ tag_ids_known (w_db Sample.one_old)
  /\ fst (edit_tags_ui (String.concat ", ") "rocq" " rocq, new" 1 Sample.one_old)
     = Return tt.
Proof.
  split; [exact sample_tags_keyed|]. split; [exact sample_tag_ids_known|].
  exact (proj1 (edit_tags_ui_sets_tags (String.concat ", ") "rocq" " rocq, new" 1
                  Sample.one_old sample_tags_keyed sample_tag_ids_known)).
Defined.

(** An instance: tags are added in the sample store. *)
Lemma tag_ids_known_preserved_witness :
  tag_ids_known (w_db Sample.one_old)
  /\ tag_ids_known
       (w_db (run_op Sample.dateutil_parse Sample.sqlite_datetime
                Sample.makedirs_ok Sample.gzip_ok "/srv/archive"
                (OpAddTags 1 ["new"]) Sample.one_old)).
Proof.
  split; [exact sample_tag_ids_known|].
  exact (proj2 (tag_ids_known_preserved Sample.dateutil_parse Sample.sqlite_datetime
                  Sample.makedirs_ok Sample.gzip_ok "/srv/archive"
                  (OpAddTags 1 ["new"]) Sample.one_old)
               sample_tag_ids_known).
Defined.

Lemma sample_parses : parses Sample.feedparser_parse (strip "  http://good.example/rss ").
Proof. exists Sample.good_feed. split; reflexivity. Qed.

(** An instance: the URL of the feed that answers, typed with blanks
    around it, when there is no feeds file. *)
Lemma add_feed_ui_adds_witness :
  strip "  http://good.example/rss " <> ""
  /\ no_break (strip "  http://good.example/rss ") = true
  /\ complete (get_default None "") = true
  /\ parses Sample.feedparser_parse (strip "  http://good.example/rss ")
  /\ exists file' w',
       add_feed_ui Sample.feedparser_parse "  http://good.example/rss " None
                   Sample.one_old
       = (Return (Some file'), w')
       /\ stripped_lines file'
          = (stripped_lines (get_default None "")
             ++ [strip "  http://good.example/rss "])%list
       /\ (exists source_id,
             select_source_id (strip "  http://good.example/rss ") (w_db w')
             = Some source_id)
       /\ (forall known,
             select_source_id (strip "  http://good.example/rss ")
                              (w_db Sample.one_old) = Some known ->
             w_db w' = w_db Sample.one_old).
Proof.
  assert (H1 : strip "  http://good.example/rss " <> "")
    by (vm_compute; discriminate).
  split; [exact H1|]. split; [reflexivity|]. split; [reflexivity|].
  split; [exact sample_parses|].
  exact (add_feed_ui_adds Sample.feedparser_parse "  http://good.example/rss " None
           Sample.one_old H1 eq_refl eq_refl sample_parses).
Defined.

(** An instance: a line of blanks. *)
Lemma add_feed_ui_rejects_witness :
  (strip "   " = "" \/ ~ parses Sample.feedparser_parse (strip "   "))
  /\ exists e,
       add_feed_ui Sample.feedparser_parse "   " (Some "") Sample.one_old
       = (Return (Some ""),
          logged Sample.one_old [(ERROR, "Error adding feed via UI: " ++ e)]).
Proof.
  assert (H : strip "   " = "" \/ ~ parses Sample.feedparser_parse (strip "   "))
    by (left; reflexivity).
  split; [exact H|].
  exact (add_feed_ui_rejects Sample.feedparser_parse "   " (Some "")
           Sample.one_old H).
Defined.

(** An instance: a page of ten feeds out of twelve, and the key 9. *)
Lemma menu_key_chooses_witness :
  0 < 10 /\ 0 <= 0
  /\ exists action,
       menu_key 10 [1; 2; 3; 4; 5; 6; 7; 8; 9; 10; 11; 12] 0 (code "9")
       = Return action.
Proof.
  assert (H1 : 0 < 10) by lia. assert (H2 : 0 <= 0) by lia.
  split; [exact H1|]. split; [exact H2|].
  exact (proj1 (menu_key_chooses 10 [1; 2; 3; 4; 5; 6; 7; 8; 9; 10; 11; 12] 0
                  (code "9") H1 H2)).
Defined.

(** With ten feeds to the page, no key chooses the tenth. *)
Example tenth_feed_cannot_be_chosen (key : Z) :
  menu_key 10 [1; 2; 3; 4; 5; 6; 7; 8; 9; 10; 11; 12] 0 key <> Return (Choose 10).
Proof.
  intros H.
  assert (H1 : 0 < 10) by lia. assert (H2 : 0 <= 0) by lia.
  revert H. rewrite (menu_key_run 10 _ 0 key H1 H2). cbv zeta.
  change (code "q") with 113; change (code "n") with 110;
    change (code "p") with 112; change (code "0") with 48;
    change (code "1") with 49.
  destruct (key =? 113); [discriminate|].
  destruct ((key =? 110) && _); [discriminate|].
  destruct ((key =? 112) && _); [discriminate|].
  change (Z.min 9 (Z.of_nat (List.length (slice [1; 2; 3; 4; 5; 6; 7; 8; 9; 10; 11; 12]
                                             (0 * 10) (0 * 10 + 10))))) with 9.
  destruct (Z.leb_spec 49 key) as [Ha|Ha]; [|discriminate].
  destruct (Z.leb_spec key (48 + 9)) as [Hb|Hb]; [|discriminate].
  cbn [andb].
  assert (Hk : key = 49 \/ key = 50 \/ key = 51 \/ key = 52 \/ key = 53
               \/ key = 54 \/ key = 55 \/ key = 56 \/ key = 57) by lia.
  repeat (destruct Hk as [-> | Hk]; [discriminate|]). subst key. discriminate.
Qed.
